(** * PO-frontend: invoice normalisation, dispatch validation, error buffer
      and reminder activity cache

    A shallow embedding of the service layer of the purchase-order dashboard
    (src/lib/ai-invoice-service.ts, src/lib/send-reminder-service.ts,
    src/lib/invoice-error-handler.ts, src/lib/reminder-activity-tracker.ts)
    and the properties its specification states about it.

    The services are written in TypeScript over values typed [any]; the
    embedding therefore starts with a model of the JavaScript values and
    of the built-in operations the services apply to them. *)

From Stdlib Require Import ZArith QArith Qabs List String Ascii Bool Lia.
From Stdlib Require Import DecimalString.
Import ListNotations.

Local Open Scope string_scope.
Local Open Scope Z_scope.

(* ===================================================================== *)
(** * The JavaScript runtime, as far as the services use it *)
(* ===================================================================== *)

Module JS.

(** ** Completions: a call returns a value or throws *)

(** What a [catch] clause receives.  [ErrorExn] is an instance of [Error]
    carrying its [message]; [ThrownValue] is a thrown value that is not an
    [Error] (so that [error instanceof Error] is false). *)
Inductive exn : Type :=
| ErrorExn (message : string)
| ThrownValue.

Inductive completion (A : Type) : Type :=
| Return (a : A)
| Throw (e : exn).
Arguments Return {A} a.
Arguments Throw {A} e.

Definition bind {A B} (c : completion A) (k : A -> completion B) : completion B :=
  match c with
  | Return a => k a
  | Throw e => Throw e
  end.

Declare Scope js_scope.
Delimit Scope js_scope with js.
Notation "'let!' x ':=' c 'in' k" := (bind c (fun x => k))
  (at level 10, x name, c at level 100, k at level 200) : js_scope.
Local Open Scope js_scope.

(** [xs.map(f)] where the callback may throw: elements are visited in
    order with their index, the first exception aborts the map. *)
Fixpoint map_indexed {A B} (f : A -> Z -> completion B) (index : Z) (xs : list A)
  : completion (list B) :=
  match xs with
  | [] => Return []
  | x :: rest =>
      let! y := f x index in
      let! ys := map_indexed f (index + 1) rest in
      Return (y :: ys)
  end.

(** ** Strings

    A string is a sequence of code units; the characters of [string] stand
    for the code units U+0000..U+00FF. *)

Definition code (c : ascii) : Z := Z.of_N (N_of_ascii c).

(** WhiteSpace and LineTerminator code units in that range: TAB, LF, VT, FF,
    CR, SP and NBSP.  [String.prototype.trim] and the regular expression
    class [\s] both use this set. *)
Definition is_whitespace (c : ascii) : bool :=
  let n := code c in
  ((9 <=? n) && (n <=? 13)) || (n =? 32) || (n =? 160).

Fixpoint trimStart (s : string) : string :=
  match s with
  | EmptyString => EmptyString
  | String c rest => if is_whitespace c then trimStart rest else s
  end.

Fixpoint trimEnd (s : string) : string :=
  match s with
  | EmptyString => EmptyString
  | String c rest =>
      match trimEnd rest with
      | EmptyString => if is_whitespace c then EmptyString else String c EmptyString
      | kept => String c kept
      end
  end.

(** [s.trim()] *)
Definition trim (s : string) : string := trimEnd (trimStart s).

(** [s] is the empty string; a string is truthy when it is not. *)
Definition is_empty (s : string) : bool :=
  match s with EmptyString => true | _ => false end.

(** [s.startsWith(p)] *)
Fixpoint startsWith (s p : string) : bool :=
  match p, s with
  | EmptyString, _ => true
  | String a p', String b s' => Ascii.eqb a b && startsWith s' p'
  | String _ _, EmptyString => false
  end.

(** [s.includes(p)] *)
Fixpoint includes (s p : string) : bool :=
  startsWith s p ||
  match s with
  | EmptyString => false
  | String _ rest => includes rest p
  end.

Definition is_digit (c : ascii) : bool := (48 <=? code c) && (code c <=? 57).
Definition is_upper (c : ascii) : bool := (65 <=? code c) && (code c <=? 90).
Definition is_lower (c : ascii) : bool := (97 <=? code c) && (code c <=? 122).

Fixpoint all_chars (p : ascii -> bool) (s : string) : bool :=
  match s with
  | EmptyString => true
  | String c rest => p c && all_chars p rest
  end.

Fixpoint map_chars (f : ascii -> ascii) (s : string) : string :=
  match s with
  | EmptyString => EmptyString
  | String c rest => String (f c) (map_chars f rest)
  end.

Fixpoint filter_chars (p : ascii -> bool) (s : string) : string :=
  match s with
  | EmptyString => EmptyString
  | String c rest => if p c then String c (filter_chars p rest) else filter_chars p rest
  end.

(** [s.toLowerCase()]: A-Z, and the upper-case letters of U+00C0..U+00DE
    (all but the multiplication sign U+00D7), move up by 32. *)
Definition lower_char (c : ascii) : ascii :=
  let n := code c in
  if is_upper c || ((192 <=? n) && (n <=? 222) && negb (n =? 215))
  then ascii_of_N (Z.to_N (n + 32)) else c.

Definition toLowerCase (s : string) : string := map_chars lower_char s.

(** Decimal rendering of an integer, as a template literal renders an
    integral number below 10^21. *)
Definition Z_to_string (z : Z) : string :=
  match z with
  | Z0 => "0"
  | Zpos p => NilZero.string_of_uint (Pos.to_uint p)
  | Zneg p => String "-" (NilZero.string_of_uint (Pos.to_uint p))
  end.

Fixpoint zeros (k : nat) : string :=
  match k with
  | O => EmptyString
  | S k' => String "0" (zeros k')
  end.

(** [s.padStart(n, "0")] *)
Definition padStart0 (n : nat) (s : string) : string :=
  zeros (n - String.length s)%nat ++ s.

(** ** Numbers

    A number is NaN, an infinity, or a finite value given by the rational
    it denotes ([Finite q] with [q] in lowest terms; +0 and -0 are not
    told apart, which no operation used here observes). *)

Inductive number : Type :=
| NaN
| Infinity (negative : bool)
| Finite (q : Q).

Definition of_Z (z : Z) : number := Finite (z # 1).

Definition is_zero (n : number) : bool :=
  match n with
  | Finite q => Qnum q =? 0
  | _ => false
  end.

(** The value of a mantissa scaled by a power of [base]. *)
Definition scaled (mantissa base exponent : Z) : Q :=
  if 0 <=? exponent
  then inject_Z (mantissa * base ^ exponent)
  else mantissa # Z.to_pos (base ^ (- exponent)).

(** The integer nearest to [a / b], for [0 <= a] and [0 < b]; of two
    equally near, the even one. *)
Definition round_half_even (a b : Z) : Z :=
  let k := a / b in
  match 2 * (a mod b) ?= b with
  | Lt => k
  | Gt => k + 1
  | Eq => if Z.even k then k else k + 1
  end.

(** The [e] with [2^e <= n / d < 2^(e+1)], for [0 < n] and [0 < d]. *)
Definition floor_log2 (n d : Z) : Z :=
  let e := Z.log2 n - Z.log2 d in
  if (if 0 <=? e then d * 2 ^ e <=? n else d <=? n * 2 ^ (- e)) then e else e - 1.

(** The Number value for a rational: the nearest value of the binary64
    format, a tie going to the even significand.  The significand has 53
    bits (fewer below 2^-1022, where the spacing stays 2^-1074), and what
    rounds to 2^1024 or more is an infinity.  (For a literal of more than
    twenty significant digits the standard also allows the value of its
    first twenty; engines return the nearest value all the same.) *)
Definition nearest_double (q : Q) : number :=
  let n := Z.abs (Qnum q) in
  let d := Zpos (Qden q) in
  if n =? 0 then Finite (0 # 1)
  else
    let spacing := Z.max (floor_log2 n d - 52) (-1074) in
    let significand :=
      if 0 <=? spacing then round_half_even n (d * 2 ^ spacing)
      else round_half_even (n * 2 ^ (- spacing)) d in
    let magnitude := scaled significand 2 spacing in
    if Qle_bool (inject_Z (2 ^ 1024)) magnitude then Infinity (Qnum q <? 0)
    else Finite (Qred (if Qnum q <? 0 then Qopp magnitude else magnitude)).

(** *** StringToNumber *)

Definition digit_value (c : ascii) : option Z :=
  if is_digit c then Some (code c - 48)
  else if (97 <=? code c) && (code c <=? 102) then Some (code c - 87)
  else if (65 <=? code c) && (code c <=? 70) then Some (code c - 55)
  else None.

Definition is_digit_in (base : Z) (c : ascii) : bool :=
  match digit_value c with
  | Some d => d <? base
  | None => false
  end.

(** Splits off the longest prefix of digits of [base]:
    (value of the prefix, number of digits, rest). *)
Fixpoint take_digits (base : Z) (acc : Z) (count : Z) (s : string) : Z * Z * string :=
  match s with
  | String c rest =>
      if is_digit_in base c
      then take_digits base (acc * base + match digit_value c with Some d => d | None => 0 end)
             (count + 1) rest
      else (acc, count, s)
  | EmptyString => (acc, count, s)
  end.

(** ExponentPart, or nothing; [None] when what follows is neither. *)
Definition parse_exponent (s : string) : option Z :=
  match s with
  | EmptyString => Some 0
  | String c rest =>
      if Ascii.eqb c "e" || Ascii.eqb c "E" then
        let '(negative, digits) :=
          match rest with
          | String "-" r => (true, r)
          | String "+" r => (false, r)
          | _ => (false, rest)
          end in
        let '(e, count, tail) := take_digits 10 0 0 digits in
        if (0 <? count) && is_empty tail then Some (if negative then - e else e) else None
      else None
  end.

(** StrUnsignedDecimalLiteral without the [Infinity] alternative. *)
Definition parse_unsigned_decimal (s : string) : option Q :=
  let '(int_part, int_count, after_int) := take_digits 10 0 0 s in
  let '(mantissa, frac_count, after_frac) :=
    match after_int with
    | String "." r => take_digits 10 int_part 0 r
    | _ => (int_part, 0, after_int)
    end in
  if 0 <? int_count + frac_count then
    match parse_exponent after_frac with
    | Some e => Some (scaled mantissa 10 (e - frac_count))
    | None => None
    end
  else None.

(** NonDecimalIntegerLiteral: [0x], [0o] and [0b] prefixes, no sign. *)
Definition parse_non_decimal (s : string) : option Q :=
  match s with
  | String "0" (String p digits) =>
      let base :=
        if Ascii.eqb p "x" || Ascii.eqb p "X" then Some 16
        else if Ascii.eqb p "o" || Ascii.eqb p "O" then Some 8
        else if Ascii.eqb p "b" || Ascii.eqb p "B" then Some 2
        else None in
      match base with
      | Some b =>
          let '(v, count, tail) := take_digits b 0 0 digits in
          if (0 <? count) && is_empty tail then Some (inject_Z v) else None
      | None => None
      end
  | _ => None
  end.

Definition parse_signed_decimal (s : string) : number :=
  let '(negative, body) :=
    match s with
    | String "-" r => (true, r)
    | String "+" r => (false, r)
    | _ => (false, s)
    end in
  if String.eqb body "Infinity" then Infinity negative
  else match parse_unsigned_decimal body with
       | Some q => nearest_double (if negative then Qopp q else q)
       | None => NaN
       end.

(** [Number(s)] for a string [s]. *)
Definition string_to_number (s : string) : number :=
  let t := trim s in
  if is_empty t then of_Z 0
  else match parse_non_decimal t with
       | Some q => nearest_double q
       | None => parse_signed_decimal t
       end.

(** ** Values

    The values [JSON.parse] produces, and [undefined].  An object is the
    list of its own properties; the first binding of a key is the one the
    object holds. *)

#[warnings="-register-all"]
Inductive value : Type :=
| Undefined
| Null
| Bool (b : bool)
| Num (n : number)
| Str (s : string)
| Arr (elements : list value)
| Obj (fields : list (string * value)).

(** [typeof v] *)
Definition typeof (v : value) : string :=
  match v with
  | Undefined => "undefined"
  | Null | Arr _ | Obj _ => "object"
  | Bool _ => "boolean"
  | Num _ => "number"
  | Str _ => "string"
  end.

Definition number_truthy (n : number) : bool :=
  match n with
  | NaN => false
  | _ => negb (is_zero n)
  end.

(** ToBoolean: what [!v], [v && _] and [v || _] test. *)
Definition truthy (v : value) : bool :=
  match v with
  | Undefined | Null => false
  | Bool b => b
  | Num n => number_truthy n
  | Str s => negb (is_empty s)
  | Arr _ | Obj _ => true
  end.

Definition nullish (v : value) : bool :=
  match v with
  | Undefined | Null => true
  | _ => false
  end.

Fixpoint lookup (key : string) (fields : list (string * value)) : value :=
  match fields with
  | [] => Undefined
  | (k, v) :: rest => if String.eqb k key then v else lookup key rest
  end.

(** [v.key] on a receiver that is neither null nor undefined, for a [key]
    that no built-in prototype defines (every key the services read, but
    [length]): own properties of an object, [undefined] on anything else. *)
Definition member (v : value) (key : string) : value :=
  match v with
  | Obj fields => lookup key fields
  | _ => Undefined
  end.

Definition type_error_reading (v : value) (key : string) : exn :=
  ErrorExn ("Cannot read properties of "
            ++ (match v with Null => "null" | _ => "undefined" end)
            ++ " (reading '" ++ key ++ "')").

(** [v.key]: a TypeError on null and undefined. *)
Definition get (v : value) (key : string) : completion value :=
  if nullish v then Throw (type_error_reading v key) else Return (member v key).

(** [v?.key] *)
Definition get_opt (v : value) (key : string) : completion value :=
  if nullish v then Return Undefined else get v key.

(** [a || b]: [b] is evaluated only when [a] is falsy. *)
Definition or_else (a b : completion value) : completion value :=
  let! x := a in if truthy x then Return x else b.

Notation "a '|||' b" := (or_else a b) (at level 50, left associativity) : js_scope.

(** [Array.isArray(v)] *)
Definition isArray (v : value) : bool :=
  match v with Arr _ => true | _ => false end.

(** ** Conversion to a primitive

    [Number(v)] and a template literal first convert an object to a
    primitive, by its [valueOf] and [toString] methods.  An object that
    [JSON.parse] made inherits both from [Object.prototype], whose
    [valueOf] returns the object itself and whose [toString] returns
    "[object Object]"; but an own property of that name hides the inherited
    method, and, coming from JSON, is not callable.  With an own [toString]
    no method is left that returns a primitive, and the conversion throws a
    TypeError (an own [valueOf] alone does no harm: [toString] is then the
    method used).  An array is converted by joining the string forms of its
    elements, null and undefined giving the empty string, and so throws
    when one of its elements does. *)

Fixpoint has_own (key : string) (fields : list (string * value)) : bool :=
  match fields with
  | [] => false
  | (k, _) :: rest => String.eqb k key || has_own key rest
  end.

Fixpoint convertible (v : value) : bool :=
  match v with
  | Obj fields => negb (has_own "toString" fields)
  | Arr elements => forallb convertible elements
  | _ => true
  end.

Definition conversion_error : exn := ErrorExn "Cannot convert object to primitive value".

(** The number a value stands for once it has been converted to a
    primitive.  An object has become "[object Object]", which is no
    number.  An array has become the string its elements join to: the
    empty array gives 0, a one-element array the number of its element's
    string form (empty for null and undefined, and a number's string form
    reads back as that number), a longer array has a comma in it and gives
    NaN. *)
Fixpoint number_of (v : value) : number :=
  match v with
  | Undefined => NaN
  | Null => of_Z 0
  | Bool b => if b then of_Z 1 else of_Z 0
  | Num n => n
  | Str s => string_to_number s
  | Obj _ => NaN
  | Arr [] => of_Z 0
  | Arr [x] =>
      match x with
      | Undefined | Null => of_Z 0
      | Bool _ | Obj _ => NaN
      | Num n => n
      | Str s => string_to_number s
      | Arr _ => number_of x
      end
  | Arr (_ :: _ :: _) => NaN
  end.

(** ToNumber *)
Definition to_number (v : value) : completion number :=
  if convertible v then Return (number_of v) else Throw conversion_error.

(** [Number(e)] for an expression [e] that may throw *)
Definition Number (e : completion value) : completion value :=
  let! v := e in
  let! n := to_number v in
  Return (Num n).

(** ** Dates

    A time value is a number of milliseconds since the epoch. *)

Definition ms_per_day : Z := 24 * 60 * 60 * 1000.

(** Year, month and day of a day number (days since 1970-01-01) in the
    proleptic Gregorian calendar. *)
Definition civil_from_days (days : Z) : Z * Z * Z :=
  let z := days + 719468 in
  let era := z / 146097 in
  let doe := z - era * 146097 in
  let yoe := (doe - doe / 1460 + doe / 36524 - doe / 146096) / 365 in
  let doy := doe - (365 * yoe + yoe / 4 - yoe / 100) in
  let mp := (5 * doy + 2) / 153 in
  let d := doy - (153 * mp + 2) / 5 + 1 in
  let m := if mp <? 10 then mp + 3 else mp - 9 in
  let y := yoe + era * 400 + (if m <=? 2 then 1 else 0) in
  (y, m, d).

Definition pad (width : nat) (z : Z) : string := padStart0 width (Z_to_string z).

Definition iso_year (y : Z) : string :=
  if (0 <=? y) && (y <=? 9999) then pad 4 y
  else if y <? 0 then "-" ++ pad 6 (- y)
  else "+" ++ pad 6 y.

(** [new Date(t).toISOString().split("T")[0]] *)
Definition iso_date (t : Z) : string :=
  let '(y, m, d) := civil_from_days (t / ms_per_day) in
  iso_year y ++ "-" ++ pad 2 m ++ "-" ++ pad 2 d.

(** [new Date(t).toISOString()] *)
Definition toISOString (t : Z) : string :=
  let ms := t mod ms_per_day in
  iso_date t ++ "T" ++ pad 2 (ms / 3600000) ++ ":" ++ pad 2 (ms / 60000 mod 60)
    ++ ":" ++ pad 2 (ms / 1000 mod 60) ++ "." ++ pad 3 (ms mod 1000) ++ "Z".

(** ** The network and the other services of the runtime *)

Record Request : Type := {
  url : string;
  method : string;
  body : option value       (* the value given to JSON.stringify *)
}.

Record Response : Type := {
  status : Z;
  statusText : string;
  json : completion value;  (* await response.json() *)
  text : completion string  (* await response.text() *)
}.

(** [response.ok] *)
Definition ok (response : Response) : bool :=
  (200 <=? status response) && (status response <=? 299).

Record Runtime : Type := {
  API_BASE_URL : option string;             (* process.env.NEXT_PUBLIC_API_BASE_URL *)
  fetch : Request -> completion Response;   (* await fetch(url, init) *)
  JSON_parse : string -> completion value;  (* JSON.parse *)
  ToString : value -> string;               (* the string form of a number, or of an
                                               array, whose elements may be numbers *)
  toFixed : number -> Z -> string           (* Number.prototype.toFixed *)
}.

(** [!API_BASE_URL] is false: the variable is set and not empty. *)
Definition base_url (rt : Runtime) : option string :=
  match API_BASE_URL rt with
  | Some u => if is_empty u then None else Some u
  | None => None
  end.

(** ToString, as a template literal applies it to a substitution. *)
Definition to_string (rt : Runtime) (v : value) : completion string :=
  match v with
  | Undefined => Return "undefined"
  | Null => Return "null"
  | Bool b => Return (if b then "true" else "false")
  | Str s => Return s
  | Num _ => Return (ToString rt v)
  | Obj _ => if convertible v then Return "[object Object]" else Throw conversion_error
  | Arr _ => if convertible v then Return (ToString rt v) else Throw conversion_error
  end.

(** [try { c } catch { handler }] *)
Definition catch {A} (c : completion A) (handler : exn -> A) : A :=
  match c with
  | Return a => a
  | Throw e => handler e
  end.

(** What the services make of an answer that is not ok, the same in each
    of them: [errorMessage] after the inner [try], which is
    [errorData.message || errorData.error || errorMessage], the inner catch
    falling back to [response.statusText || errorMessage]. *)
Definition server_error_message (response : Response) : value :=
  let errorMessage := "Server responded with " ++ Z_to_string (status response) in
  catch
    (let! errorData := json response in
     get errorData "message" ||| get errorData "error" ||| Return (Str errorMessage))
    (fun _ => Str (if is_empty (statusText response) then errorMessage
                   else statusText response)).

(** The TypeError of a method call on a value that has no such method. *)
Definition not_a_function (expression : string) : exn :=
  ErrorExn (expression ++ " is not a function").

End JS.

(* ===================================================================== *)
(** * src/lib/ai-invoice-service.ts *)
(* ===================================================================== *)

Module AIInvoiceService.
Import JS.
Local Open Scope js_scope.

(** What the clock and the random generator return at the places where
    the normaliser (or the fallback constructor) reads them. *)
Record Env : Type := {
  now_fallback_id : Z;      (* Date.now() in generateFallbackInvoiceId *)
  random_fallback_id : Z;   (* Math.floor(Math.random() * 1000) there *)
  now_invoice_date : Z;     (* new Date() for invoice_date *)
  now_due_date : Z          (* Date.now() for due_date *)
}.

Definition generateFallbackInvoiceId (env : Env) (poNumber : string) : string :=
  let timestamp := now_fallback_id env in
  let random := padStart0 3 (Z_to_string (random_fallback_id env)) in
  "INV-" ++ poNumber ++ "-" ++ Z_to_string timestamp ++ "-" ++ random.

Definition possibleWrappers : list string := ["data"; "invoice"; "result"; "response"].

(** The loop over [possibleWrappers]: the first wrapper key holding a
    truthy value of type object replaces the data, else the response is
    used as it is. *)
Fixpoint unwrap (rawResponse : value) (wrappers : list string) : completion value :=
  match wrappers with
  | [] => Return rawResponse
  | wrapper :: rest =>
      let! inner := get rawResponse wrapper in
      if truthy inner && String.eqb (typeof inner) "object"
      then Return inner
      else unwrap rawResponse rest
  end.

(** [!invoiceId || typeof invoiceId !== "string" || invoiceId.trim()] is empty *)
Definition identifier_invalid (invoiceId : value) : bool :=
  negb (truthy invoiceId)
  || negb (String.eqb (typeof invoiceId) "string")
  || match invoiceId with
     | Str s => is_empty (trim s)
     | _ => false
     end.

(** The string held by a value of type string. *)
Definition string_of (v : value) : string :=
  match v with Str s => s | _ => EmptyString end.

(** The callback of [actualData.items.map]. *)
Definition normalize_item (item : value) (index : Z) : completion value :=
  let! description :=
    get item "description" ||| Return (Str ("Item " ++ Z_to_string (index + 1))) in
  let! qty := Number (get item "qty") ||| Return (Num (of_Z 1)) in
  let! unit := get item "unit" ||| Return (Str "Each") in
  let! unit_price :=
    Number (get item "unit_price") ||| Number (get item "unitPrice") ||| Return (Num (of_Z 0)) in
  let! total := Number (get item "total") ||| Return (Num (of_Z 0)) in
  Return (Obj [("description", description); ("qty", qty); ("unit", unit);
               ("unit_price", unit_price); ("total", total)]).

(** [actualData.outer?.key] *)
Definition get_in (actualData : value) (outer key : string) : completion value :=
  let! o := get actualData outer in get_opt o key.

Definition thirty_days : Z := 30 * 24 * 60 * 60 * 1000.

(** [validateAndNormalizeInvoiceResponse(rawResponse, poNumber)]: [None] is
    the [null] result.  The [requiredFields] filter only logs and is left
    out. *)
Definition validateAndNormalizeInvoiceResponse
    (env : Env) (rawResponse : value) (poNumber : option string)
  : completion (option value) :=
  if negb (truthy rawResponse) || negb (String.eqb (typeof rawResponse) "object")
  then Return None
  else
    let! actualData := unwrap rawResponse possibleWrappers in
    let! invoiceId :=
      get actualData "invoice_id" ||| get actualData "invoiceId"
        ||| get actualData "id" ||| get actualData "invoice_number" in
    let resolved :=
      if identifier_invalid invoiceId then
        match poNumber with
        | Some po => if is_empty po then None else Some (generateFallbackInvoiceId env po)
        | None => None
        end
      else Some (string_of invoiceId) in
    match resolved with
    | None => Return None
    | Some invoiceId =>
        let! invoice_date :=
          get actualData "invoice_date" ||| get actualData "invoiceDate"
            ||| Return (Str (iso_date (now_invoice_date env))) in
        let! due_date :=
          get actualData "due_date" ||| get actualData "dueDate"
            ||| Return (Str (iso_date (now_due_date env + thirty_days))) in
        let! payment_terms :=
          get actualData "payment_terms" ||| get actualData "paymentTerms"
            ||| Return (Str "Net 30") in
        let! shipping_method :=
          get actualData "shipping_method" ||| get actualData "shippingMethod"
            ||| Return (Str "Standard") in
        let! bill_company :=
          get_in actualData "bill_to" "company" ||| get_in actualData "billTo" "company"
            ||| Return (Str "Unknown Company") in
        let! bill_contact :=
          get_in actualData "bill_to" "contact" ||| get_in actualData "billTo" "contact"
            ||| Return (Str "Unknown Contact") in
        let! bill_address :=
          get_in actualData "bill_to" "address" ||| get_in actualData "billTo" "address"
            ||| Return (Str "Unknown Address") in
        let! bill_phone :=
          get_in actualData "bill_to" "phone" ||| get_in actualData "billTo" "phone"
            ||| Return (Str EmptyString) in
        let! bill_email :=
          get_in actualData "bill_to" "email" ||| get_in actualData "billTo" "email"
            ||| Return (Str EmptyString) in
        let! vendor_company :=
          get_in actualData "vendor" "company" ||| Return (Str "Unknown Vendor") in
        let! vendor_contact :=
          get_in actualData "vendor" "contact" ||| Return (Str "Unknown Contact") in
        let! vendor_address :=
          get_in actualData "vendor" "address" ||| Return (Str "Unknown Address") in
        let! vendor_phone := get_in actualData "vendor" "phone" ||| Return (Str EmptyString) in
        let! vendor_email := get_in actualData "vendor" "email" ||| Return (Str EmptyString) in
        let! upstream_items := get actualData "items" in
        let! items :=
          match upstream_items with
          | Arr elements => map_indexed normalize_item 0 elements
          | _ => Return []
          end in
        let! subtotal := Number (get_in actualData "summary" "subtotal") ||| Return (Num (of_Z 0)) in
        let! discount := Number (get_in actualData "summary" "discount") ||| Return (Num (of_Z 0)) in
        let! freight := Number (get_in actualData "summary" "freight") ||| Return (Num (of_Z 0)) in
        let! tax := Number (get_in actualData "summary" "tax") ||| Return (Num (of_Z 0)) in
        let! total := Number (get_in actualData "summary" "total") ||| Return (Num (of_Z 0)) in
        let! notes := get actualData "notes" ||| Return (Str EmptyString) in
        let! payment_status :=
          get actualData "payment_status" ||| get actualData "paymentStatus"
            ||| Return (Str "Pending") in
        Return (Some (Obj [
          ("invoice_id", Str (trim invoiceId));
          ("invoice_date", invoice_date);
          ("due_date", due_date);
          ("payment_terms", payment_terms);
          ("shipping_method", shipping_method);
          ("bill_to", Obj [("company", bill_company); ("contact", bill_contact);
                           ("address", bill_address); ("phone", bill_phone);
                           ("email", bill_email)]);
          ("vendor", Obj [("company", vendor_company); ("contact", vendor_contact);
                          ("address", vendor_address); ("phone", vendor_phone);
                          ("email", vendor_email)]);
          ("items", Arr items);
          ("summary", Obj [("subtotal", subtotal); ("discount", discount);
                           ("freight", freight); ("tax", tax); ("total", total)]);
          ("notes", notes);
          ("payment_status", payment_status)]))
    end.

(** *** The world the orchestrator runs in *)

Record World : Type := {
  rt : Runtime;
  now_created_at : Z;    (* clock readings in saveInvoiceToDatabase *)
  now_updated_at : Z;
  env_existing : Env;    (* readings while normalising the stored invoice *)
  env_generated : Env;   (* readings while normalising the generated one *)
  env_fallback : Env     (* readings while building the fallback invoice *)
}.

Definition getExistingInvoiceFromDatabase (w : World) (poNumber : string) : option value :=
  match base_url (rt w) with
  | None => None
  | Some base =>
      catch
        (let! response :=
           fetch (rt w) {| url := base ++ "/invoices/by-po/" ++ poNumber;
                      method := "GET"; body := None |} in
         if status response =? 404 then Return None
         else if negb (ok response) then Return None
         else
           let! existingInvoice := json response in
           validateAndNormalizeInvoiceResponse (env_existing w) existingInvoice (Some poNumber))
        (fun _ => None)
  end.

(** [{...invoice, po_number, created_at, updated_at}] *)
Definition stamped (w : World) (invoice : value) (poNumber : string) : value :=
  Obj (("po_number", Str poNumber)
       :: ("created_at", Str (toISOString (now_created_at w)))
       :: ("updated_at", Str (toISOString (now_updated_at w)))
       :: match invoice with Obj fields => fields | _ => [] end).

Definition saveInvoiceToDatabase (w : World) (invoice : value) (poNumber : string) : bool :=
  match base_url (rt w) with
  | None => false
  | Some base =>
      catch
        (let! response :=
           fetch (rt w) {| url := base ++ "/invoices"; method := "POST";
                      body := Some (stamped w invoice poNumber) |} in
         Return (ok response))
        (fun _ => false)
  end.

Record InvoiceGenerationResult : Type := {
  success : bool;
  invoice : option value;
  error : option string;
  rawResponse : option value;
  source : option string
}.

Definition failure (message : string) (raw : option value) : InvoiceGenerationResult :=
  {| success := false; invoice := None; error := Some message;
     rawResponse := raw; source := None |}.

Definition succeeded (inv : value) (src : string) : InvoiceGenerationResult :=
  {| success := true; invoice := Some inv; error := None;
     rawResponse := None; source := Some src |}.

(** The body of the [try] block of [generateAIInvoice]. *)
Definition generate_via_api (w : World) (base trimmedPoNumber : string)
  : completion InvoiceGenerationResult :=
  let payload := Obj [("po_number", Str trimmedPoNumber)] in
  let! response :=
    fetch (rt w) {| url := base ++ "/ai/invoice"; method := "POST"; body := Some payload |} in
  if negb (ok response) then
    let! errorMessage := to_string (rt w) (server_error_message response) in
    Return (failure ("Failed to generate invoice: " ++ errorMessage) None)
  else
    let! responseText := text response in
    match JSON_parse (rt w) responseText with
    | Throw _ => Return (failure "Invalid JSON response from server" (Some (Str responseText)))
    | Return rawResponseData =>
        let! normalizedInvoice :=
          validateAndNormalizeInvoiceResponse (env_generated w) rawResponseData
            (Some trimmedPoNumber) in
        match normalizedInvoice with
        | None =>
            Return (failure
              "Invalid response structure from API. The response may be missing required fields."
              (Some rawResponseData))
        | Some normalized =>
            let _ := saveInvoiceToDatabase w normalized trimmedPoNumber in
            Return (succeeded normalized "api")
        end
    end.

(** The invoice built in the [catch] block. *)
Definition fallbackInvoice (env : Env) (trimmedPoNumber : string) : value :=
  Obj [
    ("invoice_id", Str (generateFallbackInvoiceId env trimmedPoNumber));
    ("invoice_date", Str (iso_date (now_invoice_date env)));
    ("due_date", Str (iso_date (now_due_date env + thirty_days)));
    ("payment_terms", Str "Net 30");
    ("shipping_method", Str "Standard");
    ("bill_to", Obj [("company", Str "Unknown Company"); ("contact", Str "Unknown Contact");
                     ("address", Str "Unknown Address"); ("phone", Str EmptyString);
                     ("email", Str EmptyString)]);
    ("vendor", Obj [("company", Str "Unknown Vendor"); ("contact", Str "Unknown Contact");
                    ("address", Str "Unknown Address"); ("phone", Str EmptyString);
                    ("email", Str EmptyString)]);
    ("items", Arr []);
    ("summary", Obj [("subtotal", Num (of_Z 0)); ("discount", Num (of_Z 0));
                     ("freight", Num (of_Z 0)); ("tax", Num (of_Z 0));
                     ("total", Num (of_Z 0))]);
    ("notes", Str ("Fallback invoice generated for PO " ++ trimmedPoNumber
                   ++ " due to API unavailability. Please update with correct information."));
    ("payment_status", Str "Pending")].

(** [error instanceof Error && error.message.includes("fetch")] *)
Definition is_fetch_failure (error : exn) : bool :=
  match error with
  | ErrorExn message => includes message "fetch"
  | ThrownValue => false
  end.

(** The [catch] block of [generateAIInvoice].  Building the fallback
    invoice throws nothing, so its own [try] always returns. *)
Definition on_generation_error (w : World) (trimmedPoNumber : string) (error : exn)
  : InvoiceGenerationResult :=
  if is_fetch_failure error
  then succeeded (fallbackInvoice (env_fallback w) trimmedPoNumber) "generated"
  else failure
         match error with
         | ErrorExn message => message
         | ThrownValue => "An unexpected error occurred during invoice generation"
         end None.

Definition generateAIInvoice (w : World) (poNumber : string) : InvoiceGenerationResult :=
  if is_empty poNumber || is_empty (trim poNumber) then
    failure "Purchase Order number is required" None
  else
    let trimmedPoNumber := trim poNumber in
    match getExistingInvoiceFromDatabase w trimmedPoNumber with
    | Some existingInvoice => succeeded existingInvoice "database"
    | None =>
        match base_url (rt w) with
        | None => failure "API configuration error: Base URL not set" None
        | Some base =>
            catch (generate_via_api w base trimmedPoNumber)
                  (on_generation_error w trimmedPoNumber)
        end
    end.

(** *** Identifier format *)

(** The class [[A-Z0-9\-_]] under the [i] flag *)
Definition id_char (c : ascii) : bool :=
  is_upper c || is_lower c || is_digit c || Ascii.eqb c "-" || Ascii.eqb c "_".

(** [/^[A-Z0-9\-_]+$/i.test(s)] *)
Definition invoiceIdPattern_test (s : string) : bool :=
  negb (is_empty s) && all_chars id_char s.

Definition validateInvoiceId (invoiceId : string) : bool :=
  if is_empty invoiceId then false
  else
    let trimmed := trim invoiceId in
    if Nat.eqb (String.length trimmed) 0 then false
    else invoiceIdPattern_test trimmed.

End AIInvoiceService.

(* ===================================================================== *)
(** * src/lib/send-reminder-service.ts: the invoice dispatch service *)
(* ===================================================================== *)

Module SendInvoiceService.
Import JS.
Local Open Scope js_scope.

Record SendInvoiceResult : Type := {
  success : bool;
  message : option value;
  error : option value;
  details : option value
}.

Definition failed (e : value) (d : option value) : SendInvoiceResult :=
  {| success := false; message := None; error := Some e; details := d |}.

(** [v.trim()] where [v] is known to be truthy: a TypeError unless [v] is
    a string. *)
Definition trim_of (expression : string) (v : value) : completion string :=
  match v with
  | Str s => Return (trim s)
  | _ => Throw (not_a_function (expression ++ ".trim"))
  end.

(** [v.length] *)
Definition length_of (v : value) : completion value :=
  match v with
  | Arr elements => Return (Num (of_Z (Z.of_nat (List.length elements))))
  | Str s => Return (Num (of_Z (Z.of_nat (String.length s))))
  | _ => get v "length"
  end.

(** [v === 0] *)
Definition is_number_zero (v : value) : bool :=
  match v with
  | Num n => is_zero n
  | _ => false
  end.

(** *** The regular expression [/^[^\s@]+@[^\s@]+\.[^\s@]+$/] *)

(** The class [[^\s@]] *)
Definition plain (c : ascii) : bool := negb (is_whitespace c) && negb (Ascii.eqb c "@").

(** Cuts a string at its first [@]. *)
Fixpoint cut_at_sign (s : string) : option (string * string) :=
  match s with
  | EmptyString => None
  | String c rest =>
      if Ascii.eqb c "@" then Some (EmptyString, rest)
      else match cut_at_sign rest with
           | Some (before, after) => Some (String c before, after)
           | None => None
           end
  end.

(** Some dot of the string has at least one character after it. *)
Fixpoint dot_before_end (s : string) : bool :=
  match s with
  | EmptyString => false
  | String c rest => (Ascii.eqb c "." && negb (is_empty rest)) || dot_before_end rest
  end.

(** [[^\s@]+\.[^\s@]+] against a whole string: plain characters only, with a
    dot that is neither the first nor the last of them. *)
Definition domain_matches (d : string) : bool :=
  all_chars plain d &&
  match d with
  | EmptyString => false
  | String _ rest => dot_before_end rest
  end.

(** [emailRegex.test(s)] *)
Definition emailRegex_test (s : string) : bool :=
  match cut_at_sign s with
  | Some (local, domain) =>
      negb (is_empty local) && all_chars plain local && domain_matches domain
  | None => false
  end.

(** *** The service *)

Definition validateInvoiceData (invoiceData : value) (recipient : string)
  : completion (option string) :=
  if is_empty recipient || is_empty (trim recipient) then
    Return (Some "Recipient email address is required")
  else if negb (emailRegex_test (trim recipient)) then
    Return (Some "Please provide a valid email address")
  else
    let! invoice_id := get invoiceData "invoice_id" in
    let! id_missing :=
      if negb (truthy invoice_id) then Return true
      else let! trimmed := trim_of "invoiceData.invoice_id" invoice_id in
           Return (is_empty trimmed) in
    if id_missing then Return (Some "Invoice ID is missing")
    else
      let! summary := get invoiceData "summary" in
      let! total_invalid :=
        if negb (truthy summary) then Return true
        else let! total := get summary "total" in
             Return (negb (String.eqb (typeof total) "number")) in
      if total_invalid then Return (Some "Invoice total is invalid")
      else
        let! items := get invoiceData "items" in
        let! items_empty :=
          if negb (truthy items) then Return true
          else let! n := length_of items in Return (is_number_zero n) in
        if items_empty then Return (Some "Invoice must contain at least one item")
        else Return None.

(** [companyName.toLowerCase()] with every character outside [a-z0-9]
    removed *)
Definition sanitize (companyName : string) : string :=
  filter_chars (fun c => is_lower c || is_digit c) (toLowerCase companyName).

Definition getDefaultRecipient (invoiceData : value) : completion string :=
  let! bill_to := get invoiceData "bill_to" in
  let! bill_email := get bill_to "email" in
  let! bill_trimmed :=
    if truthy bill_email then trim_of "invoiceData.bill_to.email" bill_email
    else Return EmptyString in
  if truthy bill_email && negb (is_empty bill_trimmed) then Return bill_trimmed
  else
    let! vendor := get invoiceData "vendor" in
    let! vendor_email := get vendor "email" in
    let! vendor_trimmed :=
      if truthy vendor_email then trim_of "invoiceData.vendor.email" vendor_email
      else Return EmptyString in
    if truthy vendor_email && negb (is_empty vendor_trimmed) then Return vendor_trimmed
    else
      let! companyName :=
        get bill_to "company" ||| get vendor "company" ||| Return (Str "company") in
      match companyName with
      | Str name => Return (sanitize name ++ "@example.com")
      | _ => Throw (not_a_function "companyName.toLowerCase")
      end.

(** The template literal of [mapInvoiceToPayload] for one item. *)
Definition item_line (rt : Runtime) (item : value) (index : Z) : completion value :=
  let! description := let! v := get item "description" in to_string rt v in
  let! qty := let! v := get item "qty" in to_string rt v in
  let! unit_price := get item "unit_price" in
  match unit_price with
  | Num n =>
      Return (Str (description ++ " (Qty: " ++ qty
                   ++ ", Unit Price: $" ++ toFixed rt n 2 ++ ")"))
  | Undefined | Null => Throw (type_error_reading unit_price "toFixed")
  | _ => Throw (not_a_function "item.unit_price.toFixed")
  end.

Definition mapInvoiceToPayload
    (rt : Runtime) (invoiceData : value) (poNumber recipient : string) : completion value :=
  let! bill_to := get invoiceData "bill_to" in
  let! bill_company := get bill_to "company" ||| Return (Str "Unknown Company") in
  let! vendor := get invoiceData "vendor" in
  let! vendor_company := get vendor "company" ||| Return (Str "Unknown Vendor") in
  let! summary := get invoiceData "summary" in
  let! total := get summary "total" in
  let! items := get invoiceData "items" in
  let! lines :=
    match items with
    | Arr elements => map_indexed (item_line rt) 0 elements
    | Undefined | Null => Throw (type_error_reading items "map")
    | _ => Throw (not_a_function "invoiceData.items.map")
    end in
  Return (Obj [("recipient", Str (trim recipient));
               ("invoice", Obj [("po_number", Str poNumber); ("bill_to", bill_company);
                                ("vendor", vendor_company); ("total", total);
                                ("items", Arr lines)])]).

(** The body of the [try] block of [sendInvoice]. *)
Definition post_invoice
    (rt : Runtime) (base : string) (invoiceData : value) (poNumber finalRecipient : string)
  : completion SendInvoiceResult :=
  let! payload := mapInvoiceToPayload rt invoiceData poNumber finalRecipient in
  let! response :=
    fetch rt {| url := base ++ "/ai/send-invoice"; method := "POST"; body := Some payload |} in
  if negb (ok response) then
    let! errorMessage := to_string rt (server_error_message response) in
    Return (failed (Str ("Failed to send invoice: " ++ errorMessage))
                   (Some (Obj [("status", Num (of_Z (status response)))])))
  else
    let! responseData := json response in
    let! succeeded := get responseData "success" in
    if truthy succeeded then
      let! m := get responseData "message" ||| Return (Str "Invoice sent successfully") in
      Return {| success := true; message := Some m; error := None; details := None |}
    else
      let! m :=
        get responseData "message"
          ||| Return (Str "Unknown error occurred while sending invoice") in
      Return (failed m None).

(** The [catch] block of [sendInvoice]. *)
Definition on_send_error (e : exn) : SendInvoiceResult :=
  match e with
  | ErrorExn m =>
      if includes m "fetch" then
        failed (Str "Network error: Unable to connect to the server. Please check your connection and try again.") None
      else failed (Str ("Error sending invoice: " ++ m)) None
  | ThrownValue => failed (Str "An unexpected error occurred while sending the invoice") None
  end.

(** [sendInvoice(invoiceData, poNumber, recipient?)]; [None] is the omitted
    argument.  A [Throw] is a rejection of the returned promise. *)
Definition sendInvoice
    (rt : Runtime) (invoiceData : value) (poNumber : string) (recipient : option string)
  : completion SendInvoiceResult :=
  match base_url rt with
  | None => Return (failed (Str "API configuration error: Base URL not set") None)
  | Some base =>
      let! finalRecipient :=
        match recipient with
        | Some r => if is_empty r then getDefaultRecipient invoiceData else Return r
        | None => getDefaultRecipient invoiceData
        end in
      let! validationError := validateInvoiceData invoiceData finalRecipient in
      match validationError with
      | Some problem =>
          if is_empty problem
          then Return (catch (post_invoice rt base invoiceData poNumber finalRecipient)
                             on_send_error)
          else Return (failed (Str problem) None)
      | None =>
          Return (catch (post_invoice rt base invoiceData poNumber finalRecipient)
                        on_send_error)
      end
  end.

End SendInvoiceService.

(* ===================================================================== *)
(** * src/lib/invoice-error-handler.ts *)
(* ===================================================================== *)

Module InvoiceErrorHandler.
Import JS.

Record InvoiceError : Type := {
  code : string;
  message : string;
  details : value;
  timestamp : string;
  poNumber : option string
}.

(** [Partial<InvoiceError>]: every field may be missing. *)
Record PartialInvoiceError : Type := {
  given_code : option string;
  given_message : option string;
  given_details : value;
  given_timestamp : option string;
  given_poNumber : option string
}.

(** [s || fallback] for an optional string *)
Definition string_or (s : option string) (fallback : string) : string :=
  match s with
  | Some t => if is_empty t then fallback else t
  | None => fallback
  end.

(** [xs.slice(start)] *)
Definition slice {A} (start : Z) (xs : list A) : list A :=
  let len := Z.of_nat (List.length xs) in
  let k := if start <? 0 then Z.max (len + start) 0 else Z.min start len in
  skipn (Z.to_nat k) xs.

Definition fullError (now : Z) (error : PartialInvoiceError) : InvoiceError :=
  {| code := string_or (given_code error) "UNKNOWN_ERROR";
     message := string_or (given_message error) "An unknown error occurred";
     details := given_details error;
     timestamp := toISOString now;
     poNumber := given_poNumber error |}.

(** [logError(error)] on the buffer [errors], the clock reading [now];
    the result is the buffer afterwards. *)
Definition logError (errors : list InvoiceError) (now : Z) (error : PartialInvoiceError)
  : list InvoiceError :=
  let errors := (errors ++ [fullError now error])%list in
  if (50 <? Z.of_nat (List.length errors)) then slice (-50) errors else errors.

(** A run of [logError] calls, each with its clock reading. *)
Fixpoint logErrors (errors : list InvoiceError) (calls : list (Z * PartialInvoiceError))
  : list InvoiceError :=
  match calls with
  | [] => errors
  | (now, error) :: rest => logErrors (logError errors now error) rest
  end.

(** [error.poNumber === poNumber] for a [poNumber] that is a string *)
Definition for_po (po : string) (error : InvoiceError) : bool :=
  match poNumber error with
  | Some p => String.eqb p po
  | None => false
  end.

(** [getErrors(poNumber?)]: an empty string is falsy, like the omitted
    argument; without a filter the result is a copy of the buffer. *)
Definition getErrors (errors : list InvoiceError) (filter_po : option string)
  : list InvoiceError :=
  match filter_po with
  | Some po => if is_empty po then errors else List.filter (for_po po) errors
  | None => errors
  end.

(** [clearErrors(poNumber?)]; the result is the buffer afterwards. *)
Definition clearErrors (errors : list InvoiceError) (filter_po : option string)
  : list InvoiceError :=
  match filter_po with
  | Some po =>
      if is_empty po then [] else List.filter (fun e => negb (for_po po e)) errors
  | None => []
  end.





End InvoiceErrorHandler.

(* ===================================================================== *)
(** * src/lib/reminder-activity-tracker.ts *)
(* ===================================================================== *)

Module ReminderActivityTracker.
Import JS.
Local Open Scope js_scope.

Inductive Status : Type := sent | failed.

(** The record; [timestamp] is the time value whose ISO string the stored
    JSON holds ([Date] reads the string of [toISOString] back as the same
    time value). *)
Record ReminderActivity : Type := {
  timestamp : Z;
  status : Status;
  message : string
}.

(** A stored string, by what the tracker can observe of it. *)
Inductive stored : Type :=
| Activity (activity : ReminderActivity)   (* JSON.stringify of a record *)
| Timeless       (* JSON whose timestamp is no date: getTime() is NaN *)
| Unreadable     (* JSON.parse, or reading .timestamp of the result, throws *)
| Blank.         (* the empty string *)

(** [localStorage]: the items in the order [key(i)] lists them, and
    whether [setItem] is refused for lack of space. *)
Record Storage : Type := {
  items : list (string * stored);
  quota_exceeded : bool
}.

Fixpoint find_item (key : string) (l : list (string * stored)) : option stored :=
  match l with
  | [] => None
  | (k, v) :: rest => if String.eqb k key then Some v else find_item key rest
  end.

Definition getItem (st : Storage) (key : string) : option stored := find_item key (items st).

Fixpoint put_item (key : string) (v : stored) (l : list (string * stored))
  : list (string * stored) :=
  match l with
  | [] => [(key, v)]
  | (k, old) :: rest =>
      if String.eqb k key then (k, v) :: rest else (k, old) :: put_item key v rest
  end.

Definition setItem (st : Storage) (key : string) (v : stored) : completion Storage :=
  if quota_exceeded st then Throw (ErrorExn "The quota has been exceeded.")
  else Return {| items := put_item key v (items st); quota_exceeded := quota_exceeded st |}.

(** [if (stored)] *)
Definition present (v : stored) : bool :=
  match v with Blank => false | _ => true end.

(** [new Date(JSON.parse(stored).timestamp).getTime()]; [None] is NaN. *)
Definition time_of (v : stored) : completion (option Z) :=
  match v with
  | Activity a => Return (Some (timestamp a))
  | Timeless => Return None
  | Unreadable => Throw (ErrorExn "Unexpected token in JSON")
  | Blank => Throw (ErrorExn "Unexpected end of JSON input")
  end.

Definition one_hour : Z := 60 * 60 * 1000.

Definition activity_key (poNumber : string) : string := "reminder_activity_" ++ poNumber.

(** The loop of [cleanupOldReminderActivity] from the item at the current
    index on.  Removing the item at index [i] moves the next one to [i], and
    the loop goes on at [i + 1]: the item after a removed one is not
    looked at.  An exception ends the loop and leaves the rest as it is. *)
Fixpoint sweep (oneHourAgo : Z) (remaining : list (string * stored))
  : list (string * stored) :=
  match remaining with
  | [] => []
  | (key, v) :: rest =>
      if negb (is_empty key) && startsWith key "reminder_activity_" && present v then
        match time_of v with
        | Throw _ => remaining
        | Return t =>
            if match t with Some ms => ms <? oneHourAgo | None => false end
            then match rest with
                 | [] => []
                 | next :: rest' => next :: sweep oneHourAgo rest'
                 end
            else (key, v) :: sweep oneHourAgo rest
        end
      else (key, v) :: sweep oneHourAgo rest
  end.

Definition cleanupOldReminderActivity (st : Storage) (now : Z) : Storage :=
  {| items := sweep (now - one_hour) (items st); quota_exceeded := quota_exceeded st |}.

(** [trackReminderActivity]: [now] is the clock reading of the record,
    [now_cleanup] the later one of the sweep. *)
Definition trackReminderActivity
    (st : Storage) (now now_cleanup : Z) (poNumber : string) (s : Status) (m : string)
  : Storage :=
  let activity := {| timestamp := now; status := s; message := m |} in
  catch
    (let! st' := setItem st (activity_key poNumber) (Activity activity) in
     Return (cleanupOldReminderActivity st' now_cleanup))
    (fun _ => st).

Definition getRecentReminderActivity (st : Storage) (now : Z) (poNumber : string)
  : option ReminderActivity :=
  match getItem st (activity_key poNumber) with
  | Some v =>
      if present v then
        catch
          (let! t := time_of v in
           match v, t with
           | Activity activity, Some ms =>
               if now - one_hour <? ms then Return (Some activity) else Return None
           | _, _ => Return None
           end)
          (fun _ => None)
      else None
  | None => None
  end.

End ReminderActivityTracker.

(* ===================================================================== *)
(** * Vocabulary of the specification *)
(* ===================================================================== *)

Module Spec.
Import JS.

(** Neither undefined nor null. *)
Definition defined (v : value) : bool := negb (nullish v).

Definition is_string (v : value) : bool := String.eqb (typeof v) "string".
Definition is_number (v : value) : bool := String.eqb (typeof v) "number".

(** A non-null object, as [typeof] sees it (arrays included). *)
Definition is_object (v : value) : bool := truthy v && String.eqb (typeof v) "object".

Definition nonempty_string (v : value) : bool :=
  match v with Str s => negb (is_empty s) | _ => false end.

(** [a || b] on values already computed *)
Definition either (a b : value) : value := if truthy a then a else b.

(** [v?.key] on a value already computed *)
Definition member_opt (v : value) (key : string) : value :=
  if nullish v then Undefined else member v key.

(** The data the normaliser works on: the value under the first wrapper
    key that holds a non-null object, else the response itself. *)
Fixpoint unwrapped (rawResponse : value) (wrappers : list string) : value :=
  match wrappers with
  | [] => rawResponse
  | wrapper :: rest =>
      if is_object (member rawResponse wrapper) then member rawResponse wrapper
      else unwrapped rawResponse rest
  end.

Definition actual_data (rawResponse : value) : value :=
  unwrapped rawResponse AIInvoiceService.possibleWrappers.

Definition identifier_keys : list string := ["invoice_id"; "invoiceId"; "id"; "invoice_number"].

(** The first truthy value among the identifier keys, in their order
    (the last one's value when none is truthy). *)
Definition identifier_candidate (actualData : value) : value :=
  either (either (either (member actualData "invoice_id") (member actualData "invoiceId"))
                 (member actualData "id"))
         (member actualData "invoice_number").

(** A string that is not empty after trimming. *)
Definition usable (v : value) : option string :=
  match v with
  | Str s => if is_empty (trim s) then None else Some (trim s)
  | _ => None
  end.

(** The trimmed value of the first key, in the order given, whose value is
    a string that is not empty after trimming. *)
Fixpoint first_usable (actualData : value) (keys : list string) : option string :=
  match keys with
  | [] => None
  | key :: rest =>
      match usable (member actualData key) with
      | Some s => Some s
      | None => first_usable actualData rest
      end
  end.

(** [INV-{po}-{epoch-millis digits}-{three digits}] *)
Definition fallback_pattern (po id : string) : Prop :=
  exists millis random : string,
    millis <> EmptyString /\ all_chars is_digit millis = true /\
    String.length random = 3%nat /\ all_chars is_digit random = true /\
    id = "INV-" ++ po ++ "-" ++ millis ++ "-" ++ random.

(** A value that [Number] turns into NaN; a missing field is one. *)
Definition non_numeric (v : value) : Prop := to_number v = Return NaN.

(** The calls of [Number] in the item callback return: the values under
    qty, unit_price and total convert to a primitive, and so does the one
    under unitPrice when it is read, which is when unit_price gave 0 or
    NaN. *)
Definition item_converts (item : value) : bool :=
  convertible (member item "qty")
  && convertible (member item "unit_price")
  && (number_truthy (number_of (member item "unit_price"))
      || convertible (member item "unitPrice"))
  && convertible (member item "total").

(** A number that is zero. *)
Definition is_zero_number (v : value) : bool :=
  match v with Num n => is_zero n | _ => false end.

(** A PO-number hint that is supplied and not empty. *)
Definition hint_supplied (poNumber : option string) : bool :=
  match poNumber with
  | Some po => negb (is_empty po)
  | None => false
  end.

Definition text_fields : list string :=
  ["invoice_date"; "due_date"; "payment_terms"; "shipping_method"; "notes"; "payment_status"].
Definition contact_fields : list string := ["company"; "contact"; "address"; "phone"; "email"].
Definition item_fields : list string := ["description"; "qty"; "unit"; "unit_price"; "total"].
Definition summary_fields : list string := ["subtotal"; "discount"; "freight"; "tax"; "total"].

(** The parts of the canonical shape on which no reading differs: a
    non-empty string identifier, an array of items with their five fields
    defined, five numbers in the summary. *)
Definition items_defined (items : value) : bool :=
  match items with
  | Arr elements =>
      forallb (fun item => forallb (fun k => defined (member item k)) item_fields) elements
  | _ => false
  end.

Definition summary_numeric (summary : value) : bool :=
  forallb (fun k => is_number (member summary k)) summary_fields.

(** The canonical shape as the specification words it: text and contact
    fields are strings. *)
Definition canonical (inv : value) : bool :=
  nonempty_string (member inv "invoice_id")
  && forallb (fun k => is_string (member inv k)) text_fields
  && forallb (fun k => is_string (member (member inv "bill_to") k)) contact_fields
  && forallb (fun k => is_string (member (member inv "vendor") k)) contact_fields
  && items_defined (member inv "items")
  && summary_numeric (member inv "summary").

(** The same shape with text and contact fields only required to be
    defined (neither undefined nor null). *)
Definition populated (inv : value) : bool :=
  nonempty_string (member inv "invoice_id")
  && forallb (fun k => defined (member inv k)) text_fields
  && forallb (fun k => defined (member (member inv "bill_to") k)) contact_fields
  && forallb (fun k => defined (member (member inv "vendor") k)) contact_fields
  && items_defined (member inv "items")
  && summary_numeric (member inv "summary").

(** A value that the [||] chains pass through as a string or skip. *)
Definition string_or_falsy (v : value) : bool := is_string v || negb (truthy v).

(** Every upstream text and contact value, under either spelling of its
    key, is a string or falsy. *)
Definition upstream_textual (actualData : value) : bool :=
  forallb (fun k => string_or_falsy (member actualData k))
    ["invoice_date"; "invoiceDate"; "due_date"; "dueDate"; "payment_terms"; "paymentTerms";
     "shipping_method"; "shippingMethod"; "notes"; "payment_status"; "paymentStatus"]
  && forallb (fun outer =>
        forallb (fun k => string_or_falsy (member_opt (member actualData outer) k))
                contact_fields)
       ["bill_to"; "billTo"; "vendor"].

(** No element of the upstream [items] array, if it is one, is null or
    undefined. *)
Definition items_readable (actualData : value) : bool :=
  match member actualData "items" with
  | Arr elements => forallb (fun item => negb (nullish item)) elements
  | _ => true
  end.

(** The calls of [Number] on the upstream items, if they are an array,
    and on the five fields of the upstream summary, return. *)
Definition items_convert (actualData : value) : bool :=
  match member actualData "items" with
  | Arr elements => forallb item_converts elements
  | _ => true
  end.

Definition summary_converts (actualData : value) : bool :=
  forallb (fun k => convertible (member_opt (member actualData "summary") k)) summary_fields.

Definition numbers_convert (actualData : value) : bool :=
  items_convert actualData && summary_converts actualData.

(** *** Invoice dispatch *)

(** The message of the first check of [validateInvoiceData]. *)
Definition required : string := "Recipient email address is required".

(** The recipient is empty, or empty once trimmed. *)
Definition recipient_blank (r : string) : bool := is_empty r || is_empty (trim r).

(** An invoice as its type declares it, as far as validation reads it: an
    object whose invoice_id is a string and whose items are an array,
    either of which may be missing. *)
Definition typed_invoice (inv : value) : bool :=
  negb (nullish inv)
  && match member inv "invoice_id" with Str _ | Undefined => true | _ => false end
  && match member inv "items" with Arr _ | Undefined => true | _ => false end.

Definition id_present (inv : value) : bool :=
  match member inv "invoice_id" with
  | Str s => negb (is_empty (trim s))
  | _ => false
  end.

Definition total_numeric (inv : value) : bool :=
  is_number (member (member inv "summary") "total").

Definition has_items (inv : value) : bool :=
  match member inv "items" with
  | Arr (_ :: _) => true
  | _ => false
  end.

(** The message of the first check that fails, the recipient being
    trimmed before the first two checks: recipient not empty, recipient of
    the shape local@domain.tld, identifier not empty after trimming, total a
    number, items not empty. *)
Definition first_failure (inv : value) (recipient : string) : option string :=
  if recipient_blank recipient then Some required
  else if negb (SendInvoiceService.emailRegex_test (trim recipient))
    then Some "Please provide a valid email address"
  else if negb (id_present inv) then Some "Invoice ID is missing"
  else if negb (total_numeric inv) then Some "Invoice total is invalid"
  else if negb (has_items inv) then Some "Invoice must contain at least one item"
  else None.

(** The same in the words of the specification, which trims the identifier
    only: recipient non-empty, recipient of the shape local@domain.tld,
    identifier not empty after trimming, total a number, items not empty. *)
Definition first_failure_as_stated (inv : value) (recipient : string) : option string :=
  if is_empty recipient then Some required
  else if negb (SendInvoiceService.emailRegex_test recipient)
    then Some "Please provide a valid email address"
  else if negb (id_present inv) then Some "Invoice ID is missing"
  else if negb (total_numeric inv) then Some "Invoice total is invalid"
  else if negb (has_items inv) then Some "Invoice must contain at least one item"
  else None.

(** The shape local@domain.tld: three non-empty runs of characters that
    are neither white space nor [@], joined by [@] and a dot. *)
Definition email_shape (s : string) : Prop :=
  exists l d t : string,
    s = l ++ "@" ++ d ++ "." ++ t /\
    l <> EmptyString /\ d <> EmptyString /\ t <> EmptyString /\
    all_chars SendInvoiceService.plain l = true /\
    all_chars SendInvoiceService.plain d = true /\
    all_chars SendInvoiceService.plain t = true.





(** The description of an item converts to a primitive: it is what the
    template literal of [mapInvoiceToPayload] converts first, and the one
    substitution of a normalised item that may fail. *)
Definition description_converts (item : value) : bool :=
  convertible (member item "description").

(** The checks of [validateInvoiceData] that read the invoice. *)
Definition invoice_failure (inv : value) : option string :=
  if negb (id_present inv) then Some "Invoice ID is missing"
  else if negb (total_numeric inv) then Some "Invoice total is invalid"
  else if negb (has_items inv) then Some "Invoice must contain at least one item"
  else None.

(** *** Reminder activity *)

(** What one step of the sweep does with the item at the current index. *)
Inductive verdict : Type := Keep | Remove | Stop.

Definition judge (oneHourAgo : Z) (key : string) (v : ReminderActivityTracker.stored)
  : verdict :=
  if negb (is_empty key) && startsWith key "reminder_activity_"
     && ReminderActivityTracker.present v then
    match ReminderActivityTracker.time_of v with
    | Throw _ => Stop
    | Return t =>
        if match t with Some ms => ms <? oneHourAgo | None => false end
        then Remove else Keep
    end
  else Keep.

Definition half_hour : Z := 30 * 60 * 1000.
Definition sixty_one_minutes : Z := 61 * 60 * 1000.

(** *** Error buffer *)

(** The [n] most recent entries of a buffer that grows at its end, in
    insertion order. *)
Definition most_recent {A} (n : nat) (l : list A) : list A :=
  skipn (List.length l - n) l.

(** The records a run of [logError] calls appends. *)
Definition logged (calls : list (Z * InvoiceErrorHandler.PartialInvoiceError))
  : list InvoiceErrorHandler.InvoiceError :=
  List.map (fun call => InvoiceErrorHandler.fullError (fst call) (snd call)) calls.

End Spec.

(* ===================================================================== *)
(** * The normaliser in closed form *)
(* ===================================================================== *)

(** What the normaliser computes once the property reads and the
    conversions to a number are known not to throw; the lemmas of
    [NormalizerFacts] relate these to the code. *)
Module Shape.
Import JS Spec AIInvoiceService.
Local Open Scope js_scope.

(** The padded rendering of a random draw has three digits. *)
Definition three_digits (r : Z) : bool :=
  let s := padStart0 3 (Z_to_string r) in
  Nat.eqb (String.length s) 3 && all_chars is_digit s.

(** [xs.map(f)] for a callback that does not throw. *)
Fixpoint indexed {A B} (f : A -> Z -> B) (index : Z) (xs : list A) : list B :=
  match xs with
  | [] => []
  | x :: rest => f x index :: indexed f (index + 1) rest
  end.

(** The identifier the normaliser settles on, if any. *)
Definition resolved (env : Env) (actualData : value) (poNumber : option string)
  : option string :=
  if identifier_invalid (identifier_candidate actualData) then
    match poNumber with
    | Some po => if is_empty po then None else Some (generateFallbackInvoiceId env po)
    | None => None
    end
  else Some (string_of (identifier_candidate actualData)).

(** The normalised items, if the map over them returns. *)
Definition items_of (actualData : value) : completion (list value) :=
  match member actualData "items" with
  | Arr elements => map_indexed normalize_item 0 elements
  | _ => Return []
  end.

Definition zero : value := Num (of_Z 0).

(** The object literal of the normaliser, field by field. *)
Definition normalized (env : Env) (a : value) (invoiceId : string) (items : list value)
  : value :=
  let text snake camel fallback :=
    either (either (member a snake) (member a camel)) (Str fallback) in
  let bill k fallback :=
    either (either (member_opt (member a "bill_to") k) (member_opt (member a "billTo") k))
           (Str fallback) in
  let vend k fallback := either (member_opt (member a "vendor") k) (Str fallback) in
  let sum k := either (Num (number_of (member_opt (member a "summary") k))) zero in
  Obj [
    ("invoice_id", Str (trim invoiceId));
    ("invoice_date", text "invoice_date" "invoiceDate" (iso_date (now_invoice_date env)));
    ("due_date", text "due_date" "dueDate" (iso_date (now_due_date env + thirty_days)));
    ("payment_terms", text "payment_terms" "paymentTerms" "Net 30");
    ("shipping_method", text "shipping_method" "shippingMethod" "Standard");
    ("bill_to", Obj [("company", bill "company" "Unknown Company");
                     ("contact", bill "contact" "Unknown Contact");
                     ("address", bill "address" "Unknown Address");
                     ("phone", bill "phone" EmptyString); ("email", bill "email" EmptyString)]);
    ("vendor", Obj [("company", vend "company" "Unknown Vendor");
                    ("contact", vend "contact" "Unknown Contact");
                    ("address", vend "address" "Unknown Address");
                    ("phone", vend "phone" EmptyString); ("email", vend "email" EmptyString)]);
    ("items", Arr items);
    ("summary", Obj [("subtotal", sum "subtotal"); ("discount", sum "discount");
                     ("freight", sum "freight"); ("tax", sum "tax"); ("total", sum "total")]);
    ("notes", either (member a "notes") (Str EmptyString));
    ("payment_status", text "payment_status" "paymentStatus" "Pending")].

(** The normalised item, field by field. *)
Definition normalized_item (item : value) (index : Z) : value :=
  Obj [("description",
        either (member item "description") (Str ("Item " ++ Z_to_string (index + 1))));
       ("qty", either (Num (number_of (member item "qty"))) (Num (of_Z 1)));
       ("unit", either (member item "unit") (Str "Each"));
       ("unit_price",
        either (either (Num (number_of (member item "unit_price")))
                       (Num (number_of (member item "unitPrice")))) zero);
       ("total", either (Num (number_of (member item "total"))) zero)].

(** The normalised items when every upstream element can be read. *)
Definition normalized_items (actualData : value) : list value :=
  match member actualData "items" with
  | Arr elements => indexed normalized_item 0 elements
  | _ => []
  end.

End Shape.

(* ===================================================================== *)
(** * Sample inputs *)
(* ===================================================================== *)

Module Samples.
Import JS AIInvoiceService.

(** 2023-11-14T22:13:20.000Z on the clock, 7 from the random generator. *)
Definition env : Env :=
  {| now_fallback_id := 1700000000000; random_fallback_id := 7;
     now_invoice_date := 1700000000000; now_due_date := 1700000000000 |}.

(** A runtime with the base URL set and the network down. *)
Definition offline : Runtime :=
  {| API_BASE_URL := Some "https://api.example.com";
     fetch := fun _ => Throw (ErrorExn "Failed to fetch");
     JSON_parse := fun _ => Throw (ErrorExn "Unexpected end of JSON input");
     ToString := fun v => match v with Str s => s | _ => "[object Object]" end;
     toFixed := fun _ _ => "0.00" |}.

Definition offline_world : World :=
  {| rt := offline; now_created_at := 1700000000000; now_updated_at := 1700000000000;
     env_existing := env; env_generated := env; env_fallback := env |}.

(** A runtime whose generation endpoint answers 200 with a body that
    parses to [{"items":[null]}], and 404 everywhere else. *)
Definition null_item_server : Runtime :=
  {| API_BASE_URL := Some "https://api.example.com";
     fetch := fun request =>
       if String.eqb (url request) "https://api.example.com/ai/invoice"
       then Return {| status := 200; statusText := "OK";
                      json := Return (Obj [("items", Arr [Null])]);
                      text := Return "(the body)" |}
       else Return {| status := 404; statusText := "Not Found";
                      json := Return Null; text := Return EmptyString |};
     JSON_parse := fun _ => Return (Obj [("items", Arr [Null])]);
     ToString := fun v => match v with Str s => s | _ => "[object Object]" end;
     toFixed := fun _ _ => "0.00" |}.

Definition null_item_world : World :=
  {| rt := null_item_server; now_created_at := 1700000000000;
     now_updated_at := 1700000000000;
     env_existing := env; env_generated := env; env_fallback := env |}.

End Samples.

(* ===================================================================== *)
(** * src/lib/send-reminder-service.ts: the reminder dispatch service *)
(* ===================================================================== *)

Module SendReminderService.
Import JS.
Local Open Scope js_scope.

Record SendReminderResult : Type := {
  success : bool;
  message : option string;
  error : option string;
  details : option value
}.

Definition failed (e : string) (d : option value) : SendReminderResult :=
  {| success := false; message := None; error := Some e; details := d |}.

(** The class [[A-Z0-9\-_]] under the [i] flag *)
Definition po_char (c : ascii) : bool :=
  is_upper c || is_lower c || is_digit c || Ascii.eqb c "-" || Ascii.eqb c "_".

(** [/^[A-Z0-9\-_]+$/i.test(s)] *)
Definition poNumberPattern_test (s : string) : bool :=
  negb (is_empty s) && all_chars po_char s.

(** [validatePoNumber(poNumber)]: [None] is the [null] of a valid number. *)
Definition validatePoNumber (poNumber : string) : option string :=
  if is_empty poNumber then Some "PO number is required"
  else
    let trimmedPoNumber := trim poNumber in
    if is_empty trimmedPoNumber then Some "PO number cannot be empty"
    else if negb (poNumberPattern_test trimmedPoNumber)
    then Some "PO number contains invalid characters"
    else None.

Definition canSendReminder (poNumber : string) : bool :=
  match validatePoNumber poNumber with
  | None => true
  | Some _ => false
  end.

Definition getReminderMessage (poNumber : string) : string :=
  "This will send a reminder notification for Purchase Order " ++ poNumber
  ++ ". The reminder will be sent to the relevant parties to follow up on the order status.".

(** [v === s] for a string literal [s] *)
Definition is_literal (v : value) (s : string) : bool :=
  match v with
  | Str t => String.eqb t s
  | _ => false
  end.

(** The request [sendReminder] makes. *)
Definition reminder_request (base trimmedPoNumber : string) : Request :=
  {| url := base ++ "/ai/send-reminder"; method := "POST";
     body := Some (Obj [("po_number", Str trimmedPoNumber)]) |}.

(** The body of the [try] block of [sendReminder]. *)
Definition post_reminder (rt : Runtime) (base trimmedPoNumber : string)
  : completion SendReminderResult :=
  let! response := fetch rt (reminder_request base trimmedPoNumber) in
  if negb (ok response) then
    let! errorMessage := to_string rt (server_error_message response) in
    Return (failed ("Failed to send reminder: " ++ errorMessage)
                   (Some (Obj [("status", Num (of_Z (status response)))])))
  else
    let! responseData := json response in
    let! answered := get responseData "status" in
    if is_literal answered "reminder_sent" then
      Return {| success := true;
                message := Some ("Reminder successfully sent for Purchase Order "
                                 ++ trimmedPoNumber);
                error := None; details := None |}
    else
      let! shown := to_string rt answered in
      Return (failed ("Unexpected response status: " ++ shown) (Some responseData)).

(** The [catch] block of [sendReminder]. *)
Definition on_reminder_error (e : exn) : SendReminderResult :=
  match e with
  | ErrorExn m =>
      if includes m "fetch" then
        failed "Network error: Unable to connect to the server. Please check your connection and try again." None
      else failed ("Error sending reminder: " ++ m) None
  | ThrownValue => failed "An unexpected error occurred while sending the reminder" None
  end.

Definition sendReminder (rt : Runtime) (poNumber : string) : SendReminderResult :=
  match base_url rt with
  | None => failed "API configuration error: Base URL not set" None
  | Some base =>
      let send := catch (post_reminder rt base (trim poNumber)) on_reminder_error in
      match validatePoNumber poNumber with
      | Some validationError =>
          if is_empty validationError then send else failed validationError None
      | None => send
      end
  end.

End SendReminderService.

(* ===================================================================== *)
(** * src/lib/ai-invoice-service.ts: the invoice update service *)
(* ===================================================================== *)

Module InvoiceUpdateService.
Import JS.
Local Open Scope js_scope.

(** [InvoiceUpdatePayload]: the identifier and the other fields given. *)
Record InvoiceUpdatePayload : Type := {
  invoice_id : string;
  changes : list (string * value)
}.

(** The payload as the value given to [JSON.stringify]. *)
Definition payload_value (updatePayload : InvoiceUpdatePayload) : value :=
  Obj (("invoice_id", Str (invoice_id updatePayload)) :: changes updatePayload).

Record InvoiceUpdateResult : Type := {
  success : bool;
  invoice : option value;
  error : option string
}.

Definition failed (message : string) : InvoiceUpdateResult :=
  {| success := false; invoice := None; error := Some message |}.

(** The request [updateInvoice] makes. *)
Definition update_request (base : string) (updatePayload : InvoiceUpdatePayload) : Request :=
  {| url := base ++ "/ai/invoice/" ++ invoice_id updatePayload; method := "PUT";
     body := Some (payload_value updatePayload) |}.

(** The body of the [try] block of [updateInvoice]; [env] holds the clock
    and random readings of the normaliser. *)
Definition put_invoice
    (rt : Runtime) (env : AIInvoiceService.Env) (base : string)
    (updatePayload : InvoiceUpdatePayload)
  : completion InvoiceUpdateResult :=
  let! response := fetch rt (update_request base updatePayload) in
  if negb (ok response) then
    let! errorMessage := to_string rt (server_error_message response) in
    Return (failed ("Failed to update invoice: " ++ errorMessage))
  else
    let! rawResponseData := json response in
    let! normalizedInvoice :=
      AIInvoiceService.validateAndNormalizeInvoiceResponse env rawResponseData
        (Some (invoice_id updatePayload)) in
    match normalizedInvoice with
    | None => Return (failed "Invalid response structure from update API")
    | Some normalized =>
        Return {| success := true; invoice := Some normalized; error := None |}
    end.

Definition updateInvoice
    (rt : Runtime) (env : AIInvoiceService.Env) (updatePayload : InvoiceUpdatePayload)
  : InvoiceUpdateResult :=
  match base_url rt with
  | None => failed "API configuration error: Base URL not set"
  | Some base =>
      if is_empty (invoice_id updatePayload) || is_empty (trim (invoice_id updatePayload))
      then failed "Invoice ID is required for updates"
      else
        catch (put_invoice rt env base updatePayload)
          (fun e => failed match e with
                           | ErrorExn m => m
                           | ThrownValue =>
                               "An unexpected error occurred during invoice update"
                           end)
  end.

End InvoiceUpdateService.

(* ===================================================================== *)
(** * src/lib/action-logger.ts *)
(* ===================================================================== *)

Module ActionLogger.
Import JS.
Local Open Scope js_scope.

(** A call of [toast]. *)
Record Toast : Type := {
  title : string;
  description : string;
  destructive : bool      (* variant: "destructive" *)
}.

(** The request [logUserAction] makes. *)
Definition log_request
    (base poNumber actionDescription actorId : string) (isApproved : bool) : Request :=
  {| url := base ++ "/log-action"; method := "POST";
     body := Some (Obj [("po_number", Str poNumber); ("action", Str actionDescription);
                        ("actor", Str actorId); ("approved", Bool isApproved)]) |}.

(** The body of the [try] block of [logUserAction]: the result and the
    toast raised. *)
Definition post_action
    (rt : Runtime) (base poNumber actionDescription actorId : string) (isApproved : bool)
  : completion (bool * Toast) :=
  let! response := fetch rt (log_request base poNumber actionDescription actorId isApproved) in
  if negb (ok response) then
    let errorData := catch (json response) (fun _ => Obj []) in
    let! shown :=
      let! v := get errorData "message" ||| Return (Str EmptyString) in to_string rt v in
    Return (false,
            {| title := "Logging Failed";
               description :=
                 "Could not log action: " ++ actionDescription ++ ". Server responded with "
                 ++ Z_to_string (status response) ++ ". " ++ shown;
               destructive := true |})
  else
    Return (true,
            {| title := "Action Logged";
               description :=
                 actionDescription ++ " for PO " ++ poNumber ++ " has been logged.";
               destructive := false |}).

(** [logUserAction]: the boolean returned and the toasts raised, in order. *)
Definition logUserAction
    (rt : Runtime) (poNumber actionDescription actorId : string) (isApproved : bool)
  : bool * list Toast :=
  match base_url rt with
  | None =>
      (false,
       [{| title := "Logging Configuration Error";
           description := "API Base URL is not configured for logging.";
           destructive := true |}])
  | Some base =>
      match post_action rt base poNumber actionDescription actorId isApproved with
      | Return (logged, raised) => (logged, [raised])
      | Throw _ =>
          (false,
           [{| title := "Logging Error";
               description :=
                 "An unexpected error occurred while logging action: "
                 ++ actionDescription ++ ".";
               destructive := true |}])
      end
  end.

End ActionLogger.

(* ===================================================================== *)
(** * Facts about the runtime model *)
(* ===================================================================== *)

Module JSFacts.
Import JS Spec Shape.
Local Open Scope js_scope.

(** ** Trimming *)

Lemma is_empty_true (s : string) : is_empty s = true <-> s = EmptyString.
Proof. destruct s; simpl; split; congruence. Qed.

Lemma is_empty_false (s : string) : is_empty s = false <-> s <> EmptyString.
Proof. destruct s; simpl; split; congruence. Qed.

Lemma trimEnd_blank (s : string) :
  trimEnd s = EmptyString <-> all_chars is_whitespace s = true.
Proof.
  induction s as [|c s IH]; simpl.
  - tauto.
  - destruct (trimEnd s) eqn:E, (is_whitespace c); simpl; split; intro H;
      try discriminate; try reflexivity.
    + apply IH; reflexivity.
    + apply IH in H. discriminate.
Qed.

Lemma trimStart_blank (s : string) :
  trimStart s = EmptyString <-> all_chars is_whitespace s = true.
Proof.
  induction s as [|c s IH]; simpl.
  - tauto.
  - destruct (is_whitespace c); simpl; [exact IH | split; discriminate].
Qed.

Lemma trimStart_keeps_visible (s : string) :
  all_chars is_whitespace s = false -> all_chars is_whitespace (trimStart s) = false.
Proof.
  induction s as [|c s IH]; simpl; [discriminate|].
  destruct (is_whitespace c) eqn:E; simpl; intro H; [auto | now rewrite E].
Qed.

Lemma trim_blank (s : string) :
  trim s = EmptyString <-> all_chars is_whitespace s = true.
Proof.
  unfold trim. rewrite trimEnd_blank. split; intro H.
  - destruct (all_chars is_whitespace s) eqn:E; [reflexivity|].
    apply trimStart_keeps_visible in E. congruence.
  - apply trimStart_blank in H. now rewrite H.
Qed.

Lemma trimEnd_keeps_visible (s : string) :
  all_chars is_whitespace s = false -> all_chars is_whitespace (trimEnd s) = false.
Proof.
  induction s as [|c s IH]; simpl; [discriminate|].
  destruct (is_whitespace c) eqn:E; simpl; intro H.
  - specialize (IH H). destruct (trimEnd s); simpl in *; [discriminate|].
    now rewrite E.
  - destruct (trimEnd s); simpl; now rewrite E.
Qed.

(** Trimming a trimmed string that is not empty leaves something. *)
Lemma trim_trim_nonempty (s : string) :
  is_empty (trim s) = false -> is_empty (trim (trim s)) = false.
Proof.
  intro H. apply is_empty_false. apply is_empty_false in H.
  rewrite trim_blank. intro B. apply H. apply trim_blank.
  destruct (all_chars is_whitespace s) eqn:E; [reflexivity|].
  unfold trim in B.
  apply trimStart_keeps_visible, trimEnd_keeps_visible in E. congruence.
Qed.

Lemma trimEnd_visible (s : string) :
  all_chars (fun c => negb (is_whitespace c)) s = true -> trimEnd s = s.
Proof.
  induction s as [|c s IH]; simpl; [reflexivity|].
  intro H. apply andb_prop in H as [Hc Hs]. rewrite (IH Hs).
  apply negb_true_iff in Hc. rewrite Hc. destruct s; reflexivity.
Qed.

Lemma trimEnd_app (a b : string) :
  b <> EmptyString -> trimEnd b = b -> trimEnd (a ++ b) = a ++ b.
Proof.
  intros Hb Eb. induction a as [|c a IH]; simpl; [exact Eb|].
  rewrite IH. destruct (a ++ b) eqn:E; [|reflexivity].
  destruct a; simpl in E; congruence.
Qed.

Lemma trimEnd_app_kept (a b : string) :
  b <> EmptyString /\ trimEnd b = b -> a ++ b <> EmptyString /\ trimEnd (a ++ b) = a ++ b.
Proof.
  intros [Hb Eb]. split; [|now apply trimEnd_app].
  destruct a; simpl; [assumption | discriminate].
Qed.

Lemma all_chars_app (p : ascii -> bool) (a b : string) :
  all_chars p (a ++ b) = all_chars p a && all_chars p b.
Proof. induction a as [|c a IH]; simpl; [reflexivity|]. now rewrite IH, andb_assoc. Qed.

Lemma length_app (a b : string) :
  String.length (a ++ b) = (String.length a + String.length b)%nat.
Proof. induction a as [|c a IH]; simpl; [reflexivity|]. now rewrite IH. Qed.

Lemma digit_visible (c : ascii) : is_digit c = true -> is_whitespace c = false.
Proof.
  unfold is_digit, is_whitespace. intro H. apply andb_prop in H as [H1 H2].
  apply Z.leb_le in H1. apply Z.leb_le in H2.
  destruct (Z.leb_spec 9 (code c)), (Z.leb_spec (code c) 13),
    (Z.eqb_spec (code c) 32), (Z.eqb_spec (code c) 160); simpl; try reflexivity; lia.
Qed.

Lemma digits_visible (s : string) :
  all_chars is_digit s = true -> all_chars (fun c => negb (is_whitespace c)) s = true.
Proof.
  induction s as [|c s IH]; simpl; [reflexivity|].
  intro H. apply andb_prop in H as [Hc Hs].
  now rewrite (digit_visible _ Hc), IH.
Qed.

(** ** Decimal rendering *)

Lemma string_of_uint_digits (d : Decimal.uint) :
  all_chars is_digit (NilEmpty.string_of_uint d) = true.
Proof. induction d; simpl; auto. Qed.

Lemma Z_to_string_digits (z : Z) :
  0 <= z -> all_chars is_digit (Z_to_string z) = true /\ Z_to_string z <> EmptyString.
Proof.
  intro H. destruct z as [|p|p]; simpl; [split; [reflexivity|discriminate]| |lia].
  unfold NilZero.string_of_uint.
  destruct (Pos.to_uint p) eqn:E; simpl; try (split; [|discriminate]);
    try reflexivity; try apply string_of_uint_digits.
Qed.

Lemma three_digits_all :
  forallb three_digits (List.map Z.of_nat (seq 0 1000)) = true.
Proof. vm_compute. reflexivity. Qed.

Lemma padded_random (r : Z) :
  0 <= r < 1000 ->
  String.length (padStart0 3 (Z_to_string r)) = 3%nat /\
  all_chars is_digit (padStart0 3 (Z_to_string r)) = true.
Proof.
  intro H. pose proof three_digits_all as A. rewrite forallb_forall in A.
  assert (I : In r (List.map Z.of_nat (seq 0 1000))).
  { apply in_map_iff. exists (Z.to_nat r). split; [lia|]. apply in_seq. lia. }
  apply A in I. unfold three_digits in I. apply andb_prop in I as [L D].
  apply Nat.eqb_eq in L. auto.
Qed.

(** ** The built-ins on sample inputs *)

Example Number_of_strings :
  string_to_number "3" = of_Z 3 /\ string_to_number "10.5" = Finite (21 # 2) /\
  string_to_number "abc" = NaN /\ string_to_number "0" = of_Z 0 /\
  string_to_number " 7 " = of_Z 7 /\ string_to_number "1e3" = of_Z 1000 /\
  string_to_number "0x1F" = of_Z 31 /\ string_to_number "12px" = NaN /\
  string_to_number "-Infinity" = Infinity true /\ string_to_number EmptyString = of_Z 0 /\
  string_to_number "1e-400" = of_Z 0 /\ string_to_number "1e400" = Infinity false.
Proof. repeat split; vm_compute; reflexivity. Qed.

(** The nearest binary64 value: 2^53 + 1 is a tie and goes to 2^53, and
    one tenth is no binary fraction. *)
Example Number_rounds :
  string_to_number "9007199254740993" = of_Z 9007199254740992 /\
  string_to_number "9007199254740995" = of_Z 9007199254740996 /\
  string_to_number "0.1" = Finite (3602879701896397 # 36028797018963968) /\
  string_to_number "5e-324" = Finite (1 # 2 ^ 1074) /\
  string_to_number "2e-324" = of_Z 0 /\
  string_to_number "1.7976931348623158e308" = Finite (inject_Z (2 ^ 1024 - 2 ^ 971)) /\
  string_to_number "1.7976931348623159e308" = Infinity false.
Proof. repeat split; vm_compute; reflexivity. Qed.

Example Number_of_values :
  to_number Undefined = Return NaN /\ to_number Null = Return (of_Z 0) /\
  to_number (Bool true) = Return (of_Z 1) /\
  to_number (Arr []) = Return (of_Z 0) /\ to_number (Arr [Str "5"]) = Return (of_Z 5) /\
  to_number (Arr [Num (of_Z 1); Num (of_Z 2)]) = Return NaN /\
  to_number (Obj []) = Return NaN /\
  to_number (Obj [("valueOf", Null)]) = Return NaN /\
  to_number (Obj [("toString", Null)]) = Throw conversion_error /\
  to_number (Arr [Null; Obj [("toString", Str "x")]]) = Throw conversion_error.
Proof. repeat split; vm_compute; reflexivity. Qed.

Example dates :
  iso_date 0 = "1970-01-01" /\ iso_date 951782400000 = "2000-02-29" /\
  iso_date (1700000000000 + 30 * ms_per_day) = "2023-12-14" /\
  toISOString 1700000000123 = "2023-11-14T22:13:20.123Z" /\
  toISOString (-1) = "1969-12-31T23:59:59.999Z".
Proof. repeat split; vm_compute; reflexivity. Qed.

Example trimming :
  trim "  a b  " = "a b" /\ trim "   " = EmptyString /\
  toLowerCase "Acme, Inc." = "acme, inc." /\ includes "Failed to fetch" "fetch" = true.
Proof. repeat split; reflexivity. Qed.

(** ** Values *)

Lemma truthy_defined (v : value) : truthy v = true -> nullish v = false.
Proof. destruct v; simpl; congruence. Qed.

Lemma get_defined (v : value) (key : string) :
  nullish v = false -> get v key = Return (member v key).
Proof. unfold get. now intros ->. Qed.

Lemma get_opt_member (v : value) (key : string) :
  get_opt v key = Return (member_opt v key).
Proof. unfold get_opt, member_opt, get. destruct (nullish v); reflexivity. Qed.

Lemma bind_Return {A B} (a : A) (k : A -> completion B) : bind (Return a) k = k a.
Proof. reflexivity. Qed.

Lemma or_else_Return (a b : value) :
  or_else (Return a) (Return b) = Return (either a b).
Proof. unfold or_else, either. simpl. destruct (truthy a); reflexivity. Qed.

Lemma Number_Return (v : value) :
  convertible v = true -> Number (Return v) = Return (Num (number_of v)).
Proof. intro H. unfold Number. cbn [bind]. unfold to_number. now rewrite H. Qed.

Lemma Number_Throw (v : value) :
  convertible v = false -> Number (Return v) = Throw conversion_error.
Proof. intro H. unfold Number. cbn [bind]. unfold to_number. now rewrite H. Qed.

Lemma or_else_step (a : value) (b : completion value) :
  or_else (Return a) b = if truthy a then Return a else b.
Proof. reflexivity. Qed.

Lemma either_defined (a b : value) : defined b = true -> defined (either a b) = true.
Proof.
  unfold either, defined. destruct (truthy a) eqn:E; [|auto].
  intros _. now rewrite (truthy_defined _ E).
Qed.

Lemma either_string (a b : value) :
  string_or_falsy a = true -> is_string b = true -> is_string (either a b) = true.
Proof.
  unfold either, string_or_falsy. destruct (truthy a); simpl; [|auto].
  rewrite orb_false_r. auto.
Qed.

Lemma either_string_or_falsy (a b : value) :
  string_or_falsy a = true -> string_or_falsy b = true -> string_or_falsy (either a b) = true.
Proof. unfold either. destruct (truthy a); auto. Qed.

Lemma either_number (a b : number) : is_number (either (Num a) (Num b)) = true.
Proof. unfold either. destruct (truthy (Num a)); reflexivity. Qed.

Lemma is_object_defined (v : value) : is_object v = true -> nullish v = false.
Proof. unfold is_object. intro H. apply andb_prop in H as [H _]. now apply truthy_defined. Qed.

End JSFacts.

(* ===================================================================== *)
(** * The normaliser *)
(* ===================================================================== *)

Module NormalizerFacts.
Import JS Spec Shape JSFacts AIInvoiceService.
Local Open Scope js_scope.

Lemma unwrap_unwrapped (rawResponse : value) (wrappers : list string) :
  is_object rawResponse = true ->
  unwrap rawResponse wrappers = Return (unwrapped rawResponse wrappers).
Proof.
  intro H. pose proof (is_object_defined _ H) as D.
  induction wrappers as [|w ws IH]; simpl; [reflexivity|].
  rewrite (get_defined _ _ D), bind_Return. fold (is_object (member rawResponse w)).
  destruct (is_object (member rawResponse w)); [reflexivity | exact IH].
Qed.

Lemma unwrapped_object (rawResponse : value) (wrappers : list string) :
  is_object rawResponse = true -> is_object (unwrapped rawResponse wrappers) = true.
Proof.
  intro H. induction wrappers as [|w ws IH]; simpl; [exact H|].
  destruct (is_object (member rawResponse w)) eqn:E; [exact E | exact IH].
Qed.

Lemma get_in_defined (a : value) (outer key : string) :
  nullish a = false -> get_in a outer key = Return (member_opt (member a outer) key).
Proof.
  intro D. unfold get_in. now rewrite (get_defined _ _ D), bind_Return, get_opt_member.
Qed.

Ltac evaluate D :=
  repeat first
    [ rewrite bind_Return
    | rewrite or_else_Return
    | rewrite Number_Return by assumption
    | rewrite (get_in_defined _ _ _ D)
    | rewrite (get_defined _ _ D) ];
  cbv beta.

(** [Number(v) || d] for a default [d] that is a number. *)
Lemma Number_or_default (v : value) (d : number) :
  Number (Return v) ||| Return (Num d)
  = if convertible v then Return (either (Num (number_of v)) (Num d))
    else Throw conversion_error.
Proof.
  destruct (convertible v) eqn:C.
  - now rewrite (Number_Return _ C), or_else_Return.
  - now rewrite (Number_Throw _ C).
Qed.

(** The item callback on an item that can be read: the normalised item,
    or the TypeError of the first conversion that fails. *)
Lemma normalize_item_readable (item : value) (index : Z) :
  nullish item = false ->
  normalize_item item index
  = if item_converts item then Return (normalized_item item index)
    else Throw conversion_error.
Proof.
  intro D. unfold normalize_item, item_converts, normalized_item, zero.
  rewrite !(get_defined _ _ D), or_else_Return, bind_Return, Number_or_default.
  destruct (convertible (member item "qty")); [|reflexivity].
  rewrite bind_Return, or_else_Return, bind_Return. cbn [andb].
  destruct (convertible (member item "unit_price")) eqn:Cu;
    [rewrite (Number_Return _ Cu) | now rewrite (Number_Throw _ Cu)].
  rewrite or_else_step. cbn [andb truthy].
  destruct (number_truthy (number_of (member item "unit_price"))) eqn:Tu; cbn [orb].
  - rewrite or_else_Return, bind_Return, Number_or_default.
    destruct (convertible (member item "total")); [|reflexivity].
    cbn [bind andb]. unfold either. cbn [truthy]. rewrite ?Tu. cbn [truthy].
    now rewrite ?Tu.
  - destruct (convertible (member item "unitPrice")) eqn:Cp;
      [rewrite (Number_Return _ Cp) | now rewrite (Number_Throw _ Cp)].
    rewrite or_else_Return, bind_Return, Number_or_default.
    destruct (convertible (member item "total")); [|reflexivity].
    cbn [bind andb]. unfold either. cbn [truthy]. rewrite ?Tu. cbn [truthy].
    now rewrite ?Tu.
Qed.

Lemma normalize_item_defined (item : value) (index : Z) :
  nullish item = false -> item_converts item = true ->
  normalize_item item index = Return (normalized_item item index).
Proof. intros D C. now rewrite (normalize_item_readable _ _ D), C. Qed.

Lemma normalize_item_unconvertible (item : value) (index : Z) :
  nullish item = false -> item_converts item = false ->
  normalize_item item index = Throw conversion_error.
Proof. intros D C. now rewrite (normalize_item_readable _ _ D), C. Qed.

Lemma normalize_item_nullish (item : value) (index : Z) :
  nullish item = true ->
  normalize_item item index = Throw (type_error_reading item "description").
Proof. intro D. unfold normalize_item, or_else, get. rewrite D. reflexivity. Qed.

(** The normaliser on an object, in closed form. *)
Lemma normalize_object (env : Env) (rawResponse : value) (poNumber : option string) :
  is_object rawResponse = true ->
  validateAndNormalizeInvoiceResponse env rawResponse poNumber =
  match resolved env (actual_data rawResponse) poNumber with
  | None => Return None
  | Some invoiceId =>
      let! items := items_of (actual_data rawResponse) in
      if summary_converts (actual_data rawResponse)
      then Return (Some (normalized env (actual_data rawResponse) invoiceId items))
      else Throw conversion_error
  end.
Proof.
  intro H. unfold validateAndNormalizeInvoiceResponse.
  assert (G : negb (truthy rawResponse) || negb (String.eqb (typeof rawResponse) "object")
              = false).
  { unfold is_object in H. apply andb_prop in H as [-> ->]. reflexivity. }
  rewrite G, (unwrap_unwrapped _ _ H), bind_Return. fold (actual_data rawResponse).
  pose proof (is_object_defined _ (unwrapped_object _ possibleWrappers H)) as D.
  fold (actual_data rawResponse) in D. set (a := actual_data rawResponse) in *.
  repeat evaluate D. fold (identifier_candidate a). unfold resolved.
  destruct (if identifier_invalid (identifier_candidate a) then _ else _) as [id|];
    [|reflexivity].
  repeat evaluate D. unfold items_of.
  destruct (match member a "items" with Arr _ => _ | _ => _ end) as [items|e];
    [|reflexivity].
  repeat evaluate D. rewrite !Number_or_default.
  unfold summary_converts, summary_fields. cbn [forallb].
  destruct (convertible (member_opt (member a "summary") "subtotal")); [|reflexivity].
  destruct (convertible (member_opt (member a "summary") "discount")); [|reflexivity].
  destruct (convertible (member_opt (member a "summary") "freight")); [|reflexivity].
  destruct (convertible (member_opt (member a "summary") "tax")); [|reflexivity].
  destruct (convertible (member_opt (member a "summary") "total")); [|reflexivity].
  reflexivity.
Qed.

Lemma normalize_not_object (env : Env) (rawResponse : value) (poNumber : option string) :
  is_object rawResponse = false ->
  validateAndNormalizeInvoiceResponse env rawResponse poNumber = Return None.
Proof.
  intro H. unfold validateAndNormalizeInvoiceResponse, is_object in *.
  destruct (truthy rawResponse), (String.eqb (typeof rawResponse) "object");
    simpl in *; congruence.
Qed.

(** The wrapper comes first: with an identifier under [data] and another
    at the top, the one under [data] is used. *)
Example wrapper_priority :
  exists inv,
    validateAndNormalizeInvoiceResponse Samples.env
      (Obj [("invoice_id", Str "TOP"); ("data", Obj [("invoice_id", Str "INNER")])]) None
    = Return (Some inv) /\
    member inv "invoice_id" = Str "INNER".
Proof. eexists. split; vm_compute; reflexivity. Qed.

(** ** Items *)

Lemma map_indexed_readable (elements : list value) (index : Z) :
  forallb (fun item => negb (nullish item)) elements = true ->
  forallb item_converts elements = true ->
  map_indexed normalize_item index elements
  = Return (indexed normalized_item index elements).
Proof.
  revert index. induction elements as [|x xs IH]; intros index H C; simpl; [reflexivity|].
  simpl in H, C. apply andb_prop in H as [Hx Hxs]. apply andb_prop in C as [Cx Cxs].
  apply negb_true_iff in Hx.
  now rewrite (normalize_item_defined _ _ Hx Cx), bind_Return, (IH _ Hxs Cxs).
Qed.

Lemma items_of_readable (a : value) :
  items_readable a = true -> items_convert a = true ->
  items_of a = Return (normalized_items a).
Proof.
  unfold items_readable, items_convert, items_of, normalized_items.
  destruct (member a "items"); try reflexivity. apply map_indexed_readable.
Qed.

(** What the item callback returns, when it returns. *)
Lemma normalize_item_returns (item : value) (index : Z) (out : value) :
  normalize_item item index = Return out ->
  nullish item = false /\ item_converts item = true /\ out = normalized_item item index.
Proof.
  destruct (nullish item) eqn:D; [now rewrite (normalize_item_nullish _ _ D)|].
  rewrite (normalize_item_readable _ _ D).
  destruct (item_converts item); [|discriminate]. now intros [= <-].
Qed.

Lemma map_indexed_returns (elements : list value) (index : Z) (ys : list value) :
  map_indexed normalize_item index elements = Return ys ->
  ys = indexed normalized_item index elements /\
  forallb (fun item => negb (nullish item)) elements = true /\
  forallb item_converts elements = true.
Proof.
  revert index ys. induction elements as [|x xs IH]; intros index ys; simpl.
  - now intros [= <-].
  - destruct (normalize_item x index) as [y|e] eqn:N; [|discriminate].
    destruct (normalize_item_returns _ _ _ N) as (D & C & ->). rewrite bind_Return.
    destruct (map_indexed normalize_item (index + 1) xs) as [zs|e] eqn:E; simpl;
      [|discriminate].
    intros [= <-]. destruct (IH _ _ E) as (-> & R & K).
    now rewrite D, C, R, K.
Qed.

Lemma normalized_item_fields (item : value) (index : Z) :
  forallb (fun k => defined (member (normalized_item item index) k)) item_fields = true.
Proof.
  unfold normalized_item, item_fields, zero. cbn [forallb member lookup String.eqb Ascii.eqb Bool.eqb].
  rewrite !either_defined; reflexivity.
Qed.

Lemma indexed_items_defined (elements : list value) (index : Z) :
  items_defined (Arr (indexed normalized_item index elements)) = true.
Proof.
  revert index. induction elements as [|x xs IH]; intro index; [reflexivity|].
  simpl indexed. unfold items_defined in *. cbn [forallb].
  now rewrite normalized_item_fields, IH.
Qed.

Lemma normalized_items_defined (a : value) : items_defined (Arr (normalized_items a)) = true.
Proof.
  unfold normalized_items. destruct (member a "items"); try reflexivity.
  apply indexed_items_defined.
Qed.

Lemma nth_indexed {A B} (f : A -> Z -> B) (xs : list A) (index : Z) (n : nat) :
  nth_error (indexed f index xs) n
  = option_map (fun x => f x (index + Z.of_nat n)) (nth_error xs n).
Proof.
  revert index n. induction xs as [|x xs IH]; intros index [|n]; simpl; try reflexivity.
  - now rewrite Z.add_0_r.
  - rewrite IH. destruct (nth_error xs n); simpl; [|reflexivity].
    do 2 f_equal. lia.
Qed.

Ltac split_andb :=
  repeat match goal with
         | H : _ && _ = true |- _ => apply andb_prop in H as [? ?]
         end.

Lemma populated_normalized (env : Env) (a : value) (id : string) :
  is_empty (trim id) = false ->
  populated (normalized env a id (normalized_items a)) = true.
Proof.
  intro H. unfold populated, summary_numeric, normalized, text_fields, contact_fields,
    summary_fields, zero.
  cbn [forallb member lookup String.eqb Ascii.eqb Bool.eqb nonempty_string andb
       summary_numeric].
  rewrite H, normalized_items_defined, !either_number, !either_defined; reflexivity.
Qed.

Lemma canonical_normalized (env : Env) (a : value) (id : string) :
  is_empty (trim id) = false -> upstream_textual a = true ->
  canonical (normalized env a id (normalized_items a)) = true.
Proof.
  intros H T. unfold upstream_textual, contact_fields in T. cbn [forallb] in T. split_andb.
  unfold canonical, summary_numeric, normalized, text_fields, contact_fields,
    summary_fields, zero.
  cbn [forallb member lookup String.eqb Ascii.eqb Bool.eqb nonempty_string andb
       summary_numeric].
  rewrite H, normalized_items_defined, !either_number.
  rewrite !either_string; auto using either_string_or_falsy.
Qed.

(** ** The identifier *)

Lemma fallback_id_visible (env : Env) (po : string) :
  is_empty (trim (generateFallbackInvoiceId env po)) = false.
Proof.
  apply is_empty_false. rewrite trim_blank. unfold generateFallbackInvoiceId. simpl.
  discriminate.
Qed.

Lemma fallback_id_pattern (env : Env) (po : string) :
  0 <= now_fallback_id env -> 0 <= random_fallback_id env < 1000 ->
  trim (generateFallbackInvoiceId env po) = generateFallbackInvoiceId env po /\
  fallback_pattern po (generateFallbackInvoiceId env po).
Proof.
  intros Hn Hr. destruct (Z_to_string_digits _ Hn) as [Dn Nn].
  destruct (padded_random _ Hr) as [Lr Dr].
  unfold generateFallbackInvoiceId. split.
  - unfold trim. change (trimStart ("INV-" ++ ?x)) with ("INV-" ++ x).
    assert (V : trimEnd (padStart0 3 (Z_to_string (random_fallback_id env)))
                = padStart0 3 (Z_to_string (random_fallback_id env))).
    { apply trimEnd_visible, digits_visible, Dr. }
    assert (N : padStart0 3 (Z_to_string (random_fallback_id env)) <> EmptyString).
    { intro E. rewrite E in Lr. discriminate. }
    apply trimEnd_app_kept. do 4 apply trimEnd_app_kept. now split.
  - exists (Z_to_string (now_fallback_id env)),
           (padStart0 3 (Z_to_string (random_fallback_id env))).
    repeat split; assumption.
Qed.

Lemma resolved_candidate (env : Env) (a : value) (po : option string) :
  identifier_invalid (identifier_candidate a) = false ->
  exists s, identifier_candidate a = Str s /\ is_empty (trim s) = false /\
            resolved env a po = Some s.
Proof.
  unfold resolved. intro H. rewrite H. unfold identifier_invalid in H.
  destruct (identifier_candidate a) as [| |b|n|s|l|f]; simpl in H;
    rewrite ?orb_true_r in H; try discriminate.
  exists s. repeat split. apply orb_false_elim in H as [_ H]. exact H.
Qed.

Lemma resolved_fallback (env : Env) (a : value) (po : string) :
  identifier_invalid (identifier_candidate a) = true -> is_empty po = false ->
  resolved env a (Some po) = Some (generateFallbackInvoiceId env po).
Proof. unfold resolved. now intros -> ->. Qed.

Lemma resolved_nothing (env : Env) (a : value) (po : option string) :
  identifier_invalid (identifier_candidate a) = true -> hint_supplied po = false ->
  resolved env a po = None.
Proof.
  unfold resolved, hint_supplied. intros ->. destruct po as [po|]; [|reflexivity].
  intro H. apply negb_false_iff in H. now rewrite H.
Qed.

End NormalizerFacts.

(* ===================================================================== *)
(** * Properties of the normaliser *)
(* ===================================================================== *)

Module NormalizerProperties.
Import JS Spec Shape JSFacts AIInvoiceService NormalizerFacts.
Local Open Scope js_scope.

(** What the normaliser returns on an object once an identifier is
    settled, the items can be read and the numbers convert. *)
Lemma normalize_resolved
    (env : Env) (rawResponse : value) (poNumber : option string) (id : string) :
  is_object rawResponse = true ->
  resolved env (actual_data rawResponse) poNumber = Some id ->
  items_readable (actual_data rawResponse) = true ->
  numbers_convert (actual_data rawResponse) = true ->
  validateAndNormalizeInvoiceResponse env rawResponse poNumber
  = Return (Some (normalized env (actual_data rawResponse) id
                    (normalized_items (actual_data rawResponse)))).
Proof.
  intros O R I C. apply andb_prop in C as [Ci Cs].
  now rewrite (normalize_object _ _ _ O), R, (items_of_readable _ I Ci), bind_Return, Cs.
Qed.

Lemma resolved_visible (env : Env) (a : value) (poNumber : option string) (id : string) :
  resolved env a poNumber = Some id -> is_empty (trim id) = false.
Proof.
  unfold resolved. destruct (identifier_invalid (identifier_candidate a)) eqn:V.
  - destruct poNumber as [po|]; [|discriminate].
    destruct (is_empty po); [discriminate|]. intros [= <-]. apply fallback_id_visible.
  - destruct (resolved_candidate env a poNumber V) as (s & E & N & _).
    rewrite E. simpl. now intros [= <-].
Qed.

(** C1 (as amended).  For every non-null object input in which the first
    truthy value among the four identifier keys (wrapped or unwrapped) is a
    string that is not empty after trimming, or for which a non-empty
    PO-number hint is supplied, whose items, if an array, hold no null or
    undefined element, and whose numeric fields (qty, unit_price, unitPrice
    where it is read, and total of the items; the five fields of the
    summary) convert to a primitive, that is, none is an object with an
    own toString property or an array holding one, the normaliser returns
    an invoice in which every field of the canonical shape is defined and
    non-null: invoice_id is a non-empty string, items is an array (empty
    when the upstream items field is not an array) whose elements have
    their five fields defined, summary has five numbers, and the text and
    contact fields are defined; these last are strings whenever every
    upstream value for them is a string or falsy, a truthy upstream value
    of another type being passed through as it is. *)
Theorem normalizer_populates_every_field
    (env : Env) (rawResponse : value) (poNumber : option string) :
  is_object rawResponse = true ->
  identifier_invalid (identifier_candidate (actual_data rawResponse)) = false
    \/ hint_supplied poNumber = true ->
  items_readable (actual_data rawResponse) = true ->
  numbers_convert (actual_data rawResponse) = true ->
  exists inv,
    validateAndNormalizeInvoiceResponse env rawResponse poNumber = Return (Some inv) /\
    populated inv = true /\
    (isArray (member (actual_data rawResponse) "items") = false ->
     member inv "items" = Arr []) /\
    (upstream_textual (actual_data rawResponse) = true -> canonical inv = true).
Proof.
  intros O R I C. pose proof (normalize_resolved env rawResponse poNumber) as NR.
  remember (actual_data rawResponse) as a eqn:Ea. specialize (fun id => NR id O).
  assert (exists id, resolved env a poNumber = Some id) as [id E].
  { destruct (identifier_invalid (identifier_candidate a)) eqn:V.
    - destruct R as [R|R]; [discriminate|]. destruct poNumber as [po|]; [|discriminate].
      simpl in R. apply negb_true_iff in R. eexists. now apply resolved_fallback.
    - destruct (resolved_candidate env a poNumber V) as (s & _ & _ & E). now exists s. }
  pose proof (resolved_visible _ _ _ _ E) as N.
  eexists. split; [exact (NR _ E I C)|].
  split; [now apply populated_normalized|]. split.
  - intro A. cbn [member lookup normalized String.eqb Ascii.eqb Bool.eqb].
    unfold normalized_items. destruct (member a "items"); try reflexivity. discriminate.
  - now apply canonical_normalized.
Qed.

Lemma normalizer_populates_every_field_witness :
  exists inv,
    validateAndNormalizeInvoiceResponse Samples.env
      (Obj [("data", Obj [("id", Str "X1");
                          ("items", Arr [Obj [("qty", Num (of_Z 2)); ("unit_price", Str "5")]])])])
      (Some "PO-9") = Return (Some inv) /\
    populated inv = true /\
    (isArray (member (actual_data (Obj [("data", Obj [("id", Str "X1");
                          ("items", Arr [Obj [("qty", Num (of_Z 2)); ("unit_price", Str "5")]])])]))
              "items") = false -> member inv "items" = Arr []) /\
    (upstream_textual (actual_data (Obj [("data", Obj [("id", Str "X1");
                          ("items", Arr [Obj [("qty", Num (of_Z 2)); ("unit_price", Str "5")]])])]))
       = true -> canonical inv = true).
Proof.
  apply normalizer_populates_every_field.
  - reflexivity.
  - left. reflexivity.
  - reflexivity.
  - reflexivity.
Defined.

(** C1 (as stated) fails: a truthy number under [invoice_date] is passed
    through, so the invoice returned for an input with a resolvable
    identifier has a text field that is not a string. *)
Lemma number_under_invoice_date_is_passed_through :
  exists inv,
    validateAndNormalizeInvoiceResponse Samples.env
      (Obj [("invoice_id", Str "A"); ("invoice_date", Num (of_Z 42))]) None
    = Return (Some inv) /\
    member inv "invoice_date" = Num (of_Z 42) /\
    canonical inv = false.
Proof. eexists. split; [vm_compute; reflexivity|]. split; vm_compute; reflexivity. Qed.

(** ** Identifier resolution *)

Lemma falsy_unusable (v : value) : truthy v = false -> usable v = None.
Proof.
  destruct v; simpl; try reflexivity. intro H. apply negb_false_iff in H.
  apply is_empty_true in H. now subst.
Qed.

Lemma usable_valid (s : string) : is_empty (trim s) = false -> usable (Str s) = Some (trim s).
Proof. simpl. now intros ->. Qed.

(** When the first truthy identifier value is a usable string, it is also
    the first usable one. *)
Lemma candidate_first_usable (a : value) (s : string) :
  identifier_candidate a = Str s -> is_empty (trim s) = false ->
  first_usable a identifier_keys = Some (trim s).
Proof.
  unfold identifier_candidate, either, identifier_keys. cbn [first_usable]. intros E N.
  destruct (truthy (member a "invoice_id")) eqn:T1.
  - simpl in E. rewrite T1 in E. simpl in E. rewrite T1 in E.
    now rewrite E, (usable_valid _ N).
  - rewrite (falsy_unusable _ T1). destruct (truthy (member a "invoiceId")) eqn:T2.
    + simpl in E. rewrite T2 in E. now rewrite E, (usable_valid _ N).
    + rewrite (falsy_unusable _ T2). destruct (truthy (member a "id")) eqn:T3.
      * now rewrite E, (usable_valid _ N).
      * now rewrite (falsy_unusable _ T3), E, (usable_valid _ N).
Qed.

(** C2 (as amended).  For every non-null object input whose items, if an
    array, hold no null or undefined element and whose numeric fields
    convert to a primitive (none is an object with an own toString
    property, or an array holding one): the identifier keys are tried in
    the order invoice_id, invoiceId, id, invoice_number and the first
    truthy value wins: when that value is a string that is not empty after
    trimming, the resulting invoice_id is its trimmed value (and it is
    then also the first key holding such a string).  An earlier key
    holding a falsy value is passed over; an earlier key holding a truthy
    value that is not a string, or a string of white space only, is not:
    no later key is then consulted, and the identifier is synthesized from
    the PO-number hint if one is supplied and not empty; without a hint
    normalisation returns null (whatever the items and the numbers). *)
Theorem identifier_is_first_truthy_key
    (env : Env) (rawResponse : value) (poNumber : option string) :
  is_object rawResponse = true ->
  items_readable (actual_data rawResponse) = true ->
  numbers_convert (actual_data rawResponse) = true ->
  (forall s, identifier_candidate (actual_data rawResponse) = Str s ->
             is_empty (trim s) = false ->
     first_usable (actual_data rawResponse) identifier_keys = Some (trim s) /\
     exists inv,
       validateAndNormalizeInvoiceResponse env rawResponse poNumber = Return (Some inv) /\
       member inv "invoice_id" = Str (trim s)) /\
  (identifier_invalid (identifier_candidate (actual_data rawResponse)) = true ->
     match poNumber with
     | Some po =>
         is_empty po = false ->
         exists inv,
           validateAndNormalizeInvoiceResponse env rawResponse poNumber = Return (Some inv) /\
           member inv "invoice_id" = Str (trim (generateFallbackInvoiceId env po))
     | None => validateAndNormalizeInvoiceResponse env rawResponse poNumber = Return None
     end).
Proof.
  intros O I C. split.
  - intros s E N. split; [now apply candidate_first_usable|].
    assert (R : resolved env (actual_data rawResponse) poNumber = Some s).
    { unfold resolved, identifier_invalid. rewrite E. simpl. rewrite N.
      destruct s; [discriminate N | reflexivity]. }
    eexists. split; [exact (normalize_resolved _ _ _ _ O R I C) | reflexivity].
  - intro V. destruct poNumber as [po|].
    + intro P. eexists. split.
      * exact (normalize_resolved _ _ _ _ O (resolved_fallback env _ _ V P) I C).
      * reflexivity.
    + now rewrite (normalize_object _ _ _ O), (resolved_nothing env _ None V).
Qed.

Lemma identifier_is_first_truthy_key_witness :
  first_usable (actual_data (Obj [("invoice_id", Null); ("invoiceId", Str " X ")]))
    identifier_keys = Some "X" /\
  exists inv,
    validateAndNormalizeInvoiceResponse Samples.env
      (Obj [("invoice_id", Null); ("invoiceId", Str " X ")]) None = Return (Some inv) /\
    member inv "invoice_id" = Str "X".
Proof.
  destruct (identifier_is_first_truthy_key Samples.env
              (Obj [("invoice_id", Null); ("invoiceId", Str " X ")]) None
              eq_refl eq_refl eq_refl) as [H _].
  exact (H " X " eq_refl eq_refl).
Defined.

(** C2 (as stated) fails: with a number under [invoice_id] and a usable
    string under [invoiceId], the first key holding a non-empty trimmed
    string is [invoiceId], yet normalisation returns null without a hint
    and a synthesized identifier with one. *)
Lemma earlier_number_hides_later_identifier :
  let rawResponse := Obj [("invoice_id", Num (of_Z 42)); ("invoiceId", Str "X")] in
  first_usable (actual_data rawResponse) identifier_keys = Some "X" /\
  validateAndNormalizeInvoiceResponse Samples.env rawResponse None = Return None /\
  exists inv,
    validateAndNormalizeInvoiceResponse Samples.env rawResponse (Some "PO-1")
    = Return (Some inv) /\
    member inv "invoice_id" = Str "INV-PO-1-1700000000000-007".
Proof.
  split; [reflexivity|]. split; [reflexivity|].
  eexists. split; vm_compute; reflexivity.
Qed.

(** ** Identifier fallback and failure *)

(** With no usable identifier, readable items, numbers that convert and a
    non-empty hint, the identifier follows the fallback pattern. *)
Lemma fallback_identifier_when_readable
    (env : Env) (rawResponse : value) (po : string) :
  is_object rawResponse = true ->
  identifier_invalid (identifier_candidate (actual_data rawResponse)) = true ->
  is_empty po = false ->
  items_readable (actual_data rawResponse) = true ->
  numbers_convert (actual_data rawResponse) = true ->
  0 <= now_fallback_id env -> 0 <= random_fallback_id env < 1000 ->
  exists inv id,
    validateAndNormalizeInvoiceResponse env rawResponse (Some po) = Return (Some inv) /\
    member inv "invoice_id" = Str id /\ fallback_pattern po id.
Proof.
  intros O V P I C Hn Hr. destruct (fallback_id_pattern env po Hn Hr) as [T F].
  exists (normalized env (actual_data rawResponse) (generateFallbackInvoiceId env po)
            (normalized_items (actual_data rawResponse))),
         (generateFallbackInvoiceId env po).
  split; [exact (normalize_resolved _ _ _ _ O (resolved_fallback env _ _ V P) I C)|].
  split; [|exact F]. cbn [member lookup normalized String.eqb Ascii.eqb Bool.eqb].
  now rewrite T.
Qed.

(** Without a usable identifier and without a hint the result is null. *)
Lemma no_identifier_no_hint (env : Env) (rawResponse : value) (poNumber : option string) :
  is_object rawResponse = true ->
  identifier_invalid (identifier_candidate (actual_data rawResponse)) = true ->
  hint_supplied poNumber = false ->
  validateAndNormalizeInvoiceResponse env rawResponse poNumber = Return None.
Proof.
  intros O V P. now rewrite (normalize_object _ _ _ O), (resolved_nothing env _ _ V P).
Qed.

(** The exception of the map over the items: that of the first element
    that cannot be read or does not convert. *)
Lemma map_indexed_throws (elements : list value) (index : Z) :
  forallb (fun item => negb (nullish item)) elements && forallb item_converts elements
  = false ->
  exists e,
    map_indexed normalize_item index elements = Throw e /\
    (e = conversion_error \/
     exists item, In item elements /\ nullish item = true /\
                  e = type_error_reading item "description").
Proof.
  revert index. induction elements as [|x xs IH]; intros index H; [discriminate|].
  cbn [forallb map_indexed] in *. destruct (nullish x) eqn:D.
  - exists (type_error_reading x "description").
    rewrite (normalize_item_nullish _ _ D). split; [reflexivity|].
    right. exists x. split; [now left | now split].
  - rewrite (normalize_item_readable _ _ D). destruct (item_converts x).
    + destruct (IH (index + 1) H) as (e & E & K). exists e. rewrite bind_Return, E.
      split; [reflexivity|]. destruct K as [K|(item & I & N & K)]; [now left|].
      right. exists item. split; [now right | now split].
    + exists conversion_error. split; [reflexivity | now left].
Qed.

(** The outcomes of the normaliser: null for an input that is no object
    or has neither identifier nor hint; a TypeError for an upstream item
    that is null or undefined, or a numeric field that does not convert to
    a primitive; an invoice otherwise. *)
Lemma normalizer_outcomes (env : Env) (rawResponse : value) (poNumber : option string) :
  let a := actual_data rawResponse in
  let result := validateAndNormalizeInvoiceResponse env rawResponse poNumber in
  (is_object rawResponse = false -> result = Return None) /\
  (is_object rawResponse = true -> resolved env a poNumber = None -> result = Return None) /\
  (is_object rawResponse = true -> resolved env a poNumber <> None ->
   items_readable a && numbers_convert a = false ->
   exists e,
     result = Throw e /\
     (e = conversion_error \/
      exists item, nullish item = true /\ e = type_error_reading item "description")) /\
  (is_object rawResponse = true -> resolved env a poNumber <> None ->
   items_readable a && numbers_convert a = true -> exists inv, result = Return (Some inv)).
Proof.
  intros a result. split; [apply normalize_not_object|].
  split; [intros O R; unfold result; now rewrite (normalize_object _ _ _ O); fold a; rewrite R|].
  split; intros O R I; unfold result; rewrite (normalize_object _ _ _ O); fold a;
    destruct (resolved env a poNumber) as [id|]; try congruence.
  - unfold items_readable, numbers_convert, items_convert in I. unfold items_of.
    destruct (member a "items") as [| | | | |elements|];
      try (cbn [andb] in I; rewrite I; exists conversion_error; split;
           [reflexivity | now left]).
    destruct (forallb (fun item => negb (nullish item)) elements
              && forallb item_converts elements) eqn:M.
    + apply andb_prop in M as [M1 M2]. rewrite M1, M2 in I. cbn [andb] in I.
      rewrite (map_indexed_readable _ _ M1 M2), bind_Return, I.
      exists conversion_error. split; [reflexivity | now left].
    + destruct (map_indexed_throws _ 0 M) as (e & E & K). exists e. rewrite E.
      split; [reflexivity|]. destruct K as [K|(item & _ & N & K)]; [now left|].
      right. now exists item.
  - apply andb_prop in I as [I C]. apply andb_prop in C as [Ci Cs].
    rewrite (items_of_readable _ I Ci), bind_Return, Cs. now eexists.
Qed.

(** C3.  The specification names a missing identifier without a hint, and
    a non-object input, as the only ways normalisation fails, every other
    gap being filled by a default.  On the response [{"items":[null]}]
    with the hint [PO-1] the normaliser returns neither an invoice nor
    null: reading [description] of the null item throws. *)
Theorem null_item_aborts_normalisation :
  validateAndNormalizeInvoiceResponse Samples.env (Obj [("items", Arr [Null])]) (Some "PO-1")
  = Throw (ErrorExn "Cannot read properties of null (reading 'description')").
Proof. reflexivity. Qed.

(** ** Line items *)

Lemma missing_non_numeric (v : value) : v = Undefined -> non_numeric v.
Proof. now intros ->. Qed.

Lemma falsy_number_replaced (n d : number) :
  number_truthy n = false -> either (Num n) (Num d) = Num d.
Proof. unfold either. simpl. now intros ->. Qed.



(** An object with an own [toString] under qty: [Number] throws, and so
    does the callback. *)
Example unconvertible_quantity_throws :
  normalize_item (Obj [("qty", Obj [("toString", Null)])]) 0 = Throw conversion_error.
Proof. reflexivity. Qed.



(** C9.  A line item whose qty is the number 0, or the string "0", is
    normalised to qty 1: whatever the item callback returns for it has
    qty 1, and it returns whenever the other numeric fields of the item
    convert to a primitive; and in every invoice the normaliser returns,
    the item at the position of such an upstream item has qty 1. *)
Theorem zero_quantity_becomes_one (item : value) (index : Z) :
  member item "qty" = Str "0" \/ is_zero_number (member item "qty") = true ->
  (forall out, normalize_item item index = Return out -> member out "qty" = Num (of_Z 1)) /\
  (item_converts item = true ->
   exists out,
     normalize_item item index = Return out /\ member out "qty" = Num (of_Z 1)) /\
  (forall env rawResponse poNumber inv elements n,
     validateAndNormalizeInvoiceResponse env rawResponse poNumber = Return (Some inv) ->
     member (actual_data rawResponse) "items" = Arr elements ->
     nth_error elements n = Some item ->
     exists outs out,
       member inv "items" = Arr outs /\ nth_error outs n = Some out /\
       member out "qty" = Num (of_Z 1)).
Proof.
  intro Z0.
  assert (D : nullish item = false).
  { destruct item; try reflexivity; destruct Z0 as [H|H]; discriminate H. }
  assert (Q : forall i, member (normalized_item item i) "qty" = Num (of_Z 1)).
  { assert (F : number_truthy (number_of (member item "qty")) = false).
    { destruct Z0 as [->|H]; [reflexivity|].
      destruct (member item "qty"); try discriminate H. simpl in *.
      destruct n; try discriminate H. simpl in *. now rewrite H. }
    intro i. unfold normalized_item.
    cbn [member lookup String.eqb Ascii.eqb Bool.eqb]. now apply falsy_number_replaced. }
  split; [|split].
  - intros out R. destruct (normalize_item_returns _ _ _ R) as (_ & _ & ->). apply Q.
  - intro C. exists (normalized_item item index).
    split; [now apply normalize_item_defined | apply Q].
  - intros env rawResponse poNumber inv elements n R A E.
    destruct (is_object rawResponse) eqn:O;
      [|rewrite (normalize_not_object _ _ _ O) in R; discriminate].
    rewrite (normalize_object _ _ _ O) in R.
    destruct (resolved env (actual_data rawResponse) poNumber) as [id|]; [|discriminate].
    unfold items_of in R. rewrite A in R.
    destruct (map_indexed normalize_item 0 elements) as [ys|e] eqn:M; [|discriminate].
    rewrite bind_Return in R.
    destruct (summary_converts (actual_data rawResponse)); [|discriminate].
    injection R as <-. apply map_indexed_returns in M as (-> & _ & _).
    exists (indexed normalized_item 0 elements), (normalized_item item (0 + Z.of_nat n)).
    split; [reflexivity|]. split; [now rewrite nth_indexed, E | apply Q].
Qed.

Lemma zero_quantity_becomes_one_witness :
  exists out,
    normalize_item (Obj [("description", Str "Bolt"); ("qty", Num (of_Z 0))]) 0 = Return out /\
    member out "qty" = Num (of_Z 1).
Proof.
  destruct (zero_quantity_becomes_one
              (Obj [("description", Str "Bolt"); ("qty", Num (of_Z 0))]) 0) as (_ & H & _).
  - right. reflexivity.
  - exact (H eq_refl).
Defined.

(** A summary total that does not convert: the normaliser throws, with or
    without an identifier of the response's own. *)
Example unconvertible_total_aborts_normalisation :
  validateAndNormalizeInvoiceResponse Samples.env
    (Obj [("invoice_id", Str "A"); ("summary", Obj [("total", Obj [("toString", Null)])])])
    None
  = Throw conversion_error.
Proof. reflexivity. Qed.

End NormalizerProperties.

(* ===================================================================== *)
(** * Properties of the generation orchestrator *)
(* ===================================================================== *)

Module OrchestratorProperties.
Import JS Spec Shape JSFacts AIInvoiceService NormalizerFacts.
Local Open Scope js_scope.

(** Past the input validation, the existence check and the configuration
    check, the result is that of the [try] block or of its [catch]. *)
Lemma generate_reaches_api (w : World) (poNumber base : string) :
  is_empty (trim poNumber) = false ->
  getExistingInvoiceFromDatabase w (trim poNumber) = None ->
  base_url (rt w) = Some base ->
  generateAIInvoice w poNumber
  = catch (generate_via_api w base (trim poNumber)) (on_generation_error w (trim poNumber)).
Proof.
  intros P X B. unfold generateAIInvoice. rewrite P, X, B.
  destruct poNumber; [discriminate P | reflexivity].
Qed.

(** C4.  Once input validation, the existence check and the configuration
    check have passed, an exception in the generation step that is an
    [Error] whose message includes "fetch" gives success with source
    "generated" and the placeholder invoice: fallback-pattern identifier,
    the dates of today and of today plus thirty days, "Net 30",
    "Standard", placeholder contacts, no items, an all-zero summary,
    "Pending", and notes saying that this is a fallback for this PO due to
    API unavailability.  Any other exception gives failure, with the
    exception's message when it is an [Error]. *)
Theorem network_failure_yields_fallback_invoice
    (w : World) (poNumber base : string) (e : exn) :
  is_empty (trim poNumber) = false ->
  getExistingInvoiceFromDatabase w (trim poNumber) = None ->
  base_url (rt w) = Some base ->
  generate_via_api w base (trim poNumber) = Throw e ->
  0 <= now_fallback_id (env_fallback w) ->
  0 <= random_fallback_id (env_fallback w) < 1000 ->
  (is_fetch_failure e = true ->
   exists inv id,
     generateAIInvoice w poNumber
     = {| success := true; invoice := Some inv; error := None; rawResponse := None;
          source := Some "generated" |} /\
     member inv "invoice_id" = Str id /\ fallback_pattern (trim poNumber) id /\
     member inv "invoice_date" = Str (iso_date (now_invoice_date (env_fallback w))) /\
     member inv "due_date"
     = Str (iso_date (now_due_date (env_fallback w) + 30 * ms_per_day)) /\
     member inv "payment_terms" = Str "Net 30" /\
     member inv "shipping_method" = Str "Standard" /\
     member inv "bill_to"
     = Obj [("company", Str "Unknown Company"); ("contact", Str "Unknown Contact");
            ("address", Str "Unknown Address"); ("phone", Str EmptyString);
            ("email", Str EmptyString)] /\
     member inv "vendor"
     = Obj [("company", Str "Unknown Vendor"); ("contact", Str "Unknown Contact");
            ("address", Str "Unknown Address"); ("phone", Str EmptyString);
            ("email", Str EmptyString)] /\
     member inv "items" = Arr [] /\
     member inv "summary"
     = Obj [("subtotal", Num (of_Z 0)); ("discount", Num (of_Z 0));
            ("freight", Num (of_Z 0)); ("tax", Num (of_Z 0)); ("total", Num (of_Z 0))] /\
     member inv "payment_status" = Str "Pending" /\
     member inv "notes"
     = Str ("Fallback invoice generated for PO " ++ trim poNumber
            ++ " due to API unavailability. Please update with correct information.") /\
     populated inv = true) /\
  (is_fetch_failure e = false ->
   success (generateAIInvoice w poNumber) = false /\
   invoice (generateAIInvoice w poNumber) = None /\
   forall m, e = ErrorExn m -> error (generateAIInvoice w poNumber) = Some m).
Proof.
  intros P X B T Hn Hr. rewrite (generate_reaches_api _ _ _ P X B), T.
  unfold catch, on_generation_error. split; intros F; rewrite F.
  - destruct (fallback_id_pattern (env_fallback w) (trim poNumber) Hn Hr) as [_ FP].
    exists (fallbackInvoice (env_fallback w) (trim poNumber)),
           (generateFallbackInvoiceId (env_fallback w) (trim poNumber)).
    split; [reflexivity|]. split; [reflexivity|]. split; [exact FP|].
    repeat (split; [reflexivity|]).
    unfold populated, fallbackInvoice. reflexivity.
  - split; [reflexivity|]. split; [reflexivity|]. now intros m ->.
Qed.

Lemma network_failure_yields_fallback_invoice_witness :
  exists inv,
    generateAIInvoice Samples.offline_world " PO-9 "
    = {| success := true; invoice := Some inv; error := None; rawResponse := None;
         source := Some "generated" |} /\
    member inv "invoice_id" = Str "INV-PO-9-1700000000000-007" /\
    member inv "invoice_date" = Str "2023-11-14" /\
    member inv "due_date" = Str "2023-12-14" /\
    member inv "notes"
    = Str "Fallback invoice generated for PO PO-9 due to API unavailability. Please update with correct information.".
Proof.
  destruct (network_failure_yields_fallback_invoice Samples.offline_world " PO-9 "
              "https://api.example.com" (ErrorExn "Failed to fetch")
              eq_refl eq_refl eq_refl eq_refl) as [H _]; [simpl; lia | simpl; lia |].
  destruct (H eq_refl) as (inv & id & E & I & _ & D1 & D2 & _ & _ & _ & _ & _ & _ & _ & N & _).
  exists inv. split; [exact E|].
  pose proof (f_equal invoice E) as V. vm_compute in V. injection V as V. subst inv.
  repeat split; vm_compute; reflexivity.
Defined.

(** An exception that is no transport failure: the generation endpoint
    answers with a null item, the normaliser throws, and generation fails
    with the TypeError's message. *)
Lemma normaliser_exception_fails_generation :
  generateAIInvoice Samples.null_item_world "PO-1"
  = failure "Cannot read properties of null (reading 'description')" None.
Proof. vm_compute. reflexivity. Qed.

End OrchestratorProperties.

(* ===================================================================== *)
(** * Properties of the error buffer *)
(* ===================================================================== *)

Module ErrorBufferProperties.
Import JS Spec InvoiceErrorHandler.

Section Buffers.
Context {A : Type}.

Lemma most_recent_length (n : nat) (l : list A) :
  (List.length (most_recent n l) <= n)%nat.
Proof. unfold most_recent. rewrite length_skipn. lia. Qed.

Lemma most_recent_short (n : nat) (l : list A) :
  (List.length l <= n)%nat -> most_recent n l = l.
Proof. unfold most_recent. intro H. now replace (List.length l - n)%nat with 0%nat by lia. Qed.

Lemma slice_most_recent (n : nat) (l : list A) :
  (0 < n)%nat -> slice (- Z.of_nat n) l = most_recent n l.
Proof.
  intro H. unfold slice, most_recent.
  destruct (Z.ltb_spec (- Z.of_nat n) 0); [|lia]. f_equal. lia.
Qed.

(** Trimming early does not change what is kept later. *)
Lemma most_recent_app (n : nat) (l r : list A) :
  most_recent n (most_recent n l ++ r) = most_recent n (l ++ r).
Proof.
  unfold most_recent. rewrite !length_app, length_skipn.
  destruct (Nat.le_gt_cases (List.length l) n) as [S|L].
  - replace (List.length l - n)%nat with 0%nat by lia.
    now rewrite Nat.sub_0_r.
  - replace (List.length l - (List.length l - n) + List.length r - n)%nat
      with (List.length r) by lia.
    replace (List.length l + List.length r - n)%nat
      with (List.length r + (List.length l - n))%nat by lia.
    rewrite <- skipn_skipn. f_equal. rewrite skipn_app.
    replace (List.length l - n - List.length l)%nat with 0%nat by lia. reflexivity.
Qed.

Lemma most_recent_snoc (n : nat) (l : list A) (x : A) :
  (0 < n)%nat -> exists front, most_recent n (l ++ [x]) = (front ++ [x])%list.
Proof.
  intro H. unfold most_recent. rewrite length_app. simpl.
  exists (skipn (List.length l + 1 - n) l). rewrite skipn_app.
  replace (List.length l + 1 - n - List.length l)%nat with 0%nat by lia. reflexivity.
Qed.

End Buffers.

Lemma logError_most_recent (errors : list InvoiceError) (now : Z) (e : PartialInvoiceError) :
  logError errors now e = most_recent 50 (errors ++ [fullError now e]).
Proof.
  unfold logError.
  destruct (Z.ltb_spec 50 (Z.of_nat (List.length (errors ++ [fullError now e])))) as [L|S].
  - exact (slice_most_recent 50 _ ltac:(lia)).
  - symmetry. apply most_recent_short. lia.
Qed.

Lemma logErrors_most_recent (errors : list InvoiceError)
    (calls : list (Z * PartialInvoiceError)) :
  logErrors (most_recent 50 errors) calls = most_recent 50 (errors ++ logged calls).
Proof.
  revert errors. induction calls as [|[now e] calls IH]; intro errors; simpl.
  - rewrite app_nil_r. reflexivity.
  - rewrite logError_most_recent, most_recent_app, IH, <- app_assoc. reflexivity.
Qed.

(** C5.  [logError] always appends a record with the defaults filled in
    (code "UNKNOWN_ERROR" and the default message when the partial error
    gives none, the timestamp of the moment of logging), and after every
    call the buffer holds at most 50 records, the oldest dropped first:
    it is the 50 most recent of the old buffer with the new record at its
    end.  A run of calls on the empty buffer leaves the 50 most recent
    records in insertion order; after 60 calls these are the last 50, the
    first 10 being gone. *)
Theorem error_buffer_keeps_fifty_most_recent :
  (forall errors now e,
     logError errors now e = most_recent 50 (errors ++ [fullError now e]) /\
     (exists front, logError errors now e = (front ++ [fullError now e])%list) /\
     (List.length (logError errors now e) <= 50)%nat) /\
  (forall now e,
     timestamp (fullError now e) = toISOString now /\
     (given_code e = None -> code (fullError now e) = "UNKNOWN_ERROR") /\
     (given_message e = None -> message (fullError now e) = "An unknown error occurred") /\
     (forall c, given_code e = Some c -> c <> EmptyString -> code (fullError now e) = c) /\
     (forall m, given_message e = Some m -> m <> EmptyString ->
                message (fullError now e) = m)) /\
  (forall calls, logErrors [] calls = most_recent 50 (logged calls)) /\
  (forall calls,
     List.length calls = 60%nat ->
     logErrors [] calls = skipn 10 (logged calls) /\
     List.length (logErrors [] calls) = 50%nat).
Proof.
  assert (R : forall calls, logErrors [] calls = most_recent 50 (logged calls)).
  { intro calls. exact (logErrors_most_recent [] calls). }
  split; [|split; [|split]].
  - intros errors now e. rewrite logError_most_recent.
    split; [reflexivity|]. split; [apply most_recent_snoc; lia | apply most_recent_length].
  - intros now e. unfold fullError, string_or. simpl.
    split; [reflexivity|]. split; [now intros ->|]. split; [now intros ->|].
    split; [intros c -> N | intros m -> N]; now destruct c + destruct m.
  - exact R.
  - intros calls L. rewrite R. unfold most_recent, logged.
    rewrite length_map, L. simpl Nat.sub. split; [reflexivity|].
    rewrite length_skipn, length_map, L. reflexivity.
Qed.

Lemma error_buffer_keeps_fifty_most_recent_witness :
  let calls :=
    List.map (fun n => (Z.of_nat n,
                        {| given_code := None; given_message := None;
                           given_details := Undefined; given_timestamp := None;
                           given_poNumber := Some "PO-1" |}))
             (seq 0 60) in
  logErrors [] calls = skipn 10 (logged calls) /\
  List.length (logErrors [] calls) = 50%nat.
Proof.
  apply error_buffer_keeps_fifty_most_recent. reflexivity.
Defined.

End ErrorBufferProperties.

(* ===================================================================== *)
(** * Properties of the reminder activity cache *)
(* ===================================================================== *)

Module ActivityCacheProperties.
Import JS Spec ReminderActivityTracker.
Local Open Scope js_scope.

(** Induction that steps over one or two items, as the sweep does. *)
Lemma pair_induction {A} (P : list A -> Prop) :
  P [] -> (forall x, P [x]) ->
  (forall x y l, P l -> P (y :: l) -> P (x :: y :: l)) ->
  forall l, P l.
Proof.
  intros H0 H1 H2 l.
  assert (B : P l /\ forall x, P (x :: l)); [|exact (proj1 B)].
  induction l as [|y l [IH1 IH2]]; split; auto.
Qed.

Lemma find_put (key : string) (v : stored) (l : list (string * stored)) :
  find_item key (put_item key v l) = Some v.
Proof.
  induction l as [|[k old] l IH]; simpl.
  - now rewrite String.eqb_refl.
  - destruct (String.eqb k key) eqn:E; simpl; now rewrite E.
Qed.

Lemma sweep_step (oneHourAgo : Z) (key : string) (v : stored) (rest : list (string * stored)) :
  sweep oneHourAgo ((key, v) :: rest)
  = match judge oneHourAgo key v with
    | Keep => (key, v) :: sweep oneHourAgo rest
    | Stop => (key, v) :: rest
    | Remove => match rest with
                | [] => []
                | next :: rest' => next :: sweep oneHourAgo rest'
                end
    end.
Proof.
  unfold judge. simpl.
  destruct (negb (is_empty key) && startsWith key "reminder_activity_" && present v);
    [|reflexivity].
  destruct (time_of v) as [[ms|]|e]; try reflexivity.
  destruct (ms <? oneHourAgo); reflexivity.
Qed.

Lemma fresh_not_removed (oneHourAgo : Z) (key : string) (a : ReminderActivity) :
  oneHourAgo <= timestamp a -> judge oneHourAgo key (Activity a) <> Remove.
Proof.
  intro H. unfold judge.
  destruct (negb (is_empty key) && startsWith key "reminder_activity_" && present _);
    [|discriminate].
  simpl. destruct (Z.ltb_spec (timestamp a) oneHourAgo); [lia | discriminate].
Qed.

(** The sweep leaves a record that is not older than the bound where it is
    found. *)
Lemma sweep_keeps_fresh (oneHourAgo : Z) (key : string) (a : ReminderActivity)
    (l : list (string * stored)) :
  oneHourAgo <= timestamp a ->
  find_item key l = Some (Activity a) ->
  find_item key (sweep oneHourAgo l) = Some (Activity a).
Proof.
  intro F. induction l as [|[k v]|[k v] [k' v'] l IH1 IH2] using pair_induction.
  - discriminate.
  - rewrite sweep_step. simpl. destruct (String.eqb k key) eqn:E; [|discriminate].
    intros [= ->]. apply String.eqb_eq in E. subst k.
    pose proof (fresh_not_removed _ key _ F) as N.
    destruct (judge oneHourAgo key (Activity a)); simpl;
      try rewrite String.eqb_refl; congruence.
  - rewrite sweep_step. intro H.
    destruct (String.eqb k key) eqn:E.
    + simpl in H. rewrite E in H. injection H as ->. apply String.eqb_eq in E. subst k.
      pose proof (fresh_not_removed _ key _ F) as N.
      destruct (judge oneHourAgo key (Activity a)); simpl;
        try rewrite String.eqb_refl; congruence.
    + assert (H' : find_item key ((k', v') :: l) = Some (Activity a)).
      { simpl in H. now rewrite E in H. }
      destruct (judge oneHourAgo k v).
      * simpl. rewrite E. exact (IH2 H').
      * simpl in *. destruct (String.eqb k' key); [exact H' | exact (IH1 H')].
      * simpl. rewrite E. exact H'.
Qed.

Lemma find_In (key : string) (v : stored) (l : list (string * stored)) :
  find_item key l = Some v -> In (key, v) l.
Proof.
  induction l as [|[k x] l IH]; simpl; [discriminate|].
  destruct (String.eqb_spec k key) as [->|N]; [intros [= ->]; now left | auto].
Qed.

Lemma In_find (key : string) (v : stored) (l : list (string * stored)) :
  NoDup (List.map fst l) -> In (key, v) l -> find_item key l = Some v.
Proof.
  induction l as [|[k x] l IH]; simpl; [tauto|].
  intros D [E|I].
  - injection E as -> ->. now rewrite String.eqb_refl.
  - inversion D as [|? ? N D']; subst.
    destruct (String.eqb_spec k key) as [->|_]; [|auto].
    exfalso. apply N. apply in_map_iff. now exists (key, v).
Qed.

Lemma put_item_keys (key : string) (v : stored) (l : list (string * stored)) :
  In key (List.map fst l) /\ List.map fst (put_item key v l) = List.map fst l \/
  ~ In key (List.map fst l) /\ List.map fst (put_item key v l) = (List.map fst l ++ [key])%list.
Proof.
  induction l as [|[k x] l IH]; simpl; [right; tauto|].
  destruct (String.eqb_spec k key) as [->|N]; simpl; [left; auto|].
  destruct IH as [[I E]|[I E]]; rewrite E; [left|right]; intuition congruence.
Qed.

Lemma put_item_NoDup (key : string) (v : stored) (l : list (string * stored)) :
  NoDup (List.map fst l) -> NoDup (List.map fst (put_item key v l)).
Proof.
  intro D. destruct (put_item_keys key v l) as [[_ ->]|[N ->]]; [exact D|].
  apply NoDup_app; [exact D | repeat constructor; intros [] |].
  intros k I [<-|[]]. now apply N.
Qed.

(** The sweep adds nothing. *)
Lemma sweep_In (oneHourAgo : Z) (x : string * stored) (l : list (string * stored)) :
  In x (sweep oneHourAgo l) -> In x l.
Proof.
  induction l as [|[k v]|[k v] y l IH1 IH2] using pair_induction;
    try rewrite sweep_step; try destruct (judge oneHourAgo k v); simpl; tauto.
Qed.

(** C6.  A record written at time T, the storage accepting the write, is
    returned by every read strictly within one hour of T that follows the
    write and its sweep (at T + 30 minutes, say), and every read one hour
    or more after T (at T + 61 minutes, say) returns null, also when the
    record is still in storage, as it is unless the sweep that followed
    the write already found it an hour old: reading re-checks the window
    and removes nothing. *)
Theorem activity_returned_within_one_hour
    (st : Storage) (T T_cleanup : Z) (poNumber : string) (s : Status) (m : string) :
  quota_exceeded st = false ->
  NoDup (List.map fst (items st)) ->
  let written := trackReminderActivity st T T_cleanup poNumber s m in
  let record := {| timestamp := T; status := s; message := m |} in
  (forall T', T_cleanup <= T' -> T' < T + one_hour ->
     getRecentReminderActivity written T' poNumber = Some record) /\
  (forall T', T + one_hour <= T' ->
     getRecentReminderActivity written T' poNumber = None) /\
  (T_cleanup <= T + one_hour ->
     getItem written (activity_key poNumber) = Some (Activity record)) /\
  (T_cleanup <= T + half_hour ->
     getRecentReminderActivity written (T + half_hour) poNumber = Some record) /\
  getRecentReminderActivity written (T + sixty_one_minutes) poNumber = None.
Proof.
  intros Q D written record.
  assert (W : items written
              = sweep (T_cleanup - one_hour)
                  (put_item (activity_key poNumber) (Activity record) (items st))).
  { unfold written, trackReminderActivity, setItem. now rewrite Q. }
  assert (G : T_cleanup - one_hour <= T ->
              getItem written (activity_key poNumber) = Some (Activity record)).
  { intro C. unfold getItem. rewrite W.
    apply sweep_keeps_fresh; [exact C | apply find_put]. }
  assert (O : forall v, getItem written (activity_key poNumber) = Some v ->
                        v = Activity record).
  { intros v F. unfold getItem in F. rewrite W in F.
    apply find_In, sweep_In, (In_find _ _ _ (put_item_NoDup _ _ _ D)) in F.
    rewrite find_put in F. congruence. }
  assert (Fresh : forall T', T_cleanup <= T' -> T' < T + one_hour ->
                    getRecentReminderActivity written T' poNumber = Some record).
  { intros T' C H. unfold getRecentReminderActivity. rewrite G by lia. simpl.
    destruct (Z.ltb_spec (T' - one_hour) T); [reflexivity | lia]. }
  assert (Stale : forall T', T + one_hour <= T' ->
                    getRecentReminderActivity written T' poNumber = None).
  { intros T' H. unfold getRecentReminderActivity.
    destruct (getItem written (activity_key poNumber)) as [v|] eqn:F; [|reflexivity].
    rewrite (O v eq_refl). simpl.
    destruct (Z.ltb_spec (T' - one_hour) T); [lia | reflexivity]. }
  split; [exact Fresh|]. split; [exact Stale|]. split; [intro; apply G; lia|].
  split.
  - intro C. apply Fresh; [exact C | unfold half_hour, one_hour; lia].
  - apply Stale. unfold sixty_one_minutes, one_hour. lia.
Qed.

Lemma activity_returned_within_one_hour_witness :
  let st := {| items := [("theme", Unreadable);
                         ("reminder_activity_PO-7",
                          Activity {| timestamp := 0; status := failed;
                                      message := "old" |});
                         ("reminder_activity_PO-8", Timeless)];
               quota_exceeded := false |} in
  let written := trackReminderActivity st 1700000000000 1700000000002 "PO-9" sent "ok" in
  getRecentReminderActivity written (1700000000000 + half_hour) "PO-9"
  = Some {| timestamp := 1700000000000; status := sent; message := "ok" |} /\
  getRecentReminderActivity written (1700000000000 + sixty_one_minutes) "PO-9" = None /\
  getItem written (activity_key "PO-9")
  = Some (Activity {| timestamp := 1700000000000; status := sent; message := "ok" |}).
Proof.
  intros st written.
  assert (D : NoDup (List.map fst (items st))).
  { repeat constructor; simpl; intuition discriminate. }
  destruct (activity_returned_within_one_hour st 1700000000000 1700000000002 "PO-9" sent "ok"
              eq_refl D) as (_ & _ & G & A & B).
  split; [apply A; unfold half_hour; lia|]. split; [exact B|].
  apply G. unfold one_hour. lia.
Defined.

End ActivityCacheProperties.

(* ===================================================================== *)
(** * Properties of the invoice dispatch service *)
(* ===================================================================== *)

Module DispatchProperties.
Import JS Spec JSFacts SendInvoiceService.
Local Open Scope js_scope.

Ltac split_andb_hyps H :=
  repeat match type of H with
         | _ && _ = true => let H' := fresh in apply andb_prop in H as [H' H]; split_andb_hyps H'
         end.

(** ** The regular expression *)

Lemma cut_at_sign_plain (l rest : string) :
  all_chars plain l = true -> cut_at_sign (l ++ String "@" rest) = Some (l, rest).
Proof.
  induction l as [|c l IH]; simpl; [reflexivity|].
  intro H. apply andb_prop in H as [Hc Hl]. unfold plain in Hc.
  apply andb_prop in Hc as [_ Hc]. apply negb_true_iff in Hc. now rewrite Hc, (IH Hl).
Qed.

Lemma cut_at_sign_joins (s l rest : string) :
  cut_at_sign s = Some (l, rest) -> s = l ++ String "@" rest.
Proof.
  revert l. induction s as [|c s IH]; simpl; intro l; [discriminate|].
  destruct (Ascii.eqb_spec c "@") as [->|N].
  - now intros [= <- <-].
  - destruct (cut_at_sign s) as [[b a]|]; [|discriminate].
    intros [= <- <-]. simpl. now rewrite (IH b eq_refl).
Qed.

Lemma dot_before_end_app (d t : string) :
  t <> EmptyString -> dot_before_end (d ++ String "." t) = true.
Proof.
  intro N. induction d as [|c d IH]; simpl.
  - destruct t; [congruence | reflexivity].
  - rewrite IH. apply orb_true_r.
Qed.

Lemma dot_before_end_splits (s : string) :
  dot_before_end s = true ->
  exists d t, s = d ++ String "." t /\ t <> EmptyString.
Proof.
  induction s as [|c s IH]; simpl; [discriminate|].
  intro H. apply orb_prop in H as [H|H].
  - apply andb_prop in H as [C N]. apply Ascii.eqb_eq in C. subst c.
    exists EmptyString, s. split; [reflexivity|]. now destruct s.
  - destruct (IH H) as (d & t & -> & N). exists (String c d), t. now split.
Qed.

Example email_samples :
  emailRegex_test "buyer@example.com" = true /\ emailRegex_test "a@b..c" = true /\
  emailRegex_test "a@b" = false /\ emailRegex_test "a@.c" = false /\
  emailRegex_test "a b@c.d" = false /\ emailRegex_test "a@b@c.d" = false /\
  emailRegex_test "@b.c" = false /\ emailRegex_test "a@b." = false.
Proof. repeat split; reflexivity. Qed.

(** The test accepts exactly the strings of the shape local@domain.tld. *)
Lemma emailRegex_shape (s : string) : emailRegex_test s = true <-> email_shape s.
Proof.
  unfold emailRegex_test, email_shape, domain_matches. split.
  - destruct (cut_at_sign s) as [[l dom]|] eqn:C; [|discriminate].
    apply cut_at_sign_joins in C. intro H. split_andb_hyps H.
    destruct dom as [|c rest]; [discriminate|].
    match goal with D : dot_before_end rest = true |- _ =>
      destruct (dot_before_end_splits _ D) as (d & t & -> & N) end.
    exists l, (String c d), t.
    match goal with P : all_chars plain (String c (d ++ String "." t)) = true |- _ =>
      change (String c (d ++ String "." t)) with (String c d ++ String "." t) in P;
      rewrite all_chars_app in P; apply andb_prop in P as [P1 P2];
      simpl in P2 end.
    repeat split; try assumption; try discriminate.
    now destruct l.
  - intros (l & d & t & -> & Nl & Nd & Nt & Pl & Pd & Pt).
    change (l ++ "@" ++ d ++ "." ++ t) with (l ++ String "@" (d ++ String "." t)).
    rewrite (cut_at_sign_plain _ _ Pl).
    destruct l; [congruence|]. destruct d as [|c d]; [congruence|].
    simpl in Pd. apply andb_prop in Pd as [Pc Pd].
    change (String c d ++ String "." t) with (String c (d ++ String "." t)).
    cbn [all_chars negb is_empty]. rewrite all_chars_app.
    simpl in Pl. rewrite Pl, Pc, Pd. simpl. rewrite Pt.
    now rewrite dot_before_end_app.
Qed.

(** ** Validation *)

Lemma validate_blank (inv : value) (r : string) :
  recipient_blank r = true -> validateInvoiceData inv r = Return (Some required).
Proof. unfold validateInvoiceData, recipient_blank. now intros ->. Qed.

Lemma validate_misshapen (inv : value) (r : string) :
  recipient_blank r = false -> emailRegex_test (trim r) = false ->
  validateInvoiceData inv r = Return (Some "Please provide a valid email address").
Proof. unfold validateInvoiceData, recipient_blank. now intros -> ->. Qed.

Lemma falsy_has_no_total (summary : value) :
  truthy summary = false -> is_number (member summary "total") = false.
Proof. destruct summary; simpl; intro H; try reflexivity; discriminate. Qed.

Lemma validate_typed (inv : value) (r : string) :
  typed_invoice inv = true ->
  recipient_blank r = false -> emailRegex_test (trim r) = true ->
  validateInvoiceData inv r = Return (invoice_failure inv).
Proof.
  unfold typed_invoice. intros T B E. split_andb_hyps T.
  match goal with D : negb (nullish inv) = true |- _ => apply negb_true_iff in D;
    rename D into D0 end.
  unfold validateInvoiceData, invoice_failure, id_present, total_numeric, has_items.
  unfold recipient_blank in B. rewrite B, E. cbn [negb].
  rewrite !(get_defined _ _ D0), !bind_Return.
  assert (Sum : forall (k : bool -> completion (option string)),
            bind (if negb (truthy (member inv "summary")) then Return true
                  else let! total := get (member inv "summary") "total" in
                       Return (negb (String.eqb (typeof total) "number"))) k
            = k (negb (is_number (member (member inv "summary") "total")))).
  { intro k. destruct (truthy (member inv "summary")) eqn:U; simpl.
    - now rewrite (get_defined _ _ (truthy_defined _ U)).
    - now rewrite (falsy_has_no_total _ U). }
  destruct (member inv "invoice_id") as [| | | |id| |]; try discriminate.
  - reflexivity.
  - destruct id as [|c id]; [reflexivity|]. cbn [truthy is_empty negb trim_of].
    rewrite !bind_Return.
    destruct (is_empty (trim (String c id))); [reflexivity|]. cbn [negb].
    rewrite Sum. destruct (is_number (member (member inv "summary") "total")); [|reflexivity].
    cbn [negb]. destruct (member inv "items") as [| | | | |elements|]; try discriminate.
    + reflexivity.
    + destruct elements as [|x xs]; [reflexivity|].
      cbn [truthy negb length_of List.length]. rewrite !bind_Return.
      unfold is_number_zero, of_Z, is_zero. cbn [Qnum].
      destruct (Z.eqb_spec (Z.of_nat (S (List.length xs))) 0); [lia | reflexivity].
Qed.


(** C8 (as amended).  [validateInvoiceData] returns the message of the
    first check that fails, in the order: recipient not empty after
    trimming, trimmed recipient of the shape local@domain.tld, invoice_id
    not empty after trimming, summary.total a number, items not empty.  A
    blank recipient fails on the first check whatever the invoice is, the
    empty recipient in particular; a recipient of the wrong shape fails on
    the second whatever the invoice is; and a valid recipient with an
    otherwise valid invoice whose items are empty fails on the items
    check. *)
Theorem validation_reports_first_failing_check (invoiceData : value) (recipient : string) :
  typed_invoice invoiceData = true ->
  validateInvoiceData invoiceData recipient = Return (first_failure invoiceData recipient) /\
  (forall anything, validateInvoiceData anything EmptyString = Return (Some required)) /\
  (recipient_blank recipient = true ->
   forall anything, validateInvoiceData anything recipient = Return (Some required)) /\
  (recipient_blank recipient = false -> ~ email_shape (trim recipient) ->
   forall anything,
     validateInvoiceData anything recipient
     = Return (Some "Please provide a valid email address")) /\
  (recipient_blank recipient = false -> email_shape (trim recipient) ->
   id_present invoiceData = true -> total_numeric invoiceData = true ->
   member invoiceData "items" = Arr [] ->
   validateInvoiceData invoiceData recipient
   = Return (Some "Invoice must contain at least one item")).
Proof.
  intro T.
  assert (F : validateInvoiceData invoiceData recipient
              = Return (first_failure invoiceData recipient)).
  { unfold first_failure. destruct (recipient_blank recipient) eqn:B.
    - now apply validate_blank.
    - destruct (emailRegex_test (trim recipient)) eqn:E.
      + now apply validate_typed.
      + now apply validate_misshapen. }
  split; [exact F|]. split; [|split; [|split]].
  - intro anything. now apply validate_blank.
  - intros B anything. now apply validate_blank.
  - intros B E anything. apply validate_misshapen; [exact B|].
    destruct (emailRegex_test (trim recipient)) eqn:X; [|reflexivity].
    exfalso. apply E. now apply emailRegex_shape.
  - intros B E I N A. rewrite F. unfold first_failure. rewrite B.
    apply emailRegex_shape in E. rewrite E, I, N. unfold has_items. now rewrite A.
Qed.

Lemma validation_reports_first_failing_check_witness :
  validateInvoiceData
    (Obj [("invoice_id", Str "INV-1");
          ("summary", Obj [("total", Num (of_Z 10))]);
          ("items", Arr [])])
    "buyer@example.com"
  = Return (Some "Invoice must contain at least one item").
Proof.
  destruct (validation_reports_first_failing_check
              (Obj [("invoice_id", Str "INV-1");
                    ("summary", Obj [("total", Num (of_Z 10))]);
                    ("items", Arr [])])
              "buyer@example.com" eq_refl) as (_ & _ & _ & _ & H).
  apply H; try reflexivity.
  apply emailRegex_shape. reflexivity.
Defined.

(** C8 (as stated) fails: for a recipient of one space, which is not
    empty, the first check of the stated order passes and the shape check
    is the first to fail; the code trims the recipient first and answers
    that a recipient is required. *)
Lemma blank_recipient_fails_first_check :
  let invoiceData :=
    Obj [("invoice_id", Str "INV-1"); ("summary", Obj [("total", Num (of_Z 10))]);
         ("items", Arr [Obj [("description", Str "Bolt")]])] in
  first_failure_as_stated invoiceData " " = Some "Please provide a valid email address" /\
  validateInvoiceData invoiceData " " = Return (Some "Recipient email address is required").
Proof. split; reflexivity. Qed.

(** ** The default recipient *)








(** ** Sending *)




End DispatchProperties.

(* ===================================================================== *)
(** * Properties of the identifier formats *)
(* ===================================================================== *)

Module IdentifierProperties.
Import JS Spec JSFacts AIInvoiceService NormalizerFacts.

Lemma trimStart_visible_head (s : string) :
  match trimStart s with
  | EmptyString => True
  | String c _ => is_whitespace c = false
  end.
Proof.
  induction s as [|c s IH]; simpl; [exact I|].
  destruct (is_whitespace c) eqn:E; [exact IH | exact E].
Qed.

Lemma trimEnd_idempotent (s : string) : trimEnd (trimEnd s) = trimEnd s.
Proof.
  induction s as [|c s IH]; simpl; [reflexivity|].
  destruct (trimEnd s) as [|d k] eqn:E.
  - destruct (is_whitespace c) eqn:W; simpl; [reflexivity | now rewrite W].
  - simpl in *. now rewrite IH.
Qed.

Lemma trimStart_after_trimEnd (s : string) :
  match s with
  | EmptyString => True
  | String c _ => is_whitespace c = false
  end ->
  trimStart (trimEnd s) = trimEnd s.
Proof.
  destruct s as [|c s]; [reflexivity|]. intro W. simpl. rewrite W.
  destruct (trimEnd s); simpl; now rewrite W.
Qed.

Lemma trim_idempotent (s : string) : trim (trim s) = trim s.
Proof.
  unfold trim. rewrite (trimStart_after_trimEnd _ (trimStart_visible_head s)).
  apply trimEnd_idempotent.
Qed.

Lemma trimStart_plain (s : string) :
  all_chars (fun c => negb (is_whitespace c)) s = true -> trimStart s = s.
Proof.
  destruct s as [|c s]; simpl; [reflexivity|].
  intro H. apply andb_prop in H as [H _]. apply negb_true_iff in H. now rewrite H.
Qed.

Lemma id_char_visible (c : ascii) : id_char c = true -> is_whitespace c = false.
Proof. destruct c as [[] [] [] [] [] [] [] []]; vm_compute; congruence. Qed.

Lemma id_chars_visible (s : string) :
  all_chars id_char s = true -> all_chars (fun c => negb (is_whitespace c)) s = true.
Proof.
  induction s as [|c s IH]; simpl; [reflexivity|].
  intro H. apply andb_prop in H as [Hc Hs]. now rewrite (id_char_visible _ Hc), IH.
Qed.

Lemma digit_id_char (c : ascii) : is_digit c = true -> id_char c = true.
Proof. destruct c as [[] [] [] [] [] [] [] []]; vm_compute; congruence. Qed.

Lemma digits_id_chars (s : string) :
  all_chars is_digit s = true -> all_chars id_char s = true.
Proof.
  induction s as [|c s IH]; simpl; [reflexivity|].
  intro H. apply andb_prop in H as [Hc Hs]. now rewrite (digit_id_char _ Hc), (IH Hs).
Qed.

Lemma is_empty_length (s : string) : Nat.eqb (String.length s) 0 = is_empty s.
Proof. destruct s; reflexivity. Qed.

(** The two validators in closed form. *)
Lemma validateInvoiceId_trimmed (s : string) :
  validateInvoiceId s = negb (is_empty (trim s)) && all_chars id_char (trim s).
Proof.
  unfold validateInvoiceId, invoiceIdPattern_test. rewrite is_empty_length.
  destruct s as [|c s]; [reflexivity|]. cbn [is_empty].
  destruct (is_empty (trim (String c s))); reflexivity.
Qed.

Lemma canSendReminder_trimmed (s : string) :
  SendReminderService.canSendReminder s
  = negb (is_empty (trim s)) && all_chars id_char (trim s).
Proof.
  unfold SendReminderService.canSendReminder, SendReminderService.validatePoNumber,
    SendReminderService.poNumberPattern_test.
  change SendReminderService.po_char with id_char.
  destruct s as [|c s]; [reflexivity|]. cbn [is_empty].
  destruct (is_empty (trim (String c s))); [reflexivity|]. simpl.
  destruct (all_chars id_char (trim (String c s))); reflexivity.
Qed.

(** X1.  [validateInvoiceId] and [canSendReminder] accept the same
    strings: those that, once trimmed, are not empty and consist of
    letters, digits, hyphens and underscores only.  Neither depends on
    white space around its argument, and an accepted string has none
    inside. *)
Theorem identifier_validators_agree (s : string) :
  validateInvoiceId s = SendReminderService.canSendReminder s /\
  validateInvoiceId (trim s) = validateInvoiceId s /\
  (validateInvoiceId s = true <->
   trim s <> EmptyString /\ all_chars id_char (trim s) = true) /\
  (validateInvoiceId s = true ->
   all_chars (fun c => negb (is_whitespace c)) (trim s) = true).
Proof.
  rewrite canSendReminder_trimmed, !validateInvoiceId_trimmed, trim_idempotent.
  split; [reflexivity|]. split; [reflexivity|]. split.
  - rewrite andb_true_iff, negb_true_iff, is_empty_false. tauto.
  - intro H. apply andb_prop in H as [_ H]. now apply id_chars_visible.
Qed.

(** X2.  With the clock not before the epoch and the random draw in
    0..999, the fallback identifier built for a PO number passes
    [validateInvoiceId] exactly when every character of the PO number is a
    letter, a digit, a hyphen or an underscore; the empty PO number
    included. *)
Theorem fallback_identifier_validity (env : Env) (poNumber : string) :
  0 <= now_fallback_id env -> 0 <= random_fallback_id env < 1000 ->
  validateInvoiceId (generateFallbackInvoiceId env poNumber) = all_chars id_char poNumber.
Proof.
  intros Hn Hr. rewrite validateInvoiceId_trimmed.
  destruct (fallback_id_pattern env poNumber Hn Hr) as [-> _].
  destruct (Z_to_string_digits _ Hn) as [Dn _]. destruct (padded_random _ Hr) as [_ Dr].
  unfold generateFallbackInvoiceId. cbn [append is_empty negb all_chars andb].
  rewrite all_chars_app. cbn [all_chars]. rewrite all_chars_app. cbn [all_chars].
  rewrite (digits_id_chars _ Dn), (digits_id_chars _ Dr).
  destruct (all_chars id_char poNumber); reflexivity.
Qed.

Lemma fallback_identifier_validity_witness :
  validateInvoiceId (generateFallbackInvoiceId Samples.env "PO 9") = false /\
  validateInvoiceId (generateFallbackInvoiceId Samples.env "PO-9") = true.
Proof.
  split.
  - rewrite (fallback_identifier_validity Samples.env "PO 9"); [reflexivity | simpl; lia ..].
  - rewrite (fallback_identifier_validity Samples.env "PO-9"); [reflexivity | simpl; lia ..].
Defined.

End IdentifierProperties.

(* ===================================================================== *)
(** * Properties of the reminder dispatch service *)
(* ===================================================================== *)

Module ReminderProperties.
Import JS Spec JSFacts SendReminderService.
Local Open Scope js_scope.

Lemma validation_message_not_empty (poNumber m : string) :
  validatePoNumber poNumber = Some m -> is_empty m = false.
Proof.
  unfold validatePoNumber.
  destruct (is_empty poNumber); [now intros [= <-]|].
  destruct (is_empty (trim poNumber)); [now intros [= <-]|].
  destruct (negb (poNumberPattern_test (trim poNumber))); [now intros [= <-] | discriminate].
Qed.

Lemma on_reminder_error_fails (e : exn) : success (on_reminder_error e) = false.
Proof. destruct e as [m|]; simpl; [destruct (includes m "fetch")|]; reflexivity. Qed.

(** What [sendReminder] returns when its checks pass and the answer is ok
    with a body whose [status] can be read. *)
Lemma reminder_answered
    (rt : Runtime) (poNumber base : string) (response : Response) (data : value) :
  base_url rt = Some base ->
  canSendReminder poNumber = true ->
  fetch rt (reminder_request base (trim poNumber)) = Return response ->
  ok response = true ->
  json response = Return data ->
  nullish data = false ->
  sendReminder rt poNumber
  = if is_literal (member data "status") "reminder_sent" then
      {| success := true;
         message := Some ("Reminder successfully sent for Purchase Order "
                          ++ trim poNumber);
         error := None; details := None |}
    else
      catch (let! shown := to_string rt (member data "status") in
             Return (failed ("Unexpected response status: " ++ shown) (Some data)))
            on_reminder_error.
Proof.
  intros B V F O J N. unfold sendReminder, canSendReminder in *. rewrite B.
  destruct (validatePoNumber poNumber); [discriminate|].
  unfold post_reminder. rewrite F, bind_Return, O. cbn [negb].
  rewrite J, bind_Return, (get_defined _ _ N), bind_Return.
  now destruct (is_literal (member data "status") "reminder_sent").
Qed.

(** X3.  [sendReminder] reports success exactly when the base URL is set,
    the PO number is valid, the request for the trimmed PO number is
    answered with an ok status, and the body of the answer is an object (or
    another non-null value) whose [status] is the string "reminder_sent";
    the result is then the success whose message names the trimmed PO
    number.  An ok answer with any other body is a failure. *)
Theorem reminder_succeeds_on_literal_status_only (rt : Runtime) (poNumber : string) :
  (success (sendReminder rt poNumber) = true <->
   exists base response data,
     base_url rt = Some base /\
     canSendReminder poNumber = true /\
     fetch rt (reminder_request base (trim poNumber)) = Return response /\
     ok response = true /\
     json response = Return data /\
     nullish data = false /\
     member data "status" = Str "reminder_sent") /\
  (success (sendReminder rt poNumber) = true ->
   sendReminder rt poNumber
   = {| success := true;
        message := Some ("Reminder successfully sent for Purchase Order "
                         ++ trim poNumber);
        error := None; details := None |}).
Proof.
  assert (Necessary :
            success (sendReminder rt poNumber) = true ->
            exists base response data,
              base_url rt = Some base /\
              canSendReminder poNumber = true /\
              fetch rt (reminder_request base (trim poNumber)) = Return response /\
              ok response = true /\
              json response = Return data /\
              nullish data = false /\
              member data "status" = Str "reminder_sent").
  { unfold sendReminder, canSendReminder.
    destruct (base_url rt) as [base|]; [|discriminate].
    destruct (validatePoNumber poNumber) as [m|] eqn:V.
    { rewrite (validation_message_not_empty _ _ V). discriminate. }
    unfold post_reminder.
    destruct (fetch rt (reminder_request base (trim poNumber))) as [response|e] eqn:F;
      [|intro H; cbn [catch bind] in H; now rewrite on_reminder_error_fails in H].
    rewrite bind_Return. destruct (ok response) eqn:O; cbn [negb].
    2:{ destruct (to_string rt (server_error_message response));
          intro H; cbn [catch bind] in H;
          [discriminate | now rewrite on_reminder_error_fails in H]. }
    destruct (json response) as [data|e] eqn:J;
      [|intro H; cbn [catch bind] in H; now rewrite on_reminder_error_fails in H].
    rewrite bind_Return. unfold get.
    destruct (nullish data) eqn:N;
      [intro H; cbn [catch bind] in H; now rewrite on_reminder_error_fails in H|].
    rewrite bind_Return.
    destruct (is_literal (member data "status") "reminder_sent") eqn:L.
    2:{ destruct (to_string rt (member data "status"));
          intro H; cbn [catch bind] in H;
          [discriminate | now rewrite on_reminder_error_fails in H]. }
    intros _. exists base, response, data. repeat split; try assumption.
    destruct (member data "status"); try discriminate. simpl in L.
    apply String.eqb_eq in L. now subst. }
  assert (Sufficient :
            forall base response data,
              base_url rt = Some base /\
              canSendReminder poNumber = true /\
              fetch rt (reminder_request base (trim poNumber)) = Return response /\
              ok response = true /\
              json response = Return data /\
              nullish data = false /\
              member data "status" = Str "reminder_sent" ->
              sendReminder rt poNumber
              = {| success := true;
                   message := Some ("Reminder successfully sent for Purchase Order "
                                    ++ trim poNumber);
                   error := None; details := None |}).
  { intros base response data (B & V & F & O & J & N & S).
    rewrite (reminder_answered _ _ _ _ _ B V F O J N), S. reflexivity. }
  split; [split|].
  - exact Necessary.
  - intros (base & response & data & H). now rewrite (Sufficient _ _ _ H).
  - intro H. destruct (Necessary H) as (base & response & data & K).
    exact (Sufficient _ _ _ K).
Qed.

(** An ok answer whose status is another string is a failure that carries
    the body. *)
Example unexpected_status_is_failure :
  sendReminder
    {| API_BASE_URL := Some "https://api.example.com";
       fetch := fun _ =>
         Return {| status := 200; statusText := "OK";
                   json := Return (Obj [("status", Str "sent")]);
                   text := Return "(the body)" |};
       JSON_parse := fun _ => Return Null;
       ToString := fun v => match v with Str s => s | _ => "null" end;
       toFixed := fun _ _ => "0.00" |}
    "PO-9"
  = failed "Unexpected response status: sent" (Some (Obj [("status", Str "sent")])).
Proof. reflexivity. Qed.

(** X4.  The checks of [sendReminder] come in this order, each returning
    before anything later happens: a missing base URL fails every call,
    valid PO number or not; with the base URL set an invalid PO number
    fails with the message of [validatePoNumber] ("required" for the empty
    string, "cannot be empty" for white space only, "invalid characters"
    otherwise), and the result does not depend on the network. *)
Theorem reminder_checks_precede_request (rt : Runtime) (poNumber : string) :
  (base_url rt = None ->
   sendReminder rt poNumber = failed "API configuration error: Base URL not set" None) /\
  (base_url rt <> None -> canSendReminder poNumber = false ->
   exists m,
     validatePoNumber poNumber = Some m /\
     sendReminder rt poNumber = failed m None /\
     (poNumber = EmptyString -> m = "PO number is required") /\
     (poNumber <> EmptyString -> trim poNumber = EmptyString ->
      m = "PO number cannot be empty") /\
     (trim poNumber <> EmptyString -> m = "PO number contains invalid characters")).
Proof.
  unfold sendReminder, canSendReminder. split; [now intros ->|].
  intros B C. destruct (base_url rt) as [base|]; [|congruence].
  destruct (validatePoNumber poNumber) as [m|] eqn:V; [|discriminate].
  exists m. rewrite (validation_message_not_empty _ _ V).
  split; [reflexivity|]. split; [reflexivity|].
  unfold validatePoNumber in V. destruct poNumber as [|c s].
  - injection V as <-. repeat split; intros; try congruence. now cbn in *.
  - cbn [is_empty] in V. destruct (trim (String c s)) as [|d t] eqn:T.
    + injection V as <-. repeat split; congruence.
    + cbn [is_empty] in V.
      destruct (negb (poNumberPattern_test (String d t))); [|discriminate].
      injection V as <-. repeat split; congruence.
Qed.

Lemma reminder_checks_precede_request_witness :
  sendReminder Samples.offline "PO 9"
  = failed "PO number contains invalid characters" None.
Proof.
  destruct (reminder_checks_precede_request Samples.offline "PO 9") as [_ H].
  destruct H as (m & _ & R & _ & _ & M); [discriminate | reflexivity |].
  rewrite R. f_equal. apply M. discriminate.
Defined.

End ReminderProperties.

(* ===================================================================== *)
(** * Invariants of invoice generation and update *)
(* ===================================================================== *)

Module ResultProperties.
Import JS Spec Shape JSFacts AIInvoiceService NormalizerFacts.
Local Open Scope js_scope.

(** An invoice the normaliser returns is the closed form for some
    identifier, and is populated. *)
Lemma normalize_returns (env : Env) (rawResponse : value) (poNumber : option string)
    (inv : value) :
  validateAndNormalizeInvoiceResponse env rawResponse poNumber = Return (Some inv) ->
  is_object rawResponse = true /\
  populated inv = true /\
  exists id,
    resolved env (actual_data rawResponse) poNumber = Some id /\
    inv = normalized env (actual_data rawResponse) id
            (normalized_items (actual_data rawResponse)).
Proof.
  intro R. destruct (is_object rawResponse) eqn:O;
    [|rewrite (normalize_not_object _ _ _ O) in R; discriminate].
  rewrite (normalize_object _ _ _ O) in R. split; [reflexivity|].
  destruct (resolved env (actual_data rawResponse) poNumber) as [id|] eqn:E;
    [|discriminate].
  assert (I : items_of (actual_data rawResponse)
              = Return (normalized_items (actual_data rawResponse))).
  { unfold items_of, normalized_items in *.
    destruct (member (actual_data rawResponse) "items"); try reflexivity.
    destruct (map_indexed normalize_item 0 elements) as [ys|e] eqn:M; [|discriminate].
    now rewrite (proj1 (map_indexed_returns _ _ _ M)). }
  rewrite I, bind_Return in R.
  destruct (summary_converts (actual_data rawResponse)); [|discriminate].
  injection R as <-.
  split; [|now exists id].
  apply populated_normalized. exact (NormalizerProperties.resolved_visible _ _ _ _ E).
Qed.

Lemma existing_invoice_populated (w : World) (poNumber : string) (inv : value) :
  getExistingInvoiceFromDatabase w poNumber = Some inv -> populated inv = true.
Proof.
  unfold getExistingInvoiceFromDatabase.
  destruct (base_url (rt w)) as [base|]; [|discriminate].
  destruct (fetch (rt w) _) as [response|]; simpl; [|discriminate].
  destruct (status response =? 404); [discriminate|].
  destruct (negb (ok response)); [discriminate|].
  destruct (json response) as [existing|]; simpl; [|discriminate].
  destruct (validateAndNormalizeInvoiceResponse _ existing _) as [[found|]|] eqn:N;
    simpl; try discriminate.
  intros [= <-]. exact (proj1 (proj2 (normalize_returns _ _ _ _ N))).
Qed.

Lemma fallback_invoice_populated (env : Env) (poNumber : string) :
  populated (fallbackInvoice env poNumber) = true.
Proof. reflexivity. Qed.

(** What the [try] block of [generateAIInvoice] can return. *)
Lemma generate_via_api_returns (w : World) (base poNumber : string)
    (r : InvoiceGenerationResult) :
  generate_via_api w base poNumber = Return r ->
  (exists message raw, r = failure message raw) \/
  (exists response responseText rawResponseData inv,
     fetch (rt w) {| url := base ++ "/ai/invoice"; method := "POST";
                     body := Some (Obj [("po_number", Str poNumber)]) |}
     = Return response /\
     ok response = true /\
     text response = Return responseText /\
     JSON_parse (rt w) responseText = Return rawResponseData /\
     validateAndNormalizeInvoiceResponse (env_generated w) rawResponseData (Some poNumber)
     = Return (Some inv) /\
     r = succeeded inv "api").
Proof.
  unfold generate_via_api.
  destruct (fetch (rt w) _) as [response|] eqn:F; simpl; [|discriminate].
  destruct (ok response) eqn:O; simpl.
  2:{ destruct (to_string (rt w) (server_error_message response)); simpl;
        [intros [= <-]; left; eauto | discriminate]. }
  destruct (text response) as [responseText|] eqn:T; simpl; [|discriminate].
  destruct (JSON_parse (rt w) responseText) as [raw|] eqn:J; [|intros [= <-]; left; eauto].
  destruct (validateAndNormalizeInvoiceResponse _ raw _) as [[inv|]|] eqn:N; simpl;
    [|intros [= <-]; left; eauto|discriminate].
  intros [= <-]. right. exists response, responseText, raw, inv.
  repeat split; assumption.
Qed.

(** X5.  Every result of [generateAIInvoice] is of one of two kinds: a
    success carrying an invoice in which every field of the canonical
    shape is defined, no error, and one of the sources "database", "api"
    and "generated"; or a failure carrying an error message, no invoice and
    no source. *)
Theorem generation_result_is_total_or_error (w : World) (poNumber : string) :
  (success (generateAIInvoice w poNumber) = true ->
   exists inv src,
     invoice (generateAIInvoice w poNumber) = Some inv /\ populated inv = true /\
     error (generateAIInvoice w poNumber) = None /\
     source (generateAIInvoice w poNumber) = Some src /\
     In src ["database"; "api"; "generated"]) /\
  (success (generateAIInvoice w poNumber) = false ->
   invoice (generateAIInvoice w poNumber) = None /\
   source (generateAIInvoice w poNumber) = None /\
   exists message, error (generateAIInvoice w poNumber) = Some message).
Proof.
  assert (S : forall inv src, populated inv = true ->
            In src ["database"; "api"; "generated"] ->
            (success (succeeded inv src) = true ->
             exists inv' src',
               invoice (succeeded inv src) = Some inv' /\ populated inv' = true /\
               error (succeeded inv src) = None /\
               source (succeeded inv src) = Some src' /\
               In src' ["database"; "api"; "generated"]) /\
            (success (succeeded inv src) = false ->
             invoice (succeeded inv src) = None /\ source (succeeded inv src) = None /\
             exists message, error (succeeded inv src) = Some message)).
  { intros inv src P I. split; [|discriminate]. intros _. exists inv, src. auto. }
  assert (F : forall message raw,
            (success (failure message raw) = true ->
             exists inv' src',
               invoice (failure message raw) = Some inv' /\ populated inv' = true /\
               error (failure message raw) = None /\
               source (failure message raw) = Some src' /\
               In src' ["database"; "api"; "generated"]) /\
            (success (failure message raw) = false ->
             invoice (failure message raw) = None /\ source (failure message raw) = None /\
             exists message', error (failure message raw) = Some message')).
  { intros message raw. split; [discriminate|]. intros _. simpl. eauto. }
  unfold generateAIInvoice.
  destruct (is_empty poNumber || is_empty (trim poNumber)); [apply F|].
  destruct (getExistingInvoiceFromDatabase w (trim poNumber)) as [existing|] eqn:X.
  { apply S; [exact (existing_invoice_populated _ _ _ X) | simpl; auto]. }
  destruct (base_url (rt w)) as [base|]; [|apply F].
  destruct (generate_via_api w base (trim poNumber)) as [r|e] eqn:G; simpl.
  - destruct (generate_via_api_returns _ _ _ _ G)
      as [(message & raw & ->)|(_ & _ & raw & inv & _ & _ & _ & _ & N & ->)];
      [apply F|].
    apply S; [exact (proj1 (proj2 (normalize_returns _ _ _ _ N))) | simpl; auto].
  - unfold on_generation_error. destruct (is_fetch_failure e); [|apply F].
    apply S; [apply fallback_invoice_populated | simpl; auto].
Qed.

Lemma generation_result_is_total_or_error_witness :
  exists inv,
    invoice (generateAIInvoice Samples.offline_world "PO-9") = Some inv /\
    populated inv = true.
Proof.
  destruct (generation_result_is_total_or_error Samples.offline_world "PO-9") as [H _].
  destruct (H eq_refl) as (inv & _ & I & P & _). now exists inv.
Defined.

Lemma empty_trims_empty (s : string) : is_empty s = true -> is_empty (trim s) = true.
Proof. destruct s; [reflexivity | discriminate]. Qed.

(** X6.  [generateAIInvoice] depends on the PO number only through its
    trimmed form: white space around the PO number changes nothing, in
    the requests made or in the result. *)
Theorem generation_ignores_surrounding_space (w : World) (poNumber : string) :
  generateAIInvoice w poNumber = generateAIInvoice w (trim poNumber).
Proof.
  unfold generateAIInvoice. rewrite IdentifierProperties.trim_idempotent.
  destruct (is_empty poNumber) eqn:E.
  - now rewrite (empty_trims_empty _ E).
  - simpl. now rewrite orb_diag.
Qed.

(** X7.  Where an invoice of [generateAIInvoice] comes from: source
    "database" only when the existence check returned that invoice; source
    "api" only when the generation endpoint answered ok with a body that
    parsed and normalised to that invoice; source "generated" only when
    the generation step threw an [Error] whose message includes "fetch",
    the invoice then being the placeholder.  In particular no error status
    of the server and no malformed body ever yields the placeholder. *)
Theorem generation_source_tells_origin (w : World) (poNumber : string) :
  (source (generateAIInvoice w poNumber) = Some "database" ->
   exists inv,
     getExistingInvoiceFromDatabase w (trim poNumber) = Some inv /\
     generateAIInvoice w poNumber = succeeded inv "database") /\
  (source (generateAIInvoice w poNumber) = Some "api" ->
   exists base response responseText rawResponseData inv,
     base_url (rt w) = Some base /\
     fetch (rt w) {| url := base ++ "/ai/invoice"; method := "POST";
                     body := Some (Obj [("po_number", Str (trim poNumber))]) |}
     = Return response /\
     ok response = true /\
     text response = Return responseText /\
     JSON_parse (rt w) responseText = Return rawResponseData /\
     validateAndNormalizeInvoiceResponse (env_generated w) rawResponseData
       (Some (trim poNumber)) = Return (Some inv) /\
     generateAIInvoice w poNumber = succeeded inv "api") /\
  (source (generateAIInvoice w poNumber) = Some "generated" ->
   exists base message,
     base_url (rt w) = Some base /\
     generate_via_api w base (trim poNumber) = Throw (ErrorExn message) /\
     includes message "fetch" = true /\
     generateAIInvoice w poNumber
     = succeeded (fallbackInvoice (env_fallback w) (trim poNumber)) "generated").
Proof.
  unfold generateAIInvoice.
  destruct (is_empty poNumber || is_empty (trim poNumber));
    [repeat split; discriminate|].
  destruct (getExistingInvoiceFromDatabase w (trim poNumber)) as [existing|] eqn:X.
  { split; [intros _; now exists existing|]. split; discriminate. }
  destruct (base_url (rt w)) as [base|]; [|repeat split; discriminate].
  destruct (generate_via_api w base (trim poNumber)) as [r|e] eqn:G; cbn [catch].
  - destruct (generate_via_api_returns _ _ _ _ G)
      as [(message & raw & ->)|(response & responseText & raw & inv & H1 & H2 & H3 & H4 & N & ->)];
      [repeat split; discriminate|].
    split; [discriminate|]. split; [|discriminate].
    intros _. exists base, response, responseText, raw, inv. auto 10.
  - unfold on_generation_error. destruct (is_fetch_failure e) eqn:T;
      [|repeat split; discriminate].
    split; [discriminate|]. split; [discriminate|]. intros _.
    destruct e as [message|]; [|discriminate]. exists base, message. auto.
Qed.

Lemma generation_source_tells_origin_witness :
  exists base message,
    base_url Samples.offline = Some base /\
    generate_via_api Samples.offline_world base "PO-9" = Throw (ErrorExn message) /\
    includes message "fetch" = true.
Proof.
  destruct (generation_source_tells_origin Samples.offline_world "PO-9") as (_ & _ & H).
  destruct (H eq_refl) as (base & message & B & G & I & _). now exists base, message.
Defined.

End ResultProperties.

(* ===================================================================== *)
(** * Properties of the invoice update service *)
(* ===================================================================== *)

Module UpdateProperties.
Import JS Spec Shape JSFacts NormalizerFacts InvoiceUpdateService.
Local Open Scope js_scope.

Lemma update_reaches_api (rt : Runtime) (env : AIInvoiceService.Env)
    (updatePayload : InvoiceUpdatePayload) (base : string) (response : Response)
    (rawResponseData : value) :
  base_url rt = Some base ->
  is_empty (trim (invoice_id updatePayload)) = false ->
  fetch rt (update_request base updatePayload) = Return response ->
  ok response = true ->
  json response = Return rawResponseData ->
  updateInvoice rt env updatePayload
  = match AIInvoiceService.validateAndNormalizeInvoiceResponse env rawResponseData
            (Some (invoice_id updatePayload)) with
    | Return (Some normalized) =>
        {| success := true; invoice := Some normalized; error := None |}
    | Return None => failed "Invalid response structure from update API"
    | Throw (ErrorExn m) => failed m
    | Throw ThrownValue => failed "An unexpected error occurred during invoice update"
    end.
Proof.
  intros B N F O J. unfold updateInvoice, put_invoice. rewrite B, N, F, bind_Return, O, J.
  destruct (invoice_id updatePayload); [discriminate N|]. cbn [is_empty orb negb].
  rewrite bind_Return.
  destruct (AIInvoiceService.validateAndNormalizeInvoiceResponse _ _ _) as [[inv|]|[m|]];
    reflexivity.
Qed.

Lemma hint_not_empty (s : string) : is_empty (trim s) = false -> is_empty s = false.
Proof. destruct s; [discriminate | reflexivity]. Qed.

(** With a hint that is not empty the normaliser settles on an
    identifier. *)
Lemma resolved_with_hint (env : AIInvoiceService.Env) (a : value) (po : string) :
  is_empty po = false -> resolved env a (Some po) <> None.
Proof.
  intro P. unfold resolved. rewrite P.
  now destruct (AIInvoiceService.identifier_invalid (identifier_candidate a)).
Qed.

(** X8.  When the update endpoint answers ok, [updateInvoice] uses the
    identifier being updated as the hint of the normaliser, so the answer is
    never refused for lacking an identifier: a body that is no object gives
    "Invalid response structure from update API"; an object body whose
    items can be read and whose numeric fields convert to a primitive gives
    success with a populated invoice, whose invoice_id is the trimmed
    identifier of the body, or, when the body has no usable one, a
    fallback identifier built from the identifier being updated; and any
    other object body gives the failure whose error is the message of the
    normaliser's TypeError. *)
Theorem update_never_lacks_identifier
    (rt : Runtime) (env : AIInvoiceService.Env) (updatePayload : InvoiceUpdatePayload)
    (base : string) (response : Response) (rawResponseData : value) :
  base_url rt = Some base ->
  is_empty (trim (invoice_id updatePayload)) = false ->
  fetch rt (update_request base updatePayload) = Return response ->
  ok response = true ->
  json response = Return rawResponseData ->
  (is_object rawResponseData = false ->
   updateInvoice rt env updatePayload
   = failed "Invalid response structure from update API") /\
  (is_object rawResponseData = true ->
   items_readable (actual_data rawResponseData) = true ->
   numbers_convert (actual_data rawResponseData) = true ->
   exists inv,
     updateInvoice rt env updatePayload
     = {| success := true; invoice := Some inv; error := None |} /\
     populated inv = true /\
     (forall s, identifier_candidate (actual_data rawResponseData) = Str s ->
                is_empty (trim s) = false -> member inv "invoice_id" = Str (trim s)) /\
     (AIInvoiceService.identifier_invalid (identifier_candidate (actual_data rawResponseData))
      = true ->
      0 <= AIInvoiceService.now_fallback_id env ->
      0 <= AIInvoiceService.random_fallback_id env < 1000 ->
      exists id, member inv "invoice_id" = Str id /\
                 fallback_pattern (invoice_id updatePayload) id)) /\
  (is_object rawResponseData = true ->
   items_readable (actual_data rawResponseData)
   && numbers_convert (actual_data rawResponseData) = false ->
   exists m,
     updateInvoice rt env updatePayload = failed m /\
     (ErrorExn m = conversion_error \/
      exists item, nullish item = true /\ ErrorExn m = type_error_reading item "description")).
Proof.
  intros B N F O J. rewrite (update_reaches_api _ env _ _ _ _ B N F O J).
  split; [|split].
  - intro X. now rewrite (normalize_not_object _ _ _ X).
  - intros X I C. apply andb_prop in C as [Ci Cs].
    rewrite (normalize_object _ _ _ X), (items_of_readable _ I Ci), Cs.
    set (a := actual_data rawResponseData) in *.
    destruct (AIInvoiceService.identifier_invalid (identifier_candidate a)) eqn:V.
    + rewrite (resolved_fallback env a _ V (hint_not_empty _ N)), bind_Return.
      eexists. split; [reflexivity|].
      split; [apply populated_normalized, fallback_id_visible|].
      split.
      * intros s E T. unfold AIInvoiceService.identifier_invalid in V.
        rewrite E in V. simpl in V. rewrite T in V. now destruct s.
      * intros _ Hn Hr.
        destruct (fallback_id_pattern env (invoice_id updatePayload) Hn Hr) as [T P].
        eexists. split; [|exact P].
        cbn [member lookup normalized String.eqb Ascii.eqb Bool.eqb]. now rewrite T.
    + destruct (resolved_candidate env a (Some (invoice_id updatePayload)) V)
        as (s & E & T & R).
      rewrite R, bind_Return. eexists. split; [reflexivity|].
      split; [now apply populated_normalized|]. split; [|discriminate].
      intros s' E' _. rewrite E in E'. now injection E' as <-.
  - intros X K.
    destruct (NormalizerProperties.normalizer_outcomes env rawResponseData
                (Some (invoice_id updatePayload))) as (_ & _ & T & _).
    destruct (T X (resolved_with_hint env _ _ (hint_not_empty _ N)) K) as (e & -> & E).
    destruct E as [->|(item & D & ->)].
    + eexists. split; [reflexivity | now left].
    + eexists. split; [reflexivity|]. right. now exists item.
Qed.

Lemma update_never_lacks_identifier_witness :
  exists inv,
    updateInvoice
      {| API_BASE_URL := Some "https://api.example.com";
         fetch := fun _ =>
           Return {| status := 200; statusText := "OK";
                     json := Return (Obj [("notes", Str "updated")]);
                     text := Return "(the body)" |};
         JSON_parse := fun _ => Return Null;
         ToString := fun v => match v with Str s => s | _ => "null" end;
         toFixed := fun _ _ => "0.00" |}
      Samples.env
      {| invoice_id := "INV-7"; changes := [("notes", Str "updated")] |}
    = {| success := true; invoice := Some inv; error := None |} /\
    exists id, member inv "invoice_id" = Str id /\ fallback_pattern "INV-7" id.
Proof.
  edestruct (update_never_lacks_identifier
               {| API_BASE_URL := Some "https://api.example.com";
                  fetch := fun _ =>
                    Return {| status := 200; statusText := "OK";
                              json := Return (Obj [("notes", Str "updated")]);
                              text := Return "(the body)" |};
                  JSON_parse := fun _ => Return Null;
                  ToString := fun v => match v with Str s => s | _ => "null" end;
                  toFixed := fun _ _ => "0.00" |}
               Samples.env
               {| invoice_id := "INV-7"; changes := [("notes", Str "updated")] |}
               "https://api.example.com") as (_ & H & _); try reflexivity.
  destruct (H eq_refl eq_refl eq_refl) as (inv & U & _ & _ & P).
  exists inv. split; [exact U|]. apply P; [reflexivity | simpl; lia | simpl; lia].
Defined.

(** X9.  [updateInvoice] checks the configuration first and the identifier
    second, and makes no request when either fails: without a base URL
    every call fails with the configuration error, whatever the payload;
    with it, an identifier that is empty or white space only fails with
    "Invoice ID is required for updates", whatever the network would
    answer.  Every result is a success with a populated invoice and no
    error, or a failure with an error and no invoice. *)
Theorem update_checks_and_results
    (rt : Runtime) (env : AIInvoiceService.Env) (updatePayload : InvoiceUpdatePayload) :
  (base_url rt = None ->
   updateInvoice rt env updatePayload = failed "API configuration error: Base URL not set") /\
  (base_url rt <> None -> is_empty (trim (invoice_id updatePayload)) = true ->
   updateInvoice rt env updatePayload = failed "Invoice ID is required for updates") /\
  (success (updateInvoice rt env updatePayload) = true ->
   exists inv,
     invoice (updateInvoice rt env updatePayload) = Some inv /\ populated inv = true /\
     error (updateInvoice rt env updatePayload) = None) /\
  (success (updateInvoice rt env updatePayload) = false ->
   invoice (updateInvoice rt env updatePayload) = None /\
   exists message, error (updateInvoice rt env updatePayload) = Some message).
Proof.
  unfold updateInvoice. split; [now intros ->|]. split.
  { intros B T. destruct (base_url rt); [|congruence]. now rewrite T, orb_true_r. }
  destruct (base_url rt) as [base|]; [|split; [discriminate | simpl; eauto]].
  destruct (is_empty (invoice_id updatePayload) || is_empty (trim (invoice_id updatePayload)));
    [split; [discriminate | simpl; eauto]|].
  unfold put_invoice.
  destruct (fetch rt _) as [response|e]; cbn [bind catch];
    [|split; [discriminate | simpl; eauto]].
  destruct (negb (ok response)); cbn [bind catch].
  { destruct (to_string rt (server_error_message response)); cbn [bind catch];
      (split; [discriminate | simpl; eauto]). }
  destruct (json response) as [raw|e]; cbn [bind catch];
    [|split; [discriminate | simpl; eauto]].
  destruct (AIInvoiceService.validateAndNormalizeInvoiceResponse env raw _)
    as [[inv|]|e] eqn:R; cbn [bind catch]; try (split; [discriminate | simpl; eauto]).
  split; [|discriminate]. intros _. exists inv. split; [reflexivity|].
  split; [|reflexivity].
  exact (proj1 (proj2 (ResultProperties.normalize_returns _ _ _ _ R))).
Qed.

Lemma update_checks_and_results_witness :
  updateInvoice Samples.offline Samples.env {| invoice_id := "  "; changes := [] |}
  = failed "Invoice ID is required for updates".
Proof.
  apply (update_checks_and_results Samples.offline Samples.env
           {| invoice_id := "  "; changes := [] |}).
  - discriminate.
  - reflexivity.
Defined.

End UpdateProperties.

(* ===================================================================== *)
(** * Properties of the error buffer queries *)
(* ===================================================================== *)

Module ErrorQueryProperties.
Import JS Spec InvoiceErrorHandler ErrorBufferProperties.

Lemma for_po_unique (a b : string) (e : InvoiceError) :
  for_po a e = true -> for_po b e = true -> a = b.
Proof.
  unfold for_po. destruct (poNumber e) as [p|]; [|discriminate].
  intros A B. apply String.eqb_eq in A, B. congruence.
Qed.

Lemma In_skipn {A} (n : nat) (l : list A) (x : A) : In x (skipn n l) -> In x l.
Proof.
  intro H. rewrite <- (firstn_skipn n l). apply in_or_app. now right.
Qed.

Lemma filter_nothing {A} (f : A -> bool) (l : list A) :
  (forall x, In x l -> f x = false) -> List.filter f l = [].
Proof.
  induction l as [|x l IH]; intro H; simpl; [reflexivity|].
  rewrite (H x (or_introl eq_refl)). apply IH. intros y I. apply H. now right.
Qed.

(** X10.  Clearing the errors of one PO removes exactly the records of
    that PO: afterwards [getErrors] finds none for it, and finds for every
    other PO what it found before.  The empty string is no PO number to
    either method: [getErrors] then returns the whole buffer and
    [clearErrors] empties it, as when the argument is omitted. *)
Theorem clearing_one_po_leaves_the_others
    (errors : list InvoiceError) (po other : string) :
  po <> EmptyString ->
  getErrors (clearErrors errors (Some po)) (Some po) = [] /\
  (other <> EmptyString -> other <> po ->
   getErrors (clearErrors errors (Some po)) (Some other) = getErrors errors (Some other)) /\
  getErrors (clearErrors errors (Some po)) None
  = List.filter (fun e => negb (for_po po e)) errors /\
  getErrors errors (Some EmptyString) = getErrors errors None /\
  clearErrors errors (Some EmptyString) = clearErrors errors None /\
  clearErrors errors None = [].
Proof.
  intro N. apply JSFacts.is_empty_false in N. unfold getErrors, clearErrors.
  rewrite N. cbn [is_empty]. repeat split.
  - apply filter_nothing. intros e I. apply filter_In in I as [_ I].
    now apply negb_true_iff in I.
  - intros O D. apply JSFacts.is_empty_false in O. rewrite O.
    induction errors as [|e l IH]; [reflexivity|]. simpl.
    destruct (for_po po e) eqn:P; simpl.
    + destruct (for_po other e) eqn:Q; [|exact IH].
      exfalso. apply D. symmetry. exact (for_po_unique _ _ _ P Q).
    + destruct (for_po other e); now rewrite IH.
Qed.

Lemma clearing_one_po_leaves_the_others_witness :
  let record p :=
    {| code := "NETWORK_ERROR"; message := "down"; details := Undefined;
       timestamp := "2023-11-14T22:13:20.000Z"; poNumber := p |} in
  getErrors (clearErrors [record (Some "PO-1"); record (Some "PO-2"); record None]
               (Some "PO-1")) (Some "PO-2")
  = [record (Some "PO-2")].
Proof.
  intro record.
  destruct (clearing_one_po_leaves_the_others
              [record (Some "PO-1"); record (Some "PO-2"); record None] "PO-1" "PO-2")
    as (_ & H & _); [discriminate|].
  rewrite H; [reflexivity | discriminate | discriminate].
Defined.



(** X12.  A record logged for a PO number is the last one [getErrors]
    returns for that PO number right afterwards, whatever the buffer held
    and however full it was. *)
Theorem logged_error_is_last_for_its_po
    (errors : list InvoiceError) (now : Z) (e : PartialInvoiceError) (po : string) :
  given_poNumber e = Some po -> po <> EmptyString ->
  exists earlier,
    getErrors (logError errors now e) (Some po) = (earlier ++ [fullError now e])%list.
Proof.
  intros G N. apply JSFacts.is_empty_false in N. unfold getErrors. rewrite N.
  rewrite logError_most_recent.
  destruct (most_recent_snoc 50 errors (fullError now e)) as [front ->]; [lia|].
  rewrite filter_app. exists (List.filter (for_po po) front). f_equal.
  simpl. unfold for_po. simpl. now rewrite G, String.eqb_refl.
Qed.

Lemma logged_error_is_last_for_its_po_witness :
  exists earlier,
    getErrors
      (logError [] 1700000000000
         {| given_code := None; given_message := Some "down"; given_details := Undefined;
            given_timestamp := None; given_poNumber := Some "PO-1" |})
      (Some "PO-1")
    = (earlier ++ [fullError 1700000000000
                     {| given_code := None; given_message := Some "down";
                        given_details := Undefined; given_timestamp := None;
                        given_poNumber := Some "PO-1" |}])%list.
Proof.
  apply logged_error_is_last_for_its_po; [reflexivity | discriminate].
Defined.

Lemma logErrors_from_any_buffer (errors : list InvoiceError)
    (calls : list (Z * PartialInvoiceError)) :
  calls <> [] -> logErrors errors calls = most_recent 50 (errors ++ logged calls).
Proof.
  destruct calls as [|[now e] rest]; [congruence|]. intros _. simpl.
  rewrite logError_most_recent, logErrors_most_recent, <- app_assoc. reflexivity.
Qed.

(** X13.  The bound of 50 is shared by all PO numbers: once 50 or more
    errors of other PO numbers have been logged, nothing logged before
    them is left, so [getErrors] returns no error for a PO number that
    none of them carries. *)
Theorem fifty_later_errors_evict_a_po
    (errors : list InvoiceError) (calls : list (Z * PartialInvoiceError)) (po : string) :
  (50 <= List.length calls)%nat ->
  (forall call, In call calls -> given_poNumber (snd call) <> Some po) ->
  po <> EmptyString ->
  logErrors errors calls = most_recent 50 (logged calls) /\
  getErrors (logErrors errors calls) (Some po) = [].
Proof.
  intros L O N.
  assert (E : logErrors errors calls = most_recent 50 (logged calls)).
  { rewrite logErrors_from_any_buffer by (destruct calls; [simpl in L; lia | discriminate]).
    unfold most_recent, logged. rewrite length_app, length_map, skipn_app.
    rewrite skipn_all2 by lia. simpl. f_equal. lia. }
  split; [exact E|]. rewrite E. apply JSFacts.is_empty_false in N.
  unfold getErrors. rewrite N. apply filter_nothing.
  intros x I. unfold most_recent in I. apply In_skipn in I. unfold logged in I.
  apply in_map_iff in I as (call & <- & I). specialize (O call I).
  unfold for_po. simpl. destruct (given_poNumber (snd call)) as [p|]; [|reflexivity].
  apply String.eqb_neq. congruence.
Qed.

Lemma fifty_later_errors_evict_a_po_witness :
  let first :=
    {| given_code := None; given_message := None; given_details := Undefined;
       given_timestamp := None; given_poNumber := Some "PO-1" |} in
  let later :=
    List.map (fun n => (Z.of_nat n,
                        {| given_code := None; given_message := None;
                           given_details := Undefined; given_timestamp := None;
                           given_poNumber := Some "PO-2" |}))
             (seq 0 50) in
  getErrors (logErrors (logError [] 0 first) later) (Some "PO-1") = [].
Proof.
  intros first later.
  apply (fifty_later_errors_evict_a_po (logError [] 0 first) later "PO-1").
  - reflexivity.
  - intros call I. unfold later in I. apply in_map_iff in I as (n & <- & _). discriminate.
  - discriminate.
Defined.

End ErrorQueryProperties.

(* ===================================================================== *)
(** * Further properties of the reminder activity cache *)
(* ===================================================================== *)

Module ActivitySweepProperties.
Import JS Spec ReminderActivityTracker ActivityCacheProperties.
Local Open Scope js_scope.

(** The sweep leaves every item it does not judge expired where it is
    found. *)
Lemma sweep_keeps (oneHourAgo : Z) (key : string) (v : stored)
    (l : list (string * stored)) :
  judge oneHourAgo key v <> Remove ->
  find_item key l = Some v ->
  find_item key (sweep oneHourAgo l) = Some v.
Proof.
  intro F. induction l as [|[k x]|[k x] [k' x'] l IH1 IH2] using pair_induction.
  - discriminate.
  - rewrite sweep_step. simpl. destruct (String.eqb k key) eqn:E; [|discriminate].
    intros [= ->]. apply String.eqb_eq in E. subst k.
    destruct (judge oneHourAgo key v); simpl; try rewrite String.eqb_refl; congruence.
  - rewrite sweep_step. intro H.
    destruct (String.eqb k key) eqn:E.
    + simpl in H. rewrite E in H. injection H as ->. apply String.eqb_eq in E. subst k.
      destruct (judge oneHourAgo key v); simpl; try rewrite String.eqb_refl; congruence.
    + assert (H' : find_item key ((k', x') :: l) = Some v).
      { simpl in H. now rewrite E in H. }
      destruct (judge oneHourAgo k x).
      * simpl. rewrite E. exact (IH2 H').
      * simpl in *. destruct (String.eqb k' key); [exact H' | exact (IH1 H')].
      * simpl. rewrite E. exact H'.
Qed.

Lemma other_key_not_judged (oneHourAgo : Z) (key : string) (v : stored) :
  startsWith key "reminder_activity_" = false -> judge oneHourAgo key v <> Remove.
Proof. unfold judge. intros ->. rewrite andb_false_r. discriminate. Qed.

Lemma undated_not_removed (oneHourAgo : Z) (key : string) (v : stored) :
  v = Timeless \/ v = Unreadable \/ v = Blank -> judge oneHourAgo key v <> Remove.
Proof.
  unfold judge. intros [ -> | [ -> | -> ] ]; simpl;
    destruct (negb (is_empty key) && startsWith key "reminder_activity_");
    discriminate.
Qed.

(** X14.  [cleanupOldReminderActivity] removes nothing but reminder records
    older than one hour: every item it leaves was there before, and it
    leaves in place every item stored under a key that does not start with
    "reminder_activity_", every record not older than one hour, and every
    item whose timestamp cannot be read (no date, no JSON, empty). *)
Theorem cleanup_removes_only_expired_records
    (st : Storage) (now : Z) (key : string) (v : stored) :
  (forall item, In item (items (cleanupOldReminderActivity st now)) -> In item (items st)) /\
  (getItem st key = Some v ->
   startsWith key "reminder_activity_" = false
   \/ (exists a, v = Activity a /\ now - one_hour <= timestamp a)
   \/ v = Timeless \/ v = Unreadable \/ v = Blank ->
   getItem (cleanupOldReminderActivity st now) key = Some v).
Proof.
  split.
  - intros item. apply sweep_In.
  - intros G K. unfold getItem, cleanupOldReminderActivity. cbn [items].
    apply sweep_keeps; [|exact G].
    destruct K as [K|[(a & -> & K)|K]].
    + now apply other_key_not_judged.
    + now apply fresh_not_removed.
    + now apply undated_not_removed.
Qed.

Lemma cleanup_removes_only_expired_records_witness :
  getItem
    (cleanupOldReminderActivity
       {| items := [("reminder_activity_PO-7",
                     Activity {| timestamp := 0; status := failed; message := "old" |});
                    ("theme", Unreadable)];
          quota_exceeded := false |}
       1700000000000)
    "theme" = Some Unreadable.
Proof.
  apply (cleanup_removes_only_expired_records
           {| items := [("reminder_activity_PO-7",
                         Activity {| timestamp := 0; status := failed; message := "old" |});
                        ("theme", Unreadable)];
              quota_exceeded := false |}
           1700000000000 "theme" Unreadable).
  - reflexivity.
  - left. reflexivity.
Defined.

Lemma find_put_other (key other : string) (v : stored) (l : list (string * stored)) :
  other <> key -> find_item other (put_item key v l) = find_item other l.
Proof.
  intro N. induction l as [|[k x] l IH]; simpl.
  - destruct (String.eqb_spec key other); [congruence | reflexivity].
  - destruct (String.eqb_spec k key) as [->|D]; simpl.
    + destruct (String.eqb_spec key other); [congruence | reflexivity].
    + now rewrite IH.
Qed.

Lemma recent_activity_read (st : Storage) (now : Z) (poNumber : string)
    (r : ReminderActivity) :
  getRecentReminderActivity st now poNumber = Some r <->
  getItem st (activity_key poNumber) = Some (Activity r) /\ now - one_hour < timestamp r.
Proof.
  unfold getRecentReminderActivity. split.
  - destruct (getItem st (activity_key poNumber)) as [[a| | |]|]; simpl; try discriminate.
    destruct (Z.ltb_spec (now - one_hour) (timestamp a)); [|discriminate].
    intros [= ->]. now split.
  - intros [-> H]. simpl.
    destruct (Z.ltb_spec (now - one_hour) (timestamp r)); [reflexivity | lia].
Qed.

(** X15.  Recording a reminder for one PO does not disturb the record of
    another: what [getRecentReminderActivity] returned for the other PO it
    still returns afterwards, provided that record is not yet an hour old
    when the sweep of the write runs.  A read never returns a record that
    is an hour old or more. *)
Theorem tracking_one_po_keeps_the_others
    (st : Storage) (T T_cleanup : Z) (poNumber other : string) (s : Status) (m : string)
    (T' : Z) (r : ReminderActivity) :
  other <> poNumber ->
  getRecentReminderActivity st T' other = Some r ->
  T_cleanup - one_hour <= timestamp r ->
  T' - one_hour < timestamp r /\
  getRecentReminderActivity (trackReminderActivity st T T_cleanup poNumber s m) T' other
  = Some r.
Proof.
  intros N G C. apply recent_activity_read in G as [G F]. split; [exact F|].
  apply recent_activity_read. split; [|exact F].
  unfold trackReminderActivity, setItem.
  destruct (quota_exceeded st); [exact G|]. simpl. unfold getItem. simpl.
  apply sweep_keeps_fresh; [exact C|].
  rewrite find_put_other; [exact G|].
  unfold activity_key. intro E. apply N. simpl in E. now injection E.
Qed.

Lemma tracking_one_po_keeps_the_others_witness :
  let st := {| items := [("reminder_activity_PO-7",
                          Activity {| timestamp := 1699999000000; status := sent;
                                      message := "first" |})];
               quota_exceeded := false |} in
  getRecentReminderActivity
    (trackReminderActivity st 1700000000000 1700000000001 "PO-9" failed "second")
    1700000000500 "PO-7"
  = Some {| timestamp := 1699999000000; status := sent; message := "first" |}.
Proof.
  intro st.
  apply (tracking_one_po_keeps_the_others st 1700000000000 1700000000001 "PO-9" "PO-7"
           failed "second" 1700000000500).
  - discriminate.
  - reflexivity.
  - unfold one_hour. simpl. lia.
Defined.

End ActivitySweepProperties.

(* ===================================================================== *)
(** * Normalised invoices in the dispatch service *)
(* ===================================================================== *)

Module DispatchComposition.
Import JS Spec Shape JSFacts NormalizerFacts SendInvoiceService DispatchProperties.
Local Open Scope js_scope.

Lemma normalized_typed (env : AIInvoiceService.Env) (a : value) (id : string)
    (items : list value) :
  typed_invoice (normalized env a id items) = true.
Proof. reflexivity. Qed.

Lemma normalized_failure (env : AIInvoiceService.Env) (a : value) (id : string)
    (items : list value) :
  is_empty (trim id) = false ->
  invoice_failure (normalized env a id items)
  = match items with
    | [] => Some "Invoice must contain at least one item"
    | _ :: _ => None
    end.
Proof.
  intro N. unfold invoice_failure, id_present, total_numeric, has_items, normalized, zero.
  cbn [member lookup String.eqb Ascii.eqb Bool.eqb].
  rewrite (trim_trim_nonempty _ N), either_number. cbn [negb].
  destruct items; reflexivity.
Qed.

(** X16.  An invoice that the normaliser returned never fails dispatch
    validation on its identifier or its total, and validation never throws
    on it: [validateInvoiceData] answers that the recipient is required,
    or not a valid address, or that the invoice has no items, or accepts
    it. *)
Theorem normalised_invoice_validates
    (env : AIInvoiceService.Env) (rawResponse : value) (hint : option string)
    (inv : value) (recipient : string) :
  AIInvoiceService.validateAndNormalizeInvoiceResponse env rawResponse hint
  = Return (Some inv) ->
  validateInvoiceData inv recipient
  = Return (if recipient_blank recipient then Some required
            else if negb (emailRegex_test (trim recipient))
              then Some "Please provide a valid email address"
            else match member inv "items" with
                 | Arr [] => Some "Invoice must contain at least one item"
                 | _ => None
                 end).
Proof.
  intro R. destruct (ResultProperties.normalize_returns _ _ _ _ R) as (_ & _ & id & E & ->).
  pose proof (NormalizerProperties.resolved_visible _ _ _ _ E) as N.
  destruct (recipient_blank recipient) eqn:B; [now apply validate_blank|].
  destruct (emailRegex_test (trim recipient)) eqn:S; [|now apply validate_misshapen].
  rewrite (validate_typed _ _ (normalized_typed _ _ _ _) B S), (normalized_failure _ _ _ _ N).
  cbn [negb member lookup normalized String.eqb Ascii.eqb Bool.eqb].
  destruct (normalized_items (actual_data rawResponse)); reflexivity.
Qed.

Lemma normalised_invoice_validates_witness :
  validateInvoiceData
    (Obj [("invoice_id", Str "INV-PO-1-1700000000000-007");
          ("invoice_date", Str "2023-11-14"); ("due_date", Str "2023-12-14");
          ("payment_terms", Str "Net 30"); ("shipping_method", Str "Standard");
          ("bill_to", Obj [("company", Str "Unknown Company");
                           ("contact", Str "Unknown Contact");
                           ("address", Str "Unknown Address");
                           ("phone", Str EmptyString); ("email", Str EmptyString)]);
          ("vendor", Obj [("company", Str "Unknown Vendor");
                          ("contact", Str "Unknown Contact");
                          ("address", Str "Unknown Address");
                          ("phone", Str EmptyString); ("email", Str EmptyString)]);
          ("items", Arr []);
          ("summary", Obj [("subtotal", Num (of_Z 0)); ("discount", Num (of_Z 0));
                           ("freight", Num (of_Z 0)); ("tax", Num (of_Z 0));
                           ("total", Num (of_Z 0))]);
          ("notes", Str EmptyString); ("payment_status", Str "Pending")])
    "buyer@example.com"
  = Return (Some "Invoice must contain at least one item").
Proof.
  apply (normalised_invoice_validates Samples.env (Obj []) (Some "PO-1")).
  reflexivity.
Defined.

Lemma fallback_validation (env : AIInvoiceService.Env) (poNumber recipient : string) :
  validateInvoiceData (AIInvoiceService.fallbackInvoice env poNumber) recipient
  = Return (Some (if recipient_blank recipient then required
                  else if negb (emailRegex_test (trim recipient))
                    then "Please provide a valid email address"
                  else "Invoice must contain at least one item")).
Proof.
  destruct (recipient_blank recipient) eqn:B; [now apply validate_blank|].
  destruct (emailRegex_test (trim recipient)) eqn:S; [|now apply validate_misshapen].
  rewrite (validate_typed (AIInvoiceService.fallbackInvoice env poNumber) recipient
             eq_refl B S).
  unfold invoice_failure, id_present, total_numeric, has_items,
    AIInvoiceService.fallbackInvoice.
  cbn [member lookup String.eqb Ascii.eqb Bool.eqb].
  now rewrite fallback_id_visible.
Qed.

(** X17.  The placeholder invoice that generation falls back on when the
    network is down can never be sent: it has no items, so with the base
    URL set [sendInvoice] returns a validation failure, before any
    request, for every recipient; with the recipient omitted (or empty)
    the default recipient is unknowncompany@example.com and the failure is
    "Invoice must contain at least one item". *)
Theorem placeholder_invoice_is_never_sent
    (rt : Runtime) (env : AIInvoiceService.Env) (base generatedFor poNumber : string) :
  base_url rt = Some base ->
  getDefaultRecipient (AIInvoiceService.fallbackInvoice env generatedFor)
  = Return "unknowncompany@example.com" /\
  sendInvoice rt (AIInvoiceService.fallbackInvoice env generatedFor) poNumber None
  = Return (failed (Str "Invoice must contain at least one item") None) /\
  (forall recipient,
     exists problem,
       sendInvoice rt (AIInvoiceService.fallbackInvoice env generatedFor) poNumber
         (Some recipient)
       = Return (failed (Str problem) None) /\
       In problem [required; "Please provide a valid email address";
                   "Invoice must contain at least one item"]).
Proof.
  intro B.
  assert (D : getDefaultRecipient (AIInvoiceService.fallbackInvoice env generatedFor)
              = Return "unknowncompany@example.com") by reflexivity.
  assert (O : sendInvoice rt (AIInvoiceService.fallbackInvoice env generatedFor) poNumber None
              = Return (failed (Str "Invoice must contain at least one item") None)).
  { unfold sendInvoice. now rewrite B, D, bind_Return, fallback_validation. }
  split; [exact D|]. split; [exact O|].
  intros [|c r].
  - exists "Invoice must contain at least one item". split; [exact O | simpl; auto].
  - unfold sendInvoice. rewrite B. cbn [is_empty]. rewrite bind_Return, fallback_validation.
    rewrite bind_Return.
    destruct (recipient_blank (String c r));
      [|destruct (negb (emailRegex_test (trim (String c r))))];
      eexists; (split; [reflexivity | simpl; auto]).
Qed.

Lemma placeholder_invoice_is_never_sent_witness :
  sendInvoice Samples.offline (AIInvoiceService.fallbackInvoice Samples.env "PO-9") "PO-9" None
  = Return (failed (Str "Invoice must contain at least one item") None).
Proof.
  apply (placeholder_invoice_is_never_sent Samples.offline Samples.env
           "https://api.example.com" "PO-9" "PO-9").
  reflexivity.
Defined.

(** ** The payload *)

Lemma either_truthy (a b : value) : truthy b = true -> truthy (either a b) = true.
Proof. unfold either. destruct (truthy a) eqn:T; auto. Qed.

Lemma either_kept (a b : value) : truthy a = true -> either a b = a.
Proof. unfold either. now intros ->. Qed.

Lemma either_twice (a b : value) :
  truthy b = true -> either (either a b) b = either a b.
Proof. intro T. now apply either_kept, either_truthy. Qed.

Lemma unit_price_number (a b c : number) :
  exists n, either (either (Num a) (Num b)) (Num c) = Num n.
Proof.
  unfold either. destruct (truthy (Num a)); [destruct (truthy (Num a))|];
    destruct (truthy (Num b)); eauto.
Qed.

Lemma either_number_or (a b : number) :
  exists n, either (Num a) (Num b) = Num n.
Proof. unfold either. destruct (truthy (Num a)); eauto. Qed.

Lemma to_string_converts (rt : Runtime) (v : value) :
  (convertible v = true -> exists s, to_string rt v = Return s) /\
  (convertible v = false -> to_string rt v = Throw conversion_error).
Proof.
  split; intro C; destruct v; try discriminate C; unfold to_string; rewrite ?C; eauto.
Qed.

Lemma item_line_normalized (rt : Runtime) (item : value) (i j : Z) :
  (description_converts (normalized_item item i) = true ->
   exists line, item_line rt (normalized_item item i) j = Return (Str line)) /\
  (description_converts (normalized_item item i) = false ->
   item_line rt (normalized_item item i) j = Throw conversion_error).
Proof.
  unfold description_converts, item_line, normalized_item, zero, get.
  cbn [nullish bind member lookup String.eqb Ascii.eqb Bool.eqb].
  destruct (unit_price_number (number_of (member item "unit_price"))
              (number_of (member item "unitPrice")) (of_Z 0)) as [n ->].
  destruct (either_number_or (number_of (member item "qty")) (of_Z 1)) as [q ->].
  destruct (to_string_converts rt
              (either (member item "description") (Str ("Item " ++ Z_to_string (i + 1)))))
    as [Yes No].
  split; intro C.
  - destruct (Yes C) as [d ->]. cbn [bind to_string]. eauto.
  - now rewrite (No C).
Qed.

Lemma item_lines_normalized (rt : Runtime) (elements : list value) (i j : Z) :
  (forallb description_converts (indexed normalized_item i elements) = true ->
   exists lines,
     map_indexed (item_line rt) j (indexed normalized_item i elements) = Return lines /\
     List.length lines = List.length (indexed normalized_item i elements) /\
     forallb is_string lines = true) /\
  (forallb description_converts (indexed normalized_item i elements) = false ->
   map_indexed (item_line rt) j (indexed normalized_item i elements)
   = Throw conversion_error).
Proof.
  revert i j. induction elements as [|x xs IH]; intros i j; cbn [indexed forallb map_indexed].
  - split; [|discriminate]. exists []. auto.
  - destruct (item_line_normalized rt x i j) as [Yes No].
    destruct (IH (i + 1) (j + 1)) as [Rest Fails].
    destruct (description_converts (normalized_item x i)); cbn [andb].
    + destruct (Yes eq_refl) as [line ->]. rewrite bind_Return. split; intro C.
      * destruct (Rest C) as (lines & -> & L & S). exists (Str line :: lines).
        simpl. rewrite S. auto.
      * now rewrite (Fails C).
    + rewrite (No eq_refl). split; [discriminate | reflexivity].
Qed.

(** X18.  On an invoice that the normaliser returned, [mapInvoiceToPayload]
    returns exactly when the description of every item converts to a
    primitive (the normaliser passes a truthy description through as it
    is, so it may be an object with an own toString property, on which the
    template literal throws a TypeError; that TypeError is then what the
    mapper throws).  The payload holds the trimmed recipient, the PO
    number, the company names and the total of the invoice as they are
    (the defaults of the mapper never apply: the normaliser left no company
    name falsy), and one line of text for each item. *)
Theorem normalised_invoice_maps_to_payload
    (rt : Runtime) (env : AIInvoiceService.Env) (rawResponse : value)
    (hint : option string) (inv : value) (poNumber recipient : string) :
  AIInvoiceService.validateAndNormalizeInvoiceResponse env rawResponse hint
  = Return (Some inv) ->
  exists items,
    member inv "items" = Arr items /\
    (forallb description_converts items = true ->
     exists lines,
       List.length lines = List.length items /\
       forallb is_string lines = true /\
       mapInvoiceToPayload rt inv poNumber recipient
       = Return (Obj [("recipient", Str (trim recipient));
                      ("invoice",
                       Obj [("po_number", Str poNumber);
                            ("bill_to", member (member inv "bill_to") "company");
                            ("vendor", member (member inv "vendor") "company");
                            ("total", member (member inv "summary") "total");
                            ("items", Arr lines)])])) /\
    (forallb description_converts items = false ->
     mapInvoiceToPayload rt inv poNumber recipient = Throw conversion_error).
Proof.
  intro R. destruct (ResultProperties.normalize_returns _ _ _ _ R) as (_ & _ & id & _ & ->).
  set (a := actual_data rawResponse).
  assert (L : (forallb description_converts (normalized_items a) = true ->
               exists lines,
                 map_indexed (item_line rt) 0 (normalized_items a) = Return lines /\
                 List.length lines = List.length (normalized_items a) /\
                 forallb is_string lines = true) /\
              (forallb description_converts (normalized_items a) = false ->
               map_indexed (item_line rt) 0 (normalized_items a) = Throw conversion_error)).
  { unfold normalized_items. destruct (member a "items");
      try (split; [exists []; repeat split; reflexivity | discriminate]).
    apply item_lines_normalized. }
  destruct L as [Yes No].
  assert (E : mapInvoiceToPayload rt (normalized env a id (normalized_items a))
                poNumber recipient
              = let! lines := map_indexed (item_line rt) 0 (normalized_items a) in
                Return (Obj [("recipient", Str (trim recipient));
                             ("invoice",
                              Obj [("po_number", Str poNumber);
                                   ("bill_to",
                                    member (member (normalized env a id (normalized_items a))
                                                   "bill_to") "company");
                                   ("vendor",
                                    member (member (normalized env a id (normalized_items a))
                                                   "vendor") "company");
                                   ("total",
                                    member (member (normalized env a id (normalized_items a))
                                                   "summary") "total");
                                   ("items", Arr lines)])])).
  { unfold mapInvoiceToPayload, normalized, get.
    cbn [nullish bind member lookup String.eqb Ascii.eqb Bool.eqb].
    rewrite !or_else_Return.
    cbn [nullish bind member lookup String.eqb Ascii.eqb Bool.eqb].
    rewrite !either_twice by reflexivity. reflexivity. }
  exists (normalized_items a). split; [reflexivity|]. rewrite E. split; intro C.
  - destruct (Yes C) as (lines & -> & N & S). exists lines. now rewrite bind_Return.
  - now rewrite (No C).
Qed.

Lemma normalised_invoice_maps_to_payload_witness :
  let rawResponse :=
    Obj [("invoice_id", Str "INV-7");
         ("items", Arr [Obj [("description", Str "Bolt"); ("unit_price", Str "2.5")]])] in
  exists inv lines,
    AIInvoiceService.validateAndNormalizeInvoiceResponse Samples.env rawResponse None
    = Return (Some inv) /\
    List.length lines = 1%nat /\
    mapInvoiceToPayload Samples.offline inv "PO-9" " buyer@example.com "
    = Return (Obj [("recipient", Str "buyer@example.com");
                   ("invoice",
                    Obj [("po_number", Str "PO-9"); ("bill_to", Str "Unknown Company");
                         ("vendor", Str "Unknown Vendor"); ("total", Num (of_Z 0));
                         ("items", Arr lines)])]).
Proof.
  intro rawResponse.
  assert (R : AIInvoiceService.validateAndNormalizeInvoiceResponse Samples.env rawResponse
                None
              = Return (Some (normalized Samples.env rawResponse "INV-7"
                                (normalized_items rawResponse))))
    by (vm_compute; reflexivity).
  destruct (normalised_invoice_maps_to_payload Samples.offline Samples.env rawResponse None
              _ "PO-9" " buyer@example.com " R) as (items & I & Returns & _).
  injection I as <-.
  destruct (Returns eq_refl) as (lines & L & _ & M).
  exists (normalized Samples.env rawResponse "INV-7" (normalized_items rawResponse)), lines.
  split; [exact R|]. split; [exact L | exact M].
Defined.

(** A description that is an object with an own [toString]: the
    normaliser passes it through, and the mapper throws on it. *)
Example unconvertible_description_aborts_the_payload :
  let rawResponse :=
    Obj [("invoice_id", Str "INV-7");
         ("items", Arr [Obj [("description", Obj [("toString", Null)])]])] in
  exists inv,
    AIInvoiceService.validateAndNormalizeInvoiceResponse Samples.env rawResponse None
    = Return (Some inv) /\
    mapInvoiceToPayload Samples.offline inv "PO-9" "buyer@example.com"
    = Throw conversion_error.
Proof. eexists. split; vm_compute; reflexivity. Qed.

(** ** Sending *)





End DispatchComposition.

(* ===================================================================== *)
(** * Properties of the action logger *)
(* ===================================================================== *)

Module ActionLoggerProperties.
Import JS JSFacts ActionLogger.
Local Open Scope js_scope.

Lemma post_action_result
    (rt : Runtime) (base poNumber actionDescription actorId : string) (isApproved : bool)
    (logged : bool) (raised : Toast) :
  post_action rt base poNumber actionDescription actorId isApproved
  = Return (logged, raised) ->
  destructive raised = negb logged /\
  exists response,
    fetch rt (log_request base poNumber actionDescription actorId isApproved)
    = Return response /\
    ok response = logged.
Proof.
  unfold post_action.
  destruct (fetch rt _) as [response|e]; [|discriminate].
  rewrite bind_Return. destruct (ok response) eqn:O; cbn [negb].
  - intros [= <- <-]. split; [reflexivity|]. now exists response.
  - destruct (get _ "message" ||| Return (Str EmptyString)) as [shown|e];
      cbn [bind]; [|discriminate].
    destruct (to_string rt shown) as [text|e]; cbn [bind]; [|discriminate].
    intros [= <- <-]. split; [reflexivity|]. now exists response.
Qed.

(** X20.  Every call of [logUserAction] raises exactly one toast, which is
    destructive exactly when the call returns false; and the call returns
    true exactly when the base URL is set and the request to [/log-action]
    is answered with an ok status (the body of the answer is not read
    then). *)
Theorem logging_raises_one_toast
    (rt : Runtime) (poNumber actionDescription actorId : string) (isApproved : bool) :
  exists raised,
    snd (logUserAction rt poNumber actionDescription actorId isApproved) = [raised] /\
    destructive raised
    = negb (fst (logUserAction rt poNumber actionDescription actorId isApproved)) /\
    (fst (logUserAction rt poNumber actionDescription actorId isApproved) = true <->
     exists base response,
       base_url rt = Some base /\
       fetch rt (log_request base poNumber actionDescription actorId isApproved)
       = Return response /\
       ok response = true).
Proof.
  unfold logUserAction. destruct (base_url rt) as [base|].
  - destruct (post_action rt base poNumber actionDescription actorId isApproved)
      as [[logged raised]|e] eqn:P.
    + destruct (post_action_result _ _ _ _ _ _ _ _ P) as (D & response & F & O).
      exists raised. split; [reflexivity|]. split; [exact D|]. cbn [fst]. split.
      * intros ->. now exists base, response.
      * intros (base' & response' & [= <-] & F' & O').
        rewrite F in F'. injection F' as <-. now rewrite <- O.
    + eexists. split; [reflexivity|]. split; [reflexivity|]. cbn [fst]. split; [discriminate|].
      intros (base' & response' & [= <-] & F' & O').
      unfold post_action in P. rewrite F', bind_Return, O' in P. discriminate.
  - eexists. split; [reflexivity|]. split; [reflexivity|]. cbn [fst]. split; [discriminate|].
    now intros (base' & response' & [=] & _).
Qed.

Example refused_action_is_not_logged :
  logUserAction
    {| API_BASE_URL := Some "https://api.example.com";
       fetch := fun _ =>
         Return {| status := 500; statusText := "Internal Server Error";
                   json := Throw ThrownValue; text := Return "(no body)" |};
       JSON_parse := fun _ => Return Null;
       ToString := fun v => match v with Str s => s | _ => "(other)" end;
       toFixed := fun _ _ => "0.00" |}
    "PO-1" "Approve PO" "user-1" true
  = (false,
     [{| title := "Logging Failed";
         description := "Could not log action: Approve PO. Server responded with 500. ";
         destructive := true |}]).
Proof. reflexivity. Qed.

End ActionLoggerProperties.
